(** * Wasteland Companion: the device liveness monitor and its store

    A shallow embedding of [server/deviceMonitor.ts], of the device part of
    [server/storage.ts], of the [devices] table and [insertDeviceSchema] of
    [shared/schema.ts], and of the device routes of [server/routes.ts].

    Asynchronous TypeScript functions are embedded as terms of an inductive
    type [Async] whose nodes are the effects the code performs ([new Date()],
    [execSync], [console.log], a database query that is awaited).  Two
    semantics are given to these terms: [run] executes one task alone to its
    end, and [Loop] is the Node event loop on which several tasks interleave
    at their [await]s. *)

From Stdlib Require Import ZArith Lia Ascii String.
From stdpp Require Import base tactics option list strings gmap.

Open Scope Z_scope.
Open Scope string_scope.
Open Scope list_scope.

(** ** shared/schema.ts *)

(** [devices]: one row of the table.  Timestamps are milliseconds since the
    epoch, the value of a JavaScript [Date]; a nullable column is an option. *)
Module devices.
Record Device : Type := mkDevice {
  id : string;
  name : string;
  ipAddress : string;
  macAddress : option string;
  deviceType : string;
  os : option string;
  description : option string;
  status : string;
  lastSeenAt : option Z;
  lastCheckedAt : option Z;
}.
End devices.
Abbreviation Device := devices.Device.

#[global] Instance Device_eq_dec : EqDecision Device.
Proof. solve_decision. Defined.

(** The table is the sequence of its rows. *)
Abbreviation Table := (list Device).

(** [InsertDevice]: the output type of [insertDeviceSchema].  A key that may
    be missing from the parsed object is an option; a key that may also hold
    [null] is an option of an option. *)
Record InsertDevice : Type := mkInsertDevice {
  ins_name : string;
  ins_ipAddress : string;
  ins_macAddress : option string;
  ins_deviceType : option string;
  ins_os : option (option string);
  ins_description : option (option string);
}.

(** [Partial<InsertDevice>]: the output type of [insertDeviceSchema.partial()]. *)
Record PartialInsertDevice : Type := mkPartialInsertDevice {
  upd_name : option string;
  upd_ipAddress : option string;
  upd_macAddress : option string;
  upd_deviceType : option string;
  upd_os : option (option string);
  upd_description : option (option string);
}.

(** [updateData] of [updateDeviceStatus]:
    [{ status: string; lastCheckedAt: Date; lastSeenAt?: Date }]. *)
Record StatusUpdate : Type := mkStatusUpdate {
  set_status : string;
  set_lastCheckedAt : Z;
  set_lastSeenAt : option Z;
}.

(** ** The database: the queries server/storage.ts builds on [devices] *)

Inductive ExecResult : Type :=
| Exited (code : Z) (stdout : string)
| TimedOut
| SpawnFailed.

(** What is thrown: an error of the drizzle client or of the database behind
    it, with its message, or the error of [execSync]. *)
Inductive JsError : Type :=
| DbError (message : string)
| ExecError (result : ExecResult).

(** A settled promise. *)
Inductive Outcome (A : Type) : Type :=
| Resolved (a : A)
| Rejected (e : JsError).
Arguments Resolved {A} a.
Arguments Rejected {A} e.

Inductive Query : Type :=
| SelectDevices
    (* db.select().from(devices) *)
| SelectDeviceById (i : string)
    (* db.select().from(devices).where(eq(devices.id, id)) *)
| InsertInto (v : InsertDevice)
    (* db.insert(devices).values(v).returning() *)
| UpdateSet (i : string) (u : PartialInsertDevice)
    (* db.update(devices).set(u).where(eq(devices.id, id)).returning() *)
| UpdateSetStatus (i : string) (u : StatusUpdate)
    (* db.update(devices).set(updateData).where(eq(devices.id, id)).returning() *)
| DeleteFrom (i : string).
    (* db.delete(devices).where(eq(devices.id, id)).returning() *)

(** [eq(devices.id, id)] *)
Definition id_is (i : string) (d : Device) : bool := bool_decide (devices.id d = i).

(** A key absent from the object given to [.set] leaves the column as it is. *)
Definition assign {A : Type} (new : option A) (old : A) : A := default old new.

(** [.set(updateData)] of [updateDeviceStatus] on one row. *)
Definition set_status_columns (u : StatusUpdate) (d : Device) : Device :=
  devices.mkDevice
    (devices.id d) (devices.name d) (devices.ipAddress d) (devices.macAddress d)
    (devices.deviceType d) (devices.os d) (devices.description d)
    (set_status u)
    (match set_lastSeenAt u with Some t => Some t | None => devices.lastSeenAt d end)
    (Some (set_lastCheckedAt u)).

(** [.set(updates)] of [updateDevice] on one row. *)
Definition set_columns (u : PartialInsertDevice) (d : Device) : Device :=
  devices.mkDevice
    (devices.id d)
    (assign (upd_name u) (devices.name d))
    (assign (upd_ipAddress u) (devices.ipAddress d))
    (assign (Some <$> upd_macAddress u) (devices.macAddress d))
    (assign (upd_deviceType u) (devices.deviceType d))
    (assign (upd_os u) (devices.os d))
    (assign (upd_description u) (devices.description d))
    (devices.status d) (devices.lastSeenAt d) (devices.lastCheckedAt d).

(** [.set(updates)] drops the keys that are [undefined] and throws when none
    is left. *)
Definition no_values (u : PartialInsertDevice) : bool :=
  match u with
  | mkPartialInsertDevice None None None None None None => true
  | _ => false
  end.

(** [.values(insertDevice)]: the columns not given take their defaults,
    [gen_random_uuid()] for [id], "other" for [device_type], "unknown" for
    [status], and NULL for the nullable ones. *)
Definition new_row (uuid : string) (v : InsertDevice) : Device :=
  devices.mkDevice
    uuid
    (ins_name v)
    (ins_ipAddress v)
    (ins_macAddress v)
    (default "other" (ins_deviceType v))
    (default None (ins_os v))
    (default None (ins_description v))
    "unknown" None None.

(** UPDATE ... WHERE id = i: every matching row is rewritten.  The list keeps
    the row at its place; the order in which the store returns its rows is
    its own, and a statement on a table is to be read row by row, by
    identifier. *)
Definition update_where (i : string) (f : Device -> Device) (t : Table) : Table :=
  (fun d => if id_is i d then f d else d) <$> t.

(** One query against the table, with the meaning of the SQL statement that
    drizzle sends for it ([db] of server/db.ts is the drizzle client of the
    database): the rows it returns, or the error it is rejected with, and
    the table after it.  [uuid] is what [gen_random_uuid()] yields for this
    query; [id] is the primary key, so an insert of a key that is present is
    rejected. *)
Definition db_exec (uuid : string) (q : Query) (t : Table)
  : Outcome (list Device) * Table :=
  match q with
  | SelectDevices => (Resolved t, t)
  | SelectDeviceById i => (Resolved (filter (fun d => id_is i d = true) t), t)
  | InsertInto v =>
      let row := new_row uuid v in
      if bool_decide (uuid ∈ devices.id <$> t)
      then (Rejected (DbError "duplicate key value violates unique constraint"), t)
      else (Resolved [row], t ++ [row])
  | UpdateSet i u =>
      let t' := update_where i (set_columns u) t in
      (Resolved (filter (fun d => id_is i d = true) t'), t')
  | UpdateSetStatus i u =>
      let t' := update_where i (set_status_columns u) t in
      (Resolved (filter (fun d => id_is i d = true) t'), t')
  | DeleteFrom i =>
      (Resolved (filter (fun d => id_is i d = true) t),
       filter (fun d => id_is i d = false) t)
  end.

(** ** Asynchronous code *)

(** The options object given to [execSync]. *)
Record ExecOptions : Type := mkExecOptions {
  encoding : string;
  timeout : Z;
  stdio : string;
}.

(** A task: what it returns or throws, or the next effect it performs and how
    it goes on from the effect's result.  [Await] is the only node at which
    the task is suspended and other tasks run. *)
Inductive Async (A : Type) : Type :=
| Return (a : A)
| Throw (e : JsError)
| NewDate (k : Z -> Async A)
| ExecSync (command : string) (options : ExecOptions) (k : ExecResult -> Async A)
| ConsoleLog (message : string) (k : Async A)
| ConsoleError (message : string) (e : JsError) (k : Async A)
| Await (q : Query) (k : Outcome (list Device) -> Async A).
Arguments Return {A} a.
Arguments Throw {A} e.
Arguments NewDate {A} k.
Arguments ExecSync {A} command options k.
Arguments ConsoleLog {A} message k.
Arguments ConsoleError {A} message e k.
Arguments Await {A} q k.

Fixpoint Async_bind {A B : Type} (f : A -> Async B) (p : Async A) : Async B :=
  match p with
  | Return a => f a
  | Throw e => Throw e
  | NewDate k => NewDate (fun t => Async_bind f (k t))
  | ExecSync c o k => ExecSync c o (fun r => Async_bind f (k r))
  | ConsoleLog m k => ConsoleLog m (Async_bind f k)
  | ConsoleError m e k => ConsoleError m e (Async_bind f k)
  | Await q k => Await q (fun r => Async_bind f (k r))
  end.

#[global] Instance Async_mret : MRet Async := @Return.
#[global] Instance Async_mbind : MBind Async := @Async_bind.

(** [try { p } catch (error) { h error }] *)
Fixpoint try_catch {A : Type} (p : Async A) (h : JsError -> Async A) : Async A :=
  match p with
  | Return a => Return a
  | Throw e => h e
  | NewDate k => NewDate (fun t => try_catch (k t) h)
  | ExecSync c o k => ExecSync c o (fun r => try_catch (k r) h)
  | ConsoleLog m k => ConsoleLog m (try_catch k h)
  | ConsoleError m e k => ConsoleError m e (try_catch k h)
  | Await q k => Await q (fun r => try_catch (k r) h)
  end.

(** [for (const x of xs) { body x }] *)
Fixpoint for_of {A : Type} (xs : list A) (body : A -> Async unit) : Async unit :=
  match xs with
  | [] => Return tt
  | x :: rest => body x ≫= fun _ => for_of rest body
  end.

(** [new Date()] *)
Definition new_Date : Async Z := NewDate Return.

(** [console.log(message)] and [console.error(message, error)] *)
Definition console_log (message : string) : Async unit := ConsoleLog message (Return tt).
Definition console_error (message : string) (e : JsError) : Async unit :=
  ConsoleError message e (Return tt).

(** [await q]: a rejected promise is thrown at the [await]. *)
Definition await (q : Query) : Async (list Device) :=
  Await q (fun r => match r with Resolved rows => Return rows | Rejected e => Throw e end).

(** [execSync(command, options)] of child_process: it returns the standard
    output of a command that exits with 0, and throws on a non-zero exit, on
    the timeout and when the command cannot be spawned. *)
Definition execSync (command : string) (options : ExecOptions) : Async string :=
  ExecSync command options (fun r =>
    match r with
    | Exited 0 stdout => Return stdout
    | _ => Throw (ExecError r)
    end).

(** ** The world a task runs in *)

(** What the code cannot decide: the wall clock, what a spawned command
    does, whether the database rejects a query, and the identifiers
    [gen_random_uuid()] draws.  Each is indexed by how many such events
    came before, so that it can change from one event to the next. *)
Record Env : Type := mkEnv {
  clock : nat -> Z;
  child_process : nat -> string -> ExecOptions -> ExecResult;
  db_fault : nat -> option JsError;
  gen_random_uuid : nat -> string;
}.

Inductive LogLine : Type :=
| Log (message : string)
| Error (message : string) (e : JsError).

Record World : Type := mkWorld {
  table : Table;
  console : list LogLine;
  execs : list (string * ExecOptions);   (* the commands spawned so far *)
  reads : nat;                           (* the clock readings so far *)
  ops : nat;                             (* the queries settled so far *)
}.

Section Semantics.
Context (E : Env).

(** The database settles a query: it rejects it when the environment says
    so, and executes it on the table otherwise. *)
Definition settle (q : Query) (w : World) : Outcome (list Device) * World :=
  match db_fault E (ops w) with
  | Some e =>
      (Rejected e, mkWorld (table w) (console w) (execs w) (reads w) (S (ops w)))
  | None =>
      let '(r, t) := db_exec (gen_random_uuid E (ops w)) q (table w) in
      (r, mkWorld t (console w) (execs w) (reads w) (S (ops w)))
  end.

(** One task alone, from its start to its end. *)
Fixpoint run {A : Type} (p : Async A) (w : World) : Outcome A * World :=
  match p with
  | Return a => (Resolved a, w)
  | Throw e => (Rejected e, w)
  | NewDate k =>
      run (k (clock E (reads w)))
          (mkWorld (table w) (console w) (execs w) (S (reads w)) (ops w))
  | ExecSync c o k =>
      run (k (child_process E (length (execs w)) c o))
          (mkWorld (table w) (console w) (execs w ++ [(c, o)]) (reads w) (ops w))
  | ConsoleLog m k =>
      run k (mkWorld (table w) (console w ++ [Log m]) (execs w) (reads w) (ops w))
  | ConsoleError m e k =>
      run k (mkWorld (table w) (console w ++ [Error m e]) (execs w) (reads w) (ops w))
  | Await q k =>
      let '(r, w') := settle q w in run (k r) w'
  end.

(** One turn of a task on the event loop: it runs until it is suspended at
    an [Await], returns or throws. *)
Fixpoint advance {A : Type} (p : Async A) (w : World) : Async A * World :=
  match p with
  | NewDate k =>
      advance (k (clock E (reads w)))
              (mkWorld (table w) (console w) (execs w) (S (reads w)) (ops w))
  | ExecSync c o k =>
      advance (k (child_process E (length (execs w)) c o))
              (mkWorld (table w) (console w) (execs w ++ [(c, o)]) (reads w) (ops w))
  | ConsoleLog m k =>
      advance k (mkWorld (table w) (console w ++ [Log m]) (execs w) (reads w) (ops w))
  | ConsoleError m e k =>
      advance k (mkWorld (table w) (console w ++ [Error m e]) (execs w) (reads w) (ops w))
  | Return _ | Throw _ | Await _ _ => (p, w)
  end.
End Semantics.

(** ** server/storage.ts, the [DatabaseStorage] methods on devices *)
Module storage.

Definition getAllDevices : Async (list Device) :=
  await SelectDevices.

Definition getDevice (id : string) : Async (option Device) :=
  rows ← await (SelectDeviceById id);
  mret (head rows).

Definition createDevice (insertDevice : InsertDevice) : Async (option Device) :=
  rows ← await (InsertInto insertDevice);
  mret (head rows).

(** With no column to set, [.set(updates)] throws while the query is built:
    nothing is sent, and the promise of [updateDevice] is rejected. *)
Definition updateDevice (id : string) (updates : PartialInsertDevice)
  : Async (option Device) :=
  if no_values updates
  then Throw (DbError "No values to set")
  else
    rows ← await (UpdateSet id updates);
    mret (head rows).

(** A [Date] object is truthy, so [if (lastSeenAt)] tests that the argument
    was given. *)
Definition updateDeviceStatus (id : string) (status : string) (lastSeenAt : option Z)
  : Async (option Device) :=
  now ← new_Date;
  let updateData := mkStatusUpdate status now None in
  let updateData :=
    match lastSeenAt with
    | Some t => mkStatusUpdate (set_status updateData) (set_lastCheckedAt updateData) (Some t)
    | None => updateData
    end in
  rows ← await (UpdateSetStatus id updateData);
  mret (head rows).

Definition deleteDevice (id : string) : Async bool :=
  result ← await (DeleteFrom id);
  mret (bool_decide (0 < length result)%nat).

End storage.

(** ** server/deviceMonitor.ts *)

Definition MONITOR_INTERVAL : Z := 60000.

Definition ping_options : ExecOptions := mkExecOptions "utf-8" 5000 "pipe".

Definition ping_command (ipAddress : string) : string :=
  "ping -c 1 -W 2 " +:+ ipAddress.

Definition pingDevice (ipAddress : string) : Async bool :=
  try_catch
    (_ ← execSync (ping_command ipAddress) ping_options;
     mret true)
    (fun _ => mret false).

(** The body of the [for] loop of [checkAllDevices]. *)
Definition check_device (device : Device) : Async unit :=
  isOnline ← pingDevice (devices.ipAddress device);
  let status := if isOnline : bool then "online" else "offline" in
  lastSeenAt ← (if isOnline then t ← new_Date; mret (Some t) else mret None);
  _ ← storage.updateDeviceStatus (devices.id device) status lastSeenAt;
  mret tt.

Definition checkAllDevices : Async unit :=
  try_catch
    (devices ← storage.getAllDevices;
     for_of devices check_device)
    (fun error => console_error "Device monitor error:" error).

(** ** The event loop: timers and the tasks suspended at an [await] *)

(** An interval registered with [setInterval]. *)
Record Timer : Type := mkTimer {
  handle : nat;
  callback : Async unit;
  delay : Z;
}.

(** A task suspended at [await q], and how it goes on when [q] settles. *)
Definition Suspended : Type := Query * (Outcome (list Device) -> Async unit).

Record Loop : Type := mkLoop {
  world : World;
  monitorInterval : option nat;   (* let monitorInterval: NodeJS.Timeout | null *)
  timers : list Timer;            (* the intervals that have not been cleared *)
  next_handle : nat;
  inflight : list Suspended;      (* the passes that have started and not ended *)
  unhandled : list JsError;       (* rejections of promises that nobody awaits *)
}.

(** The process at start-up: [monitorInterval = null], no timer, no task. *)
Definition boot (w : World) : Loop := mkLoop w None [] 0 [] [].

Definition with_world (w : World) (s : Loop) : Loop :=
  mkLoop w (monitorInterval s) (timers s) (next_handle s) (inflight s) (unhandled s).

(** Where a task is left once its turn is over. *)
Definition park (p : Async unit) (s : Loop) : Loop :=
  match p with
  | Await q k =>
      mkLoop (world s) (monitorInterval s) (timers s) (next_handle s)
             (inflight s ++ [(q, k)]) (unhandled s)
  | Throw e =>
      mkLoop (world s) (monitorInterval s) (timers s) (next_handle s)
             (inflight s) (unhandled s ++ [e])
  | _ => s
  end.

(** [setInterval(callback, delay)] and [clearInterval(handle)] *)
Definition setInterval (cb : Async unit) (ms : Z) (s : Loop) : nat * Loop :=
  (next_handle s,
   mkLoop (world s) (monitorInterval s) (timers s ++ [mkTimer (next_handle s) cb ms])
          (S (next_handle s)) (inflight s) (unhandled s)).

Definition clearInterval (h : nat) (s : Loop) : Loop :=
  mkLoop (world s) (monitorInterval s)
         (filter (fun t => handle t ≠ h) (timers s))
         (next_handle s) (inflight s) (unhandled s).

Definition set_monitorInterval (v : option nat) (s : Loop) : Loop :=
  mkLoop (world s) v (timers s) (next_handle s) (inflight s) (unhandled s).

Definition loop_log (message : string) (s : Loop) : Loop :=
  let w := world s in
  with_world (mkWorld (table w) (console w ++ [Log message]) (execs w) (reads w) (ops w)) s.

Section EventLoop.
Context (E : Env).

(** A call of an async function whose promise is dropped: the function
    runs up to its first [await] within the caller's turn. *)
Definition call_async (p : Async unit) (s : Loop) : Loop :=
  let '(p', w') := advance E p (world s) in
  park p' (with_world w' s).

Definition startDeviceMonitor (s : Loop) : Loop :=
  match monitorInterval s with
  | Some _ => s
  | None =>
      let s := loop_log "Starting device monitor (checking every 60 seconds)..." s in
      let s := call_async checkAllDevices s in
      let '(h, s) := setInterval checkAllDevices MONITOR_INTERVAL s in
      set_monitorInterval (Some h) s
  end.

Definition stopDeviceMonitor (s : Loop) : Loop :=
  match monitorInterval s with
  | Some h =>
      let s := clearInterval h s in
      let s := set_monitorInterval None s in
      loop_log "Device monitor stopped" s
  | None => s
  end.

(** What can happen next on the loop. *)
Inductive Event : Type :=
| CallStart              (* the host calls startDeviceMonitor() *)
| CallStop               (* the host calls stopDeviceMonitor() *)
| Tick (h : nat)         (* the interval h is due and its callback is called *)
| Reply (i : nat)        (* the query of the i-th suspended pass settles *)
| Request (q : Query).   (* a query of a request handler settles *)

Definition step (s : Loop) (ev : Event) : Loop :=
  match ev with
  | CallStart => startDeviceMonitor s
  | CallStop => stopDeviceMonitor s
  | Tick h =>
      match list_find (fun t => handle t = h) (timers s) with
      | Some (_, t) => call_async (callback t) s
      | None => s
      end
  | Reply i =>
      match inflight s !! i with
      | Some (q, k) =>
          let '(r, w') := settle E q (world s) in
          let s' := mkLoop w' (monitorInterval s) (timers s) (next_handle s)
                           (delete i (inflight s)) (unhandled s) in
          call_async (k r) s'
      | None => s
      end
  | Request q =>
      with_world (settle E q (world s)).2 s
  end.

Definition steps (s : Loop) (evs : list Event) : Loop := foldl step s evs.
End EventLoop.

(** The two states of the monitor. *)
Inductive Lifecycle : Type := Stopped | Running.

Definition lifecycle (s : Loop) : Lifecycle :=
  match monitorInterval s with
  | Some _ => Running
  | None => Stopped
  end.

(** ** shared/schema.ts, [insertDeviceSchema] *)

(** A JSON value of a request body, as far as the schema tells them apart. *)
Inductive JVal : Type :=
| JNull
| JBool (b : bool)
| JNumber (n : Z)
| JString (s : string)
| JOther.

(** [req.body]: a JSON object, or anything else. *)
Inductive ReqBody : Type :=
| BodyObject (fields : gmap string JVal)
| BodyOther.

Definition is_digit (c : ascii) : bool :=
  let n := nat_of_ascii c in (48 <=? n)%nat && (n <=? 57)%nat.

Definition is_hex (c : ascii) : bool :=
  let n := nat_of_ascii c in
  is_digit c || ((65 <=? n)%nat && (n <=? 70)%nat) || ((97 <=? n)%nat && (n <=? 102)%nat).

(** Up to [n] digits at the head of [s]: how many there are, and what follows. *)
Fixpoint skip_digits (n : nat) (s : string) : nat * string :=
  match n, s with
  | S n', String c r =>
      if is_digit c then let '(k, r') := skip_digits n' r in (S k, r') else (O, s)
  | _, _ => (O, s)
  end.

(** [\d{1,3}], [\.], [[0-9A-Fa-f]{2}] and [[:-]] at the head of a string:
    what follows the match. *)
Definition re_digits_1_3 (s : string) : option string :=
  let '(k, r) := skip_digits 3 s in if (0 <? k)%nat then Some r else None.

Definition re_dot (s : string) : option string :=
  match s with
  | String c r => if bool_decide (c = "."%char) then Some r else None
  | EmptyString => None
  end.

Definition re_hex_2 (s : string) : option string :=
  match s with
  | String a (String b r) => if is_hex a && is_hex b then Some r else None
  | _ => None
  end.

Definition re_colon_or_dash (s : string) : option string :=
  match s with
  | String c r =>
      if bool_decide (c = ":"%char) || bool_decide (c = "-"%char) then Some r else None
  | EmptyString => None
  end.

(** The patterns one after the other, anchored at both ends. *)
Definition re_matches (ps : list (string -> option string)) (s : string) : bool :=
  match foldl (fun r p => r ≫= p) (Some s) ps with
  | Some EmptyString => true
  | _ => false
  end.

(** [/^(\d{1,3}\.){3}\d{1,3}$/] *)
Definition ip_regex : string -> bool :=
  re_matches [re_digits_1_3; re_dot; re_digits_1_3; re_dot;
              re_digits_1_3; re_dot; re_digits_1_3].

(** [/^([0-9A-Fa-f]{2}[:-]){5}([0-9A-Fa-f]{2})$/] *)
Definition mac_regex : string -> bool :=
  re_matches [re_hex_2; re_colon_or_dash; re_hex_2; re_colon_or_dash;
              re_hex_2; re_colon_or_dash; re_hex_2; re_colon_or_dash;
              re_hex_2; re_colon_or_dash; re_hex_2].

(** The zod validators.  The argument is the value under a key, [None] when
    the key is missing; the result is [None] when the value is refused. *)
Definition z_string (v : option JVal) : option string :=
  match v with
  | Some (JString s) => Some s
  | _ => None
  end.

Definition z_regex (re : string -> bool) (v : option JVal) : option string :=
  s ← z_string v; if re s then Some s else None.

Definition z_optional {A : Type} (inner : option JVal -> option A) (v : option JVal)
  : option (option A) :=
  match v with
  | None => Some None
  | Some _ => Some <$> inner v
  end.

Definition z_nullable {A : Type} (inner : option JVal -> option A) (v : option JVal)
  : option (option A) :=
  match v with
  | Some JNull => Some None
  | _ => Some <$> inner v
  end.

(** [z.string().regex(mac).optional().or(z.literal(""))] *)
Definition z_macAddress (v : option JVal) : option (option string) :=
  match z_optional (z_regex mac_regex) v with
  | Some r => Some r
  | None =>
      match v with
      | Some (JString "") => Some (Some "")
      | _ => None
      end
  end.

(** [insertDeviceSchema.safeParse(req.body)]: the keys [id], [status],
    [lastSeenAt] and [lastCheckedAt] are omitted from the schema, and a zod
    object strips the keys it does not know. *)
Definition insertDeviceSchema_safeParse (body : ReqBody) : option InsertDevice :=
  match body with
  | BodyOther => None
  | BodyObject o =>
      name ← z_string (o !! "name");
      ipAddress ← z_regex ip_regex (o !! "ipAddress");
      macAddress ← z_macAddress (o !! "macAddress");
      deviceType ← z_optional z_string (o !! "deviceType");
      os ← z_optional (z_nullable z_string) (o !! "os");
      description ← z_optional (z_nullable z_string) (o !! "description");
      Some (mkInsertDevice name ipAddress macAddress deviceType os description)
  end.

(** [insertDeviceSchema.partial().safeParse(req.body)] *)
Definition partialSchema_safeParse (body : ReqBody) : option PartialInsertDevice :=
  match body with
  | BodyOther => None
  | BodyObject o =>
      name ← z_optional z_string (o !! "name");
      ipAddress ← z_optional (z_regex ip_regex) (o !! "ipAddress");
      macAddress ← z_macAddress (o !! "macAddress");
      deviceType ← z_optional z_string (o !! "deviceType");
      os ← z_optional (z_nullable z_string) (o !! "os");
      description ← z_optional (z_nullable z_string) (o !! "description");
      Some (mkPartialInsertDevice name ipAddress macAddress deviceType os description)
  end.

(** ** server/routes.ts, the device routes *)

Record Session : Type := mkSession {
  userId : option string;
  role : option string;
}.

Inductive Payload : Type :=
| ErrorJson (error : string)               (* { error } *)
| DeviceJson (device : option Device)      (* { success: true, device } *)
| SuccessJson                              (* { success: true } *)
| RowJson (device : Device)                (* device *)
| RowsJson (rows : list Device).           (* devices *)

Record Response : Type := mkResponse {
  statusCode : Z;
  json : Payload;
}.

(** [!req.session.userId]: a missing and an empty identifier are falsy. *)
Definition logged_in (session : Session) : bool :=
  match userId session with
  | Some u => negb (bool_decide (u = ""))
  | None => false
  end.

Definition requireAuth (session : Session) (next : Async Response) : Async Response :=
  if negb (logged_in session)
  then mret (mkResponse 401 (ErrorJson "Authentication required"))
  else next.

Definition requireAdmin (session : Session) (next : Async Response) : Async Response :=
  if negb (logged_in session)
  then mret (mkResponse 401 (ErrorJson "Authentication required"))
  else if negb (bool_decide (role session = Some "admin"))
  then mret (mkResponse 403 (ErrorJson "Admin access required"))
  else next.

Definition internal_error (message : string) (error : JsError) : Async Response :=
  _ ← console_error message error;
  mret (mkResponse 500 (ErrorJson "Internal server error")).

Inductive ApiRequest : Type :=
| GET_devices
| GET_device (id : string)
| POST_devices (body : ReqBody)
| PATCH_device (id : string) (body : ReqBody)
| DELETE_device (id : string).

Definition get_devices : Async Response :=
  try_catch
    (devices ← storage.getAllDevices;
     mret (mkResponse 200 (RowsJson devices)))
    (internal_error "Get devices error:").

Definition get_device (id : string) : Async Response :=
  try_catch
    (device ← storage.getDevice id;
     match device with
     | None => mret (mkResponse 404 (ErrorJson "Device not found"))
     | Some d => mret (mkResponse 200 (RowJson d))
     end)
    (internal_error "Get device error:").

Definition post_devices (body : ReqBody) : Async Response :=
  try_catch
    (match insertDeviceSchema_safeParse body with
     | None => mret (mkResponse 400 (ErrorJson "Invalid input"))
     | Some data =>
         device ← storage.createDevice data;
         mret (mkResponse 200 (DeviceJson device))
     end)
    (internal_error "Create device error:").

Definition patch_device (id : string) (body : ReqBody) : Async Response :=
  try_catch
    (match partialSchema_safeParse body with
     | None => mret (mkResponse 400 (ErrorJson "Invalid input"))
     | Some data =>
         existingDevice ← storage.getDevice id;
         match existingDevice with
         | None => mret (mkResponse 404 (ErrorJson "Device not found"))
         | Some _ =>
             device ← storage.updateDevice id data;
             mret (mkResponse 200 (DeviceJson device))
         end
     end)
    (internal_error "Update device error:").

Definition delete_device (id : string) : Async Response :=
  try_catch
    (existingDevice ← storage.getDevice id;
     match existingDevice with
     | None => mret (mkResponse 404 (ErrorJson "Device not found"))
     | Some _ =>
         deleted ← storage.deleteDevice id;
         if negb deleted
         then mret (mkResponse 500 (ErrorJson "Failed to delete device"))
         else mret (mkResponse 200 SuccessJson)
     end)
    (internal_error "Delete device error:").

(** The device API: one request, from the middleware to the response. *)
Definition device_api (session : Session) (r : ApiRequest) : Async Response :=
  match r with
  | GET_devices => requireAuth session get_devices
  | GET_device id => requireAuth session (get_device id)
  | POST_devices body => requireAdmin session (post_devices body)
  | PATCH_device id body => requireAdmin session (patch_device id body)
  | DELETE_device id => requireAdmin session (delete_device id)
  end.

(** The world after a sequence of requests, each served to its end. *)
Definition serve (E : Env) (session : Session) (w : World) (rs : list ApiRequest) : World :=
  foldl (fun w r => (run E (device_api session r) w).2) w rs.

(** ** Vocabulary of the statements *)

(** What the [n]-th spawned command reports when it is the probe of [ip]:
    [pingDevice] returns [true] exactly when the command exits with 0. *)
Definition reachable (E : Env) (n : nat) (ip : string) : bool :=
  match child_process E n (ping_command ip) ping_options with
  | Exited 0 _ => true
  | _ => false
  end.

(** The probe of a device, as it shows in the list of spawned commands. *)
Definition probe_of (d : Device) : string * ExecOptions :=
  (ping_command (devices.ipAddress d), ping_options).

(** The columns the monitor writes, and the columns it must leave alone. *)
Definition monitor_columns (d : Device) : string * option Z * option Z :=
  (devices.status d, devices.lastSeenAt d, devices.lastCheckedAt d).

Definition user_columns (d : Device)
  : string * string * string * option string * string * option string * option string :=
  (devices.id d, devices.name d, devices.ipAddress d, devices.macAddress d,
   devices.deviceType d, devices.os d, devices.description d).

(** The world once [pingDevice ip] has returned. *)
Definition probed (ip : string) (w : World) : World :=
  mkWorld (table w) (console w) (execs w ++ [(ping_command ip, ping_options)])
          (reads w) (ops w).

(** The [updateData] the loop body has written for a device whose probe
    reported [b], when [n] clock readings came before. *)
Definition write_back (E : Env) (b : bool) (n : nat) : StatusUpdate :=
  if b
  then mkStatusUpdate "online" (clock E (S n)) (Some (clock E n))
  else mkStatusUpdate "offline" (clock E n) None.

(** The clock readings once the body has run for such a device. *)
Definition reads_after (b : bool) (n : nat) : nat :=
  if b then S (S n) else S n.

(** No request of the device API changed a monitor column: every row of
    [t'] has the monitor columns of a row of [t] with its identifier, or is
    a new row, with an identifier that no row of [t] has and the monitor
    columns of a device that was never probed. *)
Definition monitor_columns_kept (t t' : Table) : Prop :=
  ∀ d', d' ∈ t' →
    (∃ d, d ∈ t ∧ devices.id d = devices.id d' ∧ monitor_columns d' = monitor_columns d)
    ∨ ((devices.id d' ∉ devices.id <$> t) ∧
       monitor_columns d' = ("unknown", None, None)).

(** The loop of a pass over the list [ds], when [op] queries were settled
    before its first write-back: the error that ends it, if any, the number
    of write-backs that are resolved before that, and the number of devices
    for which the loop body runs. *)
Fixpoint first_fault (E : Env) (op : nat) (ds : list Device) : option JsError :=
  match ds with
  | [] => None
  | _ :: rest =>
      match db_fault E op with
      | Some e => Some e
      | None => first_fault E (S op) rest
      end
  end.

Fixpoint writes (E : Env) (op : nat) (ds : list Device) : nat :=
  match ds with
  | [] => O
  | _ :: rest =>
      match db_fault E op with
      | Some _ => O
      | None => S (writes E (S op) rest)
      end
  end.

Definition iterations (E : Env) (op : nat) (ds : list Device) : nat :=
  match first_fault E op ds with
  | Some _ => S (writes E op ds)
  | None => writes E op ds
  end.

(** The world in which the loop of a pass starts, once the list has been
    fetched, and the world once the handler of the pass has logged [e]. *)
Definition fetched (w : World) : World :=
  mkWorld (table w) (console w) (execs w) (reads w) (S (ops w)).

Definition logged (e : JsError) (w : World) : World :=
  mkWorld (table w) (console w ++ [Error "Device monitor error:" e])
          (execs w) (reads w) (ops w).

(** A task that awaits no query on the monitor columns: the only such query
    is the one [updateDeviceStatus] builds. *)
Definition writes_status (q : Query) : bool :=
  match q with
  | UpdateSetStatus _ _ => true
  | _ => false
  end.

Fixpoint no_status_write {A : Type} (p : Async A) : Prop :=
  match p with
  | Return _ | Throw _ => True
  | NewDate k => ∀ t, no_status_write (k t)
  | ExecSync _ _ k => ∀ r, no_status_write (k r)
  | ConsoleLog _ k => no_status_write k
  | ConsoleError _ _ k => no_status_write k
  | Await q k => writes_status q = false ∧ ∀ r, no_status_write (k r)
  end.

(** A task that throws on no path, whatever its effects answer. *)
Fixpoint never_throws {A : Type} (p : Async A) : Prop :=
  match p with
  | Return _ => True
  | Throw _ => False
  | NewDate k => ∀ t, never_throws (k t)
  | ExecSync _ _ k => ∀ r, never_throws (k r)
  | ConsoleLog _ k => never_throws k
  | ConsoleError _ _ k => never_throws k
  | Await _ k => ∀ r, never_throws (k r)
  end.

(** The interval of the monitor is the only timer there is. *)
Definition one_interval (s : Loop) : Prop :=
  timers s =
  match monitorInterval s with
  | Some h => [mkTimer h checkAllDevices MONITOR_INTERVAL]
  | None => []
  end.

(** Nothing that is suspended or scheduled can throw, and nothing has. *)
Definition all_handled (s : Loop) : Prop :=
  unhandled s = [] ∧
  Forall (fun x : Suspended => ∀ r, never_throws (x.2 r)) (inflight s) ∧
  Forall (fun t => never_throws (callback t)) (timers s).

(** ** The scenario of the specification

    Device A at 192.168.1.10 answers the probe, device B at 192.168.1.99
    does not; B was last seen at time 7.  The clock reads 1000, 1001, ... *)
Definition lab_A : Device :=
  devices.mkDevice "a" "nas" "192.168.1.10" None "other" None None "unknown" None None.

Definition lab_B : Device :=
  devices.mkDevice "b" "printer" "192.168.1.99" None "other" None None
                   "unknown" (Some 7%Z) None.

Definition lab_ping (n : nat) (command : string) (options : ExecOptions) : ExecResult :=
  if bool_decide (command = "ping -c 1 -W 2 192.168.1.10")
  then Exited 0 "1 packets transmitted, 1 received"
  else Exited 1 "1 packets transmitted, 0 received".

Definition lab_uuid (n : nat) : string := String (ascii_of_nat (99 + n)) "".

(** The database accepts every query. *)
Definition lab_env : Env :=
  mkEnv (fun n => 1000 + Z.of_nat n)%Z lab_ping (fun _ => None) lab_uuid.

(** The database rejects the query number [j] and accepts the others. *)
Definition lab_env_rejecting (j : nat) : Env :=
  mkEnv (fun n => 1000 + Z.of_nat n)%Z lab_ping
        (fun n => if bool_decide (n = j) then Some (DbError "connection terminated") else None)
        lab_uuid.

Definition lab_world : World := mkWorld [lab_A; lab_B] [] [] O O.

(** The database rejects every query from the query number [j] on. *)
Definition lab_env_down_from (j : nat) : Env :=
  mkEnv (fun n => 1000 + Z.of_nat n)%Z lab_ping
        (fun n => if bool_decide (j ≤ n)%nat then Some (DbError "connection terminated") else None)
        lab_uuid.

(** An administrator asks to create a device and gives a status with it. *)
Definition lab_admin : Session := mkSession (Some "1") (Some "admin").

Definition lab_body : ReqBody :=
  BodyObject (<["status" := JString "online"]>
              (<["name" := JString "router"]>
               (<["ipAddress" := JString "192.168.1.1"]> ∅))).

(** ** Histories of the store

    What happens to the table over time: passes of the monitor and requests
    of the device API, in any order, each run to its end. *)
Inductive Activity : Type :=
| MonitorPass
| ApiCall (session : Session) (r : ApiRequest).

Definition perform (E : Env) (w : World) (a : Activity) : World :=
  match a with
  | MonitorPass => (run E checkAllDevices w).2
  | ApiCall session r => (run E (device_api session r) w).2
  end.

Definition history (E : Env) (w : World) (acts : list Activity) : World :=
  foldl (perform E) w acts.

(** Every [status] is one of the three values the application shows. *)
Definition status_domain (t : Table) : Prop :=
  ∀ d, d ∈ t → devices.status d ∈ ["online"; "offline"; "unknown"].

(** The wall clock does not go back. *)
Definition clock_monotone (E : Env) : Prop :=
  ∀ m n, (m ≤ n)%nat → (clock E m ≤ clock E n)%Z.

(** No row was checked after the next reading of the clock, and a row that
    was seen was checked then or later. *)
Definition timestamps_sound (E : Env) (w : World) : Prop :=
  ∀ d, d ∈ table w →
    (∀ c, devices.lastCheckedAt d = Some c → (c ≤ clock E (reads w))%Z) ∧
    (∀ s, devices.lastSeenAt d = Some s →
       ∃ c, devices.lastCheckedAt d = Some c ∧ (s ≤ c)%Z).

(** A task that neither reads the clock nor spawns a command. *)
Fixpoint no_clock_no_exec {A : Type} (p : Async A) : Prop :=
  match p with
  | Return _ | Throw _ => True
  | NewDate _ => False
  | ExecSync _ _ _ => False
  | ConsoleLog _ k => no_clock_no_exec k
  | ConsoleError _ _ k => no_clock_no_exec k
  | Await _ k => ∀ r, no_clock_no_exec (k r)
  end.

(** A task whose queries are all of one kind. *)
Fixpoint awaits_only (P : Query -> Prop) {A : Type} (p : Async A) : Prop :=
  match p with
  | Return _ | Throw _ => True
  | NewDate k => ∀ t, awaits_only P (k t)
  | ExecSync _ _ k => ∀ r, awaits_only P (k r)
  | ConsoleLog _ k => awaits_only P k
  | ConsoleError _ _ k => awaits_only P k
  | Await q k => P q ∧ ∀ r, awaits_only P (k r)
  end.

(** The queries that add no row and write no monitor column. *)
Definition no_new_row (q : Query) : Prop :=
  match q with
  | InsertInto _ | UpdateSetStatus _ _ => False
  | _ => True
  end.

(** The queries that read the table and leave it as it is. *)
Definition is_select (q : Query) : Prop :=
  match q with
  | SelectDevices | SelectDeviceById _ => True
  | _ => False
  end.

(** Two worlds that differ in what was logged only. *)
Definition same_but_console (w1 w2 : World) : Prop :=
  table w1 = table w2 ∧ execs w1 = execs w2 ∧ reads w1 = reads w2 ∧ ops w1 = ops w2.

(** Two states of the loop with the same tasks in flight, at the same point,
    over the same store. *)
Definition same_progress (s1 s2 : Loop) : Prop :=
  inflight s1 = inflight s2 ∧ same_but_console (world s1) (world s2) ∧
  unhandled s1 = unhandled s2.

(** ** Vocabulary of the schema *)

Fixpoint all_digits (s : string) : bool :=
  match s with
  | EmptyString => true
  | String c r => is_digit c && all_digits r
  end.

(** One to three digits, and four such groups with dots between them. *)
Definition digit_group (g : string) : Prop :=
  (1 ≤ String.length g ≤ 3)%nat ∧ all_digits g = true.

Definition dotted_quad (s : string) : Prop :=
  ∃ a b c d, digit_group a ∧ digit_group b ∧ digit_group c ∧ digit_group d ∧
             s = a +:+ "." +:+ b +:+ "." +:+ c +:+ "." +:+ d.

(** [varchar("ip_address", { length: 45 })] and
    [varchar("mac_address", { length: 17 })] *)
Definition ip_address_length : nat := 45.
Definition mac_address_length : nat := 17.

(** The body a client sends for an [InsertDevice]: the JSON text of the
    object, in which a key that is [undefined] is left out. *)
Definition put_key (key : string) (v : option JVal) (o : gmap string JVal)
  : gmap string JVal :=
  match v with
  | Some j => <[key := j]> o
  | None => o
  end.

Definition json_nullable (v : option string) : JVal :=
  match v with
  | Some s => JString s
  | None => JNull
  end.

Definition to_body (v : InsertDevice) : ReqBody :=
  BodyObject
    (put_key "description" (json_nullable <$> ins_description v)
    (put_key "os" (json_nullable <$> ins_os v)
    (put_key "deviceType" (JString <$> ins_deviceType v)
    (put_key "macAddress" (JString <$> ins_macAddress v)
    (<["ipAddress" := JString (ins_ipAddress v)]>
    (<["name" := JString (ins_name v)]> ∅)))))).

(** What an edit with all the keys of a creation gives. *)
Definition as_partial (v : InsertDevice) : PartialInsertDevice :=
  mkPartialInsertDevice (Some (ins_name v)) (Some (ins_ipAddress v)) (ins_macAddress v)
                        (ins_deviceType v) (ins_os v) (ins_description v).

(** The addresses of a parsed request fit the columns they go to. *)
Definition fits_columns (ip mac : option string) : Prop :=
  (∀ i, ip = Some i →
     (7 ≤ String.length i ≤ 15)%nat ∧ (String.length i ≤ ip_address_length)%nat) ∧
  (∀ m, mac = Some m →
     (String.length m = 0 ∨ String.length m = 17)%nat ∧
     (String.length m ≤ mac_address_length)%nat).

(** The status that a probe of the address of a device gives it, when [up]
    tells the addresses that answer. *)
Definition status_of (up : string -> bool) (d : Device) : string :=
  if up (devices.ipAddress d) then "online" else "offline".

(** ** Sessions and users: [users] of shared/schema.ts, the methods on users
    of server/storage.ts, and the routes of sessions and users of
    server/routes.ts

    These routes are run one request at a time, so their code is embedded
    as functions on the state of the server that return a value or throw:
    a state and exception monad.  Strings are taken as sequences of
    characters, one code unit each. *)
Module accounts.

Record User : Type := mkUser {
  id : string;
  username : string;
  password : string;
  role : string;
}.

(** [InsertUser]: the output type of [insertUserSchema]. *)
Record InsertUser : Type := mkInsertUser {
  new_username : string;
  new_password : string;
}.

(** [req.session] *)
Record SessionData : Type := mkSessionData {
  userId : option string;
  username_of : option string;
  role_of : option string;
}.

Definition no_session : SessionData := mkSessionData None None None.

(** The state of the server: the table [users], the session of the client,
    the console, and how many queries were settled and hashes computed. *)
Record Server : Type := mkServer {
  table : list User;
  session : SessionData;
  console : list LogLine;
  queries : nat;
  hashes : nat;
}.

(** What the routes take from outside: bcrypt, whose [hash] draws a salt at
    every call, and the store of the sessions, whose [destroy] can fail. *)
Record Host : Type := mkHost {
  bcrypt_hash : nat -> string -> Z -> string;
  bcrypt_compare : string -> string -> bool;
  destroy_fails : bool;
}.

Inductive UserQuery : Type :=
| SelectUsers
    (* db.select().from(users) *)
| SelectUserById (i : string)
    (* db.select().from(users).where(eq(users.id, id)) *)
| SelectUserByUsername (n : string)
    (* db.select().from(users).where(eq(users.username, username)) *)
| InsertUserRow (v : InsertUser) (r : option string)
    (* db.insert(users).values(insertUser).returning(), and with a role *)
| UpdatePassword (i : string) (hashedPassword : string)
    (* db.update(users).set({ password }).where(eq(users.id, id)).returning() *)
| DeleteUserRow (i : string).
    (* db.delete(users).where(eq(users.id, id)).returning() *)

Definition has_id (i : string) (u : User) : bool := bool_decide (id u = i).
Definition has_username (n : string) (u : User) : bool := bool_decide (username u = n).

Definition set_password (p : string) (u : User) : User :=
  mkUser (id u) (username u) p (role u).

(** One query on [users]: [id] is the primary key and [username] is unique,
    so an insert of a key or of a name that is present is rejected; [role]
    is "user" when the insert gives none. *)
Definition users_exec (uuid : string) (q : UserQuery) (t : list User)
  : Outcome (list User) * list User :=
  match q with
  | SelectUsers => (Resolved t, t)
  | SelectUserById i => (Resolved (filter (fun u => has_id i u = true) t), t)
  | SelectUserByUsername n => (Resolved (filter (fun u => has_username n u = true) t), t)
  | InsertUserRow v r =>
      let row := mkUser uuid (new_username v) (new_password v) (default "user" r) in
      if bool_decide (uuid ∈ id <$> t) || bool_decide (new_username v ∈ username <$> t)
      then (Rejected (DbError "duplicate key value violates unique constraint"), t)
      else (Resolved [row], t ++ [row])
  | UpdatePassword i p =>
      let t' := (fun u => if has_id i u then set_password p u else u) <$> t in
      (Resolved (filter (fun u => has_id i u = true) t'), t')
  | DeleteUserRow i =>
      (Resolved (filter (fun u => has_id i u = true) t),
       filter (fun u => has_id i u = false) t)
  end.

(** A handler: from a state of the server, what it returns or throws, and
    the state it leaves. *)
Definition Handler (A : Type) : Type := Server -> Outcome A * Server.

Definition ret {A : Type} (a : A) : Handler A := fun s => (Resolved a, s).

Definition bind {A B : Type} (f : A -> Handler B) (h : Handler A) : Handler B :=
  fun s =>
    match h s with
    | (Resolved a, s') => f a s'
    | (Rejected e, s') => (Rejected e, s')
    end.

#[global] Instance Handler_mret : MRet Handler := @ret.
#[global] Instance Handler_mbind : MBind Handler := @bind.

(** [try { h } catch (error) { on_error error }] *)
Definition try_catch {A : Type} (h : Handler A) (on_error : JsError -> Handler A)
  : Handler A :=
  fun s =>
    match h s with
    | (Resolved a, s') => (Resolved a, s')
    | (Rejected e, s') => on_error e s'
    end.

Definition get_session : Handler SessionData := fun s => (Resolved (session s), s).

Definition set_session (d : SessionData) : Handler unit :=
  fun s => (Resolved tt, mkServer (table s) d (console s) (queries s) (hashes s)).

Definition console_log (message : string) : Handler unit :=
  fun s => (Resolved tt,
            mkServer (table s) (session s) (console s ++ [Log message])
                     (queries s) (hashes s)).

Definition console_error (message : string) (e : JsError) : Handler unit :=
  fun s => (Resolved tt,
            mkServer (table s) (session s) (console s ++ [Error message e])
                     (queries s) (hashes s)).

Definition SALT_ROUNDS : Z := 10.

Section Handlers.
Context (E : Env) (H : Host).

(** [await q]: the query is rejected when the environment says so, and is
    executed on the table otherwise; a rejected query is thrown. *)
Definition await (q : UserQuery) : Handler (list User) :=
  fun s =>
    match db_fault E (queries s) with
    | Some e =>
        (Rejected e,
         mkServer (table s) (session s) (console s) (S (queries s)) (hashes s))
    | None =>
        let '(r, t) := users_exec (gen_random_uuid E (queries s)) q (table s) in
        (r, mkServer t (session s) (console s) (S (queries s)) (hashes s))
    end.

(** [await bcrypt.hash(data, rounds)] and [await bcrypt.compare(data, hash)] *)
Definition hash (data : string) (rounds : Z) : Handler string :=
  fun s =>
    (Resolved (bcrypt_hash H (hashes s) data rounds),
     mkServer (table s) (session s) (console s) (queries s) (S (hashes s))).

Definition compare (data encrypted : string) : Handler bool :=
  ret (bcrypt_compare H data encrypted).

(** *** server/storage.ts *)

Definition getUser (id : string) : Handler (option User) :=
  rows ← await (SelectUserById id);
  mret (head rows).

Definition getUserByUsername (username : string) : Handler (option User) :=
  rows ← await (SelectUserByUsername username);
  mret (head rows).

Definition getAllUsers : Handler (list User) :=
  await SelectUsers.

Definition createUser (insertUser : InsertUser) : Handler (option User) :=
  rows ← await (InsertUserRow insertUser None);
  mret (head rows).

Definition createUserWithRole (insertUser : InsertUser) (role : string)
  : Handler (option User) :=
  rows ← await (InsertUserRow insertUser (Some role));
  mret (head rows).

Definition updateUserPassword (id hashedPassword : string) : Handler (option User) :=
  rows ← await (UpdatePassword id hashedPassword);
  mret (head rows).

Definition deleteUser (id : string) : Handler bool :=
  result ← await (DeleteUserRow id);
  mret (bool_decide (0 < length result)%nat).

(** *** server/routes.ts *)

Inductive Answer : Type :=
| Failure (error : string)                        (* { error } *)
| Success                                         (* { success: true } *)
| LoggedIn (id username role : string)            (* { success: true, user } *)
| Authenticated (user : option (string * option string * option string))
                                                  (* { authenticated, user } *)
| SafeUsers (users : list (string * string * string))
                                                  (* users without passwords *)
| UserDone (user : option (string * string)).     (* { success: true, user } *)

Record Response : Type := mkResponse {
  statusCode : Z;
  json : Answer;
}.

(** [insertUserSchema]: [username] and [password], two strings. *)
Definition insertUserSchema_safeParse (body : ReqBody) : option InsertUser :=
  match body with
  | BodyOther => None
  | BodyObject o =>
      username ← z_string (o !! "username");
      password ← z_string (o !! "password");
      Some (mkInsertUser username password)
  end.

(** [z.string().min(n)] *)
Definition z_min (n : nat) (v : option JVal) : option string :=
  s ← z_string v; if (n <=? String.length s)%nat then Some s else None.

Definition createUserSchema_safeParse (body : ReqBody) : option InsertUser :=
  match body with
  | BodyOther => None
  | BodyObject o =>
      username ← z_min 3 (o !! "username");
      password ← z_min 6 (o !! "password");
      Some (mkInsertUser username password)
  end.

Definition updatePasswordSchema_safeParse (body : ReqBody) : option string :=
  match body with
  | BodyOther => None
  | BodyObject o => z_min 6 (o !! "password")
  end.

(** [!req.session.userId]: a missing and an empty identifier are falsy. *)
Definition logged_in (d : SessionData) : bool :=
  match userId d with
  | Some u => negb (bool_decide (u = ""))
  | None => false
  end.

Definition requireAdmin (next : Handler Response) : Handler Response :=
  d ← get_session;
  if negb (logged_in d)
  then mret (mkResponse 401 (Failure "Authentication required"))
  else if negb (bool_decide (role_of d = Some "admin"))
  then mret (mkResponse 403 (Failure "Admin access required"))
  else next.

Definition internal_error (message : string) (error : JsError) : Handler Response :=
  _ ← console_error message error;
  mret (mkResponse 500 (Failure "Internal server error")).

(** The start of [registerRoutes]: the default administrator. *)
Definition create_default_admin : Handler unit :=
  existingUsers ← getAllUsers;
  if bool_decide (length existingUsers = 0%nat)
  then
    hashedPassword ← hash "admin123" SALT_ROUNDS;
    _ ← createUserWithRole (mkInsertUser "admin" hashedPassword) "admin";
    console_log "Default admin user created. IMPORTANT: Change password in production!"
  else mret tt.

Definition login (body : ReqBody) : Handler Response :=
  try_catch
    (match insertUserSchema_safeParse body with
     | None => mret (mkResponse 400 (Failure "Invalid input"))
     | Some data =>
         user ← getUserByUsername (new_username data);
         match user with
         | None => mret (mkResponse 401 (Failure "Invalid credentials"))
         | Some user =>
             isValidPassword ← compare (new_password data) (password user);
             if negb isValidPassword
             then mret (mkResponse 401 (Failure "Invalid credentials"))
             else
               _ ← set_session (mkSessionData (Some (id user)) (Some (username user))
                                              (Some (role user)));
               mret (mkResponse 200 (LoggedIn (id user) (username user) (role user)))
         end
     end)
    (internal_error "Login error:").

Definition logout : Handler Response :=
  if destroy_fails H
  then mret (mkResponse 500 (Failure "Failed to logout"))
  else
    _ ← set_session no_session;
    mret (mkResponse 200 Success).

Definition auth_status : Handler Response :=
  d ← get_session;
  match userId d with
  | Some u =>
      if bool_decide (u = "")
      then mret (mkResponse 200 (Authenticated None))
      else mret (mkResponse 200 (Authenticated (Some (u, username_of d, role_of d))))
  | None => mret (mkResponse 200 (Authenticated None))
  end.

Definition get_users : Handler Response :=
  try_catch
    (users ← getAllUsers;
     let safeUsers := (fun u => (id u, username u, role u)) <$> users in
     mret (mkResponse 200 (SafeUsers safeUsers)))
    (internal_error "Get users error:").

Definition post_users (body : ReqBody) : Handler Response :=
  try_catch
    (match createUserSchema_safeParse body with
     | None => mret (mkResponse 400 (Failure "Invalid input"))
     | Some data =>
         existingUser ← getUserByUsername (new_username data);
         match existingUser with
         | Some _ => mret (mkResponse 400 (Failure "Username already exists"))
         | None =>
             hashedPassword ← hash (new_password data) SALT_ROUNDS;
             user ← createUser (mkInsertUser (new_username data) hashedPassword);
             (* an insert that is accepted returns its row: [user] is there *)
             mret (mkResponse 200 (UserDone ((fun u => (id u, username u)) <$> user)))
         end
     end)
    (internal_error "Create user error:").

Definition patch_password (i : string) (body : ReqBody) : Handler Response :=
  try_catch
    (match updatePasswordSchema_safeParse body with
     | None => mret (mkResponse 400 (Failure "Invalid input"))
     | Some password =>
         existingUser ← getUser i;
         match existingUser with
         | None => mret (mkResponse 404 (Failure "User not found"))
         | Some _ =>
             hashedPassword ← hash password SALT_ROUNDS;
             user ← updateUserPassword i hashedPassword;
             match user with
             | None => mret (mkResponse 500 (Failure "Failed to update password"))
             | Some u => mret (mkResponse 200 (UserDone (Some (id u, username u))))
             end
         end
     end)
    (internal_error "Update password error:").

Definition delete_user (i : string) : Handler Response :=
  try_catch
    (d ← get_session;
     if bool_decide (Some i = userId d)
     then mret (mkResponse 400 (Failure "Cannot delete your own account"))
     else
       existingUser ← getUser i;
       match existingUser with
       | None => mret (mkResponse 404 (Failure "User not found"))
       | Some _ =>
           deleted ← deleteUser i;
           if negb deleted
           then mret (mkResponse 500 (Failure "Failed to delete user"))
           else mret (mkResponse 200 Success)
       end)
    (internal_error "Delete user error:").

Inductive Request : Type :=
| POST_login (body : ReqBody)
| POST_logout
| GET_status
| GET_users
| POST_users (body : ReqBody)
| PATCH_password (id : string) (body : ReqBody)
| DELETE_user (id : string).

(** One request, from the middleware to the response. *)
Definition api (r : Request) : Handler Response :=
  match r with
  | POST_login body => login body
  | POST_logout => logout
  | GET_status => auth_status
  | GET_users => requireAdmin get_users
  | POST_users body => requireAdmin (post_users body)
  | PATCH_password i body => requireAdmin (patch_password i body)
  | DELETE_user i => requireAdmin (delete_user i)
  end.

(** The server after a sequence of requests of one client. *)
Definition serve (s : Server) (rs : list Request) : Server :=
  foldl (fun s r => (api r s).2) s rs.
End Handlers.
End accounts.

(** ** Vocabulary of the statements on users *)

(** Every row of [t'] has the identifier, the name and the role of a row of
    [t], or the role "user". *)
Definition roles_kept (t t' : list accounts.User) : Prop :=
  ∀ u', u' ∈ t' →
    (∃ u, u ∈ t ∧ accounts.id u = accounts.id u' ∧
          accounts.username u = accounts.username u' ∧
          accounts.role u = accounts.role u')
    ∨ accounts.role u' = "user".

(** The user of the session, if there is one, is a row of the table. *)
Definition session_user_exists (s : accounts.Server) : Prop :=
  ∀ u, accounts.userId (accounts.session s) = Some u →
       u ∈ accounts.id <$> accounts.table s.

(** The session of a user that has logged in. *)
Definition session_of (u : accounts.User) : accounts.SessionData :=
  accounts.mkSessionData (Some (accounts.id u)) (Some (accounts.username u))
                         (Some (accounts.role u)).

(** The body of a request that gives a name and a password. *)
Definition credentials (username password : string) : ReqBody :=
  BodyObject (<["password" := JString password]> (<["username" := JString username]> ∅)).

(** bcrypt recognises what it has hashed. *)
Definition bcrypt_sound (H : accounts.Host) : Prop :=
  ∀ n data rounds,
    accounts.bcrypt_compare H data (accounts.bcrypt_hash H n data rounds) = true.

(** The state once one more query has settled. *)
Definition queried (s : accounts.Server) : accounts.Server :=
  accounts.mkServer (accounts.table s) (accounts.session s) (accounts.console s)
                    (S (accounts.queries s)) (accounts.hashes s).

(** An office with one administrator and one user, and a bcrypt that puts
    the salt and the data side by side. *)
Definition office_host : accounts.Host :=
  accounts.mkHost
    (fun n data rounds => "$2b$" +:+ String (ascii_of_nat (97 + n)) "" +:+ "$" +:+ data)
    (fun data encrypted =>
       match encrypted with
       | String _ (String _ (String _ (String _ (String _ (String _ rest))))) =>
           bool_decide (rest = data)
       | _ => false
       end)
    false.

Definition office_admin : accounts.User :=
  accounts.mkUser "1" "admin" "$2b$a$admin123" "admin".

Definition office_user : accounts.User :=
  accounts.mkUser "2" "visitor" "$2b$b$letmein" "user".

Definition office (d : accounts.SessionData) : accounts.Server :=
  accounts.mkServer [office_admin; office_user] d [] 0 0.

(** A session whose user is an administrator. *)
Definition is_admin (s : accounts.Server) : Prop :=
  accounts.logged_in (accounts.session s) = true ∧
  accounts.role_of (accounts.session s) = Some "admin".

(** The body of a request that gives a password only. *)
Definition password_only (password : string) : ReqBody :=
  BodyObject (<["password" := JString password]> ∅).


(** The address of device A does not answer the first probe that is sent
    and answers the later ones. *)
Definition lab_env_late : Env :=
  mkEnv (fun n => 1000 + Z.of_nat n)%Z
        (fun n command options =>
           if bool_decide (n = 0%nat)
           then Exited 1 "1 packets transmitted, 0 received"
           else lab_ping n command options)
        (fun _ => None) lab_uuid.

(** * Properties *)

Local Open Scope nat_scope.

(** ** [run] and the combinators *)
Section RunLemmas.
Context (E : Env).

Lemma run_bind {A B : Type} (p : Async A) (f : A -> Async B) (w : World) :
  run E (p ≫= f) w =
  match run E p w with
  | (Resolved a, w') => run E (f a) w'
  | (Rejected e, w') => (Rejected e, w')
  end.
Proof.
  unfold mbind, Async_mbind.
  revert w; induction p as [a|e|k IH|c o k IH|m k IH|m e k IH|q k IH]; intros w; simpl; auto.
  destruct (settle E q w) as [r w']. apply IH.
Qed.

Lemma run_try_catch {A : Type} (p : Async A) (h : JsError -> Async A) (w : World) :
  run E (try_catch p h) w =
  match run E p w with
  | (Resolved a, w') => (Resolved a, w')
  | (Rejected e, w') => run E (h e) w'
  end.
Proof.
  revert w; induction p as [a|e|k IH|c o k IH|m k IH|m e k IH|q k IH]; intros w; simpl; auto.
  destruct (settle E q w) as [r w']. apply IH.
Qed.

Lemma run_await (q : Query) (w : World) :
  run E (await q) w =
  match settle E q w with
  | (Resolved rows, w') => (Resolved rows, w')
  | (Rejected e, w') => (Rejected e, w')
  end.
Proof.
  unfold await; simpl. destruct (settle E q w) as [[rows|e] w']; reflexivity.
Qed.

Lemma run_pingDevice (ip : string) (w : World) :
  run E (pingDevice ip) w = (Resolved (reachable E (length (execs w)) ip), probed ip w).
Proof.
  unfold pingDevice, reachable, probed, execSync, mbind, Async_mbind, mret, Async_mret.
  simpl.
  destruct (child_process E (length (execs w)) (ping_command ip) ping_options)
    as [[|c|c] out| |]; reflexivity.
Qed.
End RunLemmas.

(** ** The queries on the table *)

Lemma id_is_true (i : string) (d : Device) : id_is i d = true ↔ devices.id d = i.
Proof. unfold id_is. rewrite bool_decide_eq_true. reflexivity. Qed.

Lemma update_where_length (i : string) (f : Device -> Device) (t : Table) :
  length (update_where i f t) = length t.
Proof. unfold update_where. apply length_fmap. Qed.

Lemma update_where_lookup (i : string) (f : Device -> Device) (t : Table) (k : nat) :
  update_where i f t !! k = (fun d => if id_is i d then f d else d) <$> (t !! k).
Proof. unfold update_where. apply list_lookup_fmap. Qed.

Lemma update_where_absent (i : string) (f : Device -> Device) (t : Table) :
  i ∉ devices.id <$> t → update_where i f t = t.
Proof.
  intros Hi. unfold update_where. rewrite <- (list_fmap_id t) at 2.
  apply list_fmap_ext. intros k d Hk. simpl.
  destruct (id_is i d) eqn:Hid; [|reflexivity].
  apply id_is_true in Hid. exfalso. apply Hi.
  apply list_elem_of_fmap. exists d. split; [congruence|].
  eapply list_elem_of_lookup_2; eassumption.
Qed.

Lemma update_where_ids (i : string) (f : Device -> Device) (t : Table) :
  (∀ d, devices.id (f d) = devices.id d) →
  devices.id <$> update_where i f t = devices.id <$> t.
Proof.
  intros Hf. unfold update_where. rewrite <- list_fmap_compose.
  apply list_fmap_ext. intros k d _. simpl. destruct (id_is i d); auto.
Qed.

Lemma filter_update_where (i : string) (f : Device -> Device) (t : Table) :
  (∀ d, devices.id (f d) = devices.id d) →
  filter (fun d => id_is i d = true) (update_where i f t)
  = f <$> filter (fun d => id_is i d = true) t.
Proof.
  intros Hf. unfold update_where. induction t as [|d t IH]; [reflexivity|].
  rewrite fmap_cons, !filter_cons, IH.
  assert (id_is i (f d) = id_is i d) as Hfd.
  { unfold id_is. rewrite Hf. reflexivity. }
  destruct (id_is i d) eqn:Hid; repeat case_decide; try congruence; reflexivity.
Qed.

Lemma filter_id_absent (i : string) (t : Table) :
  i ∉ devices.id <$> t → filter (fun d => id_is i d = true) t = [].
Proof.
  induction t as [|d t IH]; [reflexivity|]. rewrite fmap_cons, not_elem_of_cons.
  intros [Hd Ht]. rewrite filter_cons, decide_False.
  - apply IH, Ht.
  - rewrite id_is_true. congruence.
Qed.

Section StoreLemmas.
Context (E : Env).

Lemma run_updateDeviceStatus (i status : string) (lastSeenAt : option Z) (w : World) :
  run E (storage.updateDeviceStatus i status lastSeenAt) w =
  let u := mkStatusUpdate status (clock E (reads w)) lastSeenAt in
  match db_fault E (ops w) with
  | Some e =>
      (Rejected e, mkWorld (table w) (console w) (execs w) (S (reads w)) (S (ops w)))
  | None =>
      let t' := update_where i (set_status_columns u) (table w) in
      (Resolved (head (filter (fun d => id_is i d = true) t')),
       mkWorld t' (console w) (execs w) (S (reads w)) (S (ops w)))
  end.
Proof.
  unfold storage.updateDeviceStatus, new_Date, await, mbind, Async_mbind, mret, Async_mret.
  simpl. unfold settle; simpl.
  destruct (db_fault E (ops w)); destruct lastSeenAt; reflexivity.
Qed.

Lemma run_new_Date (w : World) :
  run E new_Date w =
  (Resolved (clock E (reads w)),
   mkWorld (table w) (console w) (execs w) (S (reads w)) (ops w)).
Proof. reflexivity. Qed.

Lemma run_mret {A : Type} (a : A) (w : World) : run E (mret a) w = (Resolved a, w).
Proof. reflexivity. Qed.

Lemma run_check_device (d : Device) (w : World) :
  run E (check_device d) w =
  let b := reachable E (length (execs w)) (devices.ipAddress d) in
  let u := write_back E b (reads w) in
  match db_fault E (ops w) with
  | Some e =>
      (Rejected e,
       mkWorld (table w) (console w) (execs w ++ [probe_of d])
               (reads_after b (reads w)) (S (ops w)))
  | None =>
      (Resolved tt,
       mkWorld (update_where (devices.id d) (set_status_columns u) (table w))
               (console w) (execs w ++ [probe_of d])
               (reads_after b (reads w)) (S (ops w)))
  end.
Proof.
  unfold check_device. rewrite run_bind, run_pingDevice.
  destruct (reachable E (length (execs w)) (devices.ipAddress d)); cbv zeta.
  - repeat (first [rewrite run_bind | rewrite run_new_Date | rewrite run_mret
                  | rewrite run_updateDeviceStatus]; cbv beta iota zeta).
    cbn. destruct (db_fault E (ops w)); reflexivity.
  - repeat (first [rewrite run_bind | rewrite run_mret
                  | rewrite run_updateDeviceStatus]; cbv beta iota zeta).
    cbn. destruct (db_fault E (ops w)); reflexivity.
Qed.
End StoreLemmas.

(** ** The loop of a pass *)
Section PassLemmas.
Context (E : Env).

Lemma run_for_of_cons (d : Device) (rest : list Device) (w : World) :
  run E (for_of (d :: rest) check_device) w =
  match run E (check_device d) w with
  | (Resolved _, w1) => run E (for_of rest check_device) w1
  | (Rejected e, w1) => (Rejected e, w1)
  end.
Proof. simpl. rewrite run_bind. reflexivity. Qed.

Lemma iterations_cons (op : nat) (d : Device) (rest : list Device) :
  iterations E op (d :: rest) =
  match db_fault E op with
  | Some _ => 1
  | None => S (iterations E (S op) rest)
  end.
Proof.
  unfold iterations. simpl. destruct (db_fault E op); [reflexivity|].
  destruct (first_fault E (S op) rest); reflexivity.
Qed.

Lemma writes_all (op : nat) (ds : list Device) :
  (∀ i, i < length ds → db_fault E (op + i) = None) →
  writes E op ds = length ds ∧ first_fault E op ds = None.
Proof.
  revert op; induction ds as [|d ds IH]; intros op Hok; simpl; [auto|].
  pose proof (Hok 0 ltac:(simpl; lia)) as H0. rewrite Nat.add_0_r in H0. rewrite H0.
  destruct (IH (S op)) as [-> ->]; [|auto].
  intros i Hi. replace (S op + i) with (op + S i) by lia. apply Hok. simpl. lia.
Qed.

Lemma writes_until (op j : nat) (e : JsError) (ds : list Device) :
  j < length ds →
  (∀ i, i < j → db_fault E (op + i) = None) →
  db_fault E (op + j) = Some e →
  writes E op ds = j ∧ first_fault E op ds = Some e.
Proof.
  revert op j; induction ds as [|d ds IH]; intros op j Hj Hok He; simpl in *; [lia|].
  destruct j as [|j].
  - rewrite Nat.add_0_r in He. rewrite He. auto.
  - pose proof (Hok 0 ltac:(lia)) as H0. rewrite Nat.add_0_r in H0. rewrite H0.
    destruct (IH (S op) j) as [-> ->]; [lia| |  |auto].
    + intros i Hi. replace (S op + i) with (op + S i) by lia. apply Hok. lia.
    + replace (S op + j) with (op + S j) by lia. assumption.
Qed.

Lemma reads_after_ge (b : bool) (n : nat) : n < reads_after b n.
Proof. destruct b; simpl; lia. Qed.

(** What the loop does to the world apart from the rows. *)
Lemma for_of_world (ds : list Device) (w : World) :
  let r := run E (for_of ds check_device) w in
  r.1 = match first_fault E (ops w) ds with
        | Some e => Rejected e
        | None => Resolved tt
        end ∧
  execs r.2 = execs w ++ (probe_of <$> take (iterations E (ops w) ds) ds) ∧
  ops r.2 = ops w + iterations E (ops w) ds ∧
  console r.2 = console w ∧
  reads w ≤ reads r.2 ∧
  devices.id <$> table r.2 = devices.id <$> table w.
Proof.
  revert w; induction ds as [|d ds IH]; intros w.
  - simpl. rewrite app_nil_r. unfold iterations; simpl. repeat split; auto; lia.
  - cbv zeta. rewrite run_for_of_cons, run_check_device, iterations_cons. cbv zeta.
    simpl first_fault.
    destruct (db_fault E (ops w)) as [e|].
    + simpl. repeat split; auto; [lia|].
      unfold reads_after. destruct (reachable E _ _); lia.
    + match goal with |- context [run E _ ?w1] =>
        destruct (IH w1) as (Hr & Hx & Ho & Hc & Hrd & Hid)
      end.
      cbn [table console execs reads ops] in Hr, Hx, Ho, Hc, Hrd, Hid.
      pose proof (reads_after_ge (reachable E (length (execs w)) (devices.ipAddress d))
                                 (reads w)) as Hge.
      rewrite Hr, Hx, Ho, Hc, Hid, <- app_assoc.
      repeat split; auto; try lia.
      apply update_where_ids. intros; reflexivity.
Qed.
Lemma update_where_middle (i : string) (f : Device -> Device) (pre rest : Table) (d : Device) :
  devices.id d = i →
  NoDup (devices.id <$> (pre ++ d :: rest)) →
  update_where i f (pre ++ d :: rest) = pre ++ f d :: rest.
Proof.
  intros Hd Hnd. rewrite fmap_app, fmap_cons, Hd in Hnd.
  apply NoDup_app in Hnd as (_ & Hpre & Hrest).
  apply NoDup_cons in Hrest as [Hrest _].
  assert (i ∉ devices.id <$> pre) as Hpre'.
  { intros Hin. apply (Hpre i Hin). left. }
  unfold update_where. rewrite fmap_app, fmap_cons.
  fold (update_where i f pre). fold (update_where i f rest).
  rewrite !update_where_absent by assumption.
  assert (id_is i d = true) as -> by (apply id_is_true; assumption).
  reflexivity.
Qed.

(** What the loop does to the rows, when the list is the rest of the table
    and the identifiers are all different: the rows before the list are not
    touched, the rows of the devices whose write-back is resolved are written
    with the outcome of their probe, and the others are left as they are. *)
Lemma for_of_rows (ds pre : Table) (w : World) :
  table w = pre ++ ds →
  NoDup (devices.id <$> (pre ++ ds)) →
  let w' := (run E (for_of ds check_device) w).2 in
  (∀ k, k < length pre → table w' !! k = table w !! k) ∧
  (∀ k d0, ds !! k = Some d0 →
     if decide (k < writes E (ops w) ds)
     then ∃ n, reads w ≤ n ∧
            reads_after (reachable E (length (execs w) + k) (devices.ipAddress d0)) n
              ≤ reads w' ∧
            table w' !! (length pre + k) =
              Some (set_status_columns
                      (write_back E (reachable E (length (execs w) + k)
                                               (devices.ipAddress d0)) n) d0)
     else table w' !! (length pre + k) = Some d0).
Proof.
  revert pre w; induction ds as [|d ds IH]; intros pre w Ht Hnd; cbv zeta.
  - simpl. split; [auto|]. intros k d0 Hk. rewrite lookup_nil in Hk. discriminate.
  - rewrite run_for_of_cons, run_check_device. cbv zeta. simpl writes.
    destruct (db_fault E (ops w)) as [e|].
    + cbn [snd table]. split; [auto|]. intros k d0 Hk.
      rewrite decide_False by lia. rewrite Ht, lookup_app_r by lia.
      replace (length pre + k - length pre) with k by lia. exact Hk.
    + set (b := reachable E (length (execs w)) (devices.ipAddress d)).
      set (u := write_back E b (reads w)).
      assert (update_where (devices.id d) (set_status_columns u) (table w)
              = (pre ++ [set_status_columns u d]) ++ ds) as Hup.
      { rewrite Ht, update_where_middle, <- app_assoc by auto. reflexivity. }
      match goal with |- context [run E _ ?x] => set (w1 := x) end.
      destruct (IH (pre ++ [set_status_columns u d]) w1) as [Hframe Hrows].
      { exact Hup. }
      { rewrite <- app_assoc. simpl. rewrite fmap_app, fmap_cons in *. exact Hnd. }
      destruct (for_of_world ds w1) as (_ & _ & _ & _ & Hrd & _).
      cbv zeta in Hframe, Hrows.
      assert (length (pre ++ [set_status_columns u d]) = S (length pre)) as Hlen.
      { rewrite length_app. simpl. lia. }
      split.
      * intros k Hk. rewrite Hframe by lia.
        subst w1. cbn [table]. rewrite Hup, Ht, <- app_assoc.
        rewrite !lookup_app_l by lia. reflexivity.
      * intros [|k] d0 Hk; simpl in Hk.
        -- injection Hk as <-. rewrite decide_True by lia.
           exists (reads w). split; [lia|]. rewrite !Nat.add_0_r. split; [exact Hrd|].
           rewrite Hframe by lia. subst w1. cbn [table]. rewrite Hup.
           rewrite lookup_app_l by lia. apply list_lookup_middle. reflexivity.
        -- specialize (Hrows k d0 Hk). rewrite Hlen in Hrows.
           replace (length pre + S k) with (S (length pre) + k) by lia.
           subst w1. cbn [ops execs reads] in Hrows. rewrite length_app in Hrows.
           simpl length in Hrows.
           replace (length (execs w) + 1 + k) with (length (execs w) + S k) in Hrows by lia.
           pose proof (reads_after_ge b (reads w)) as Hge.
           destruct (decide (k < writes E (S (ops w)) ds)) as [Hlt|Hge'].
           ++ rewrite decide_True by lia.
              destruct Hrows as (n & Hn & Hn' & Hrow). exists n.
              split; [lia|]. split; assumption.
           ++ rewrite decide_False by lia. exact Hrows.
Qed.
End PassLemmas.

(** ** [updateDeviceStatus] *)

Lemma filter_id_elem (i : string) (t : Table) (d : Device) :
  head (filter (fun d => id_is i d = true) t) = Some d → d ∈ t ∧ devices.id d = i.
Proof.
  intros Hd. apply head_Some in Hd as [l Hl].
  assert (d ∈ filter (fun d => id_is i d = true) t) as Hin by (rewrite Hl; left).
  apply list_elem_of_filter in Hin as [Hid Hin]. split; [assumption|].
  apply id_is_true. assumption.
Qed.

Lemma filter_id_nil (i : string) (t : Table) :
  head (filter (fun d => id_is i d = true) t) = None → i ∉ devices.id <$> t.
Proof.
  intros Hd Hin. apply list_elem_of_fmap in Hin as (d & -> & Hin).
  apply head_None in Hd.
  assert (d ∈ filter (fun d' => id_is (devices.id d) d' = true) t) as Hf.
  { apply list_elem_of_filter. split; [apply id_is_true; reflexivity|assumption]. }
  rewrite Hd in Hf. apply elem_of_nil in Hf. exact Hf.
Qed.

(** C8.  When the database accepts the query, [updateDeviceStatus] leaves
    every row in its place with its user columns (id, name, ipAddress,
    macAddress, deviceType, os, description); in a row with the given
    identifier it sets [status] to the argument and [lastCheckedAt] to the
    time it read, and sets [lastSeenAt] only when the argument is given; it
    leaves the other rows as they are.  It returns an updated row with the
    identifier, or [undefined] when no row has it. *)
Theorem updateDeviceStatus_partial_update
    (E : Env) (w : World) (i status : string) (lastSeenAt : option Z) :
  db_fault E (ops w) = None →
  let r := run E (storage.updateDeviceStatus i status lastSeenAt) w in
  let now := clock E (reads w) in
  (∀ k d, table w !! k = Some d →
     ∃ d', table r.2 !! k = Some d' ∧
       user_columns d' = user_columns d ∧
       if id_is i d
       then devices.status d' = status ∧
            devices.lastCheckedAt d' = Some now ∧
            devices.lastSeenAt d' =
              match lastSeenAt with
              | Some t => Some t
              | None => devices.lastSeenAt d
              end
       else d' = d) ∧
  length (table r.2) = length (table w) ∧
  match r.1 with
  | Resolved (Some d') =>
      d' ∈ table r.2 ∧ devices.id d' = i ∧
      devices.status d' = status ∧ devices.lastCheckedAt d' = Some now
  | Resolved None => i ∉ devices.id <$> table w
  | Rejected _ => False
  end.
Proof.
  intros Hok. cbv zeta. rewrite run_updateDeviceStatus, Hok. cbn [fst snd table].
  set (u := mkStatusUpdate status (clock E (reads w)) lastSeenAt).
  split; [|split].
  - intros k d Hk. rewrite update_where_lookup, Hk. simpl.
    destruct (id_is i d); eexists; (split; [reflexivity|]); split; auto.
  - apply update_where_length.
  - rewrite filter_update_where by (intros; reflexivity).
    destruct (head (filter (fun d => id_is i d = true) (table w))) as [d|] eqn:Hd.
    + apply head_Some in Hd as Hd'. destruct Hd' as [l Hl]. rewrite Hl. simpl.
      apply filter_id_elem in Hd as [Hin Hid].
      repeat split; auto.
      unfold update_where. apply list_elem_of_fmap. exists d.
      split; [|assumption].
      assert (id_is i d = true) as -> by (apply id_is_true; assumption). reflexivity.
    + apply head_None in Hd as Hd'. rewrite Hd'. simpl.
      apply filter_id_nil. assumption.
Qed.

Lemma updateDeviceStatus_partial_update_witness :
  db_fault lab_env (ops lab_world) = None ∧
  match (run lab_env (storage.updateDeviceStatus "b" "offline" None) lab_world).1 with
  | Resolved (Some d') =>
      d' ∈ table (run lab_env (storage.updateDeviceStatus "b" "offline" None) lab_world).2 ∧
      devices.id d' = "b" ∧
      devices.status d' = "offline" ∧ devices.lastCheckedAt d' = Some 1000%Z
  | Resolved None => "b" ∉ devices.id <$> table lab_world
  | Rejected _ => False
  end.
Proof.
  split; [reflexivity|].
  apply (updateDeviceStatus_partial_update lab_env lab_world "b" "offline" None eq_refl).
Defined.

(** C10.  [updateDeviceStatus] does not validate [status]: whatever string
    it is given is written as it is in every row with the identifier.  The
    monitor is what keeps the written values to "online" and "offline". *)
Theorem updateDeviceStatus_writes_any_status
    (E : Env) (w : World) (i s : string) (lastSeenAt : option Z) (k : nat) (d : Device) :
  db_fault E (ops w) = None →
  table w !! k = Some d →
  devices.id d = i →
  (∃ d', table (run E (storage.updateDeviceStatus i s lastSeenAt) w).2 !! k = Some d' ∧
         devices.status d' = s) ∧
  (∀ b n, set_status (write_back E b n) = "online" ∨
          set_status (write_back E b n) = "offline").
Proof.
  intros Hok Hk Hid. split.
  - rewrite run_updateDeviceStatus, Hok. cbn [snd table].
    rewrite update_where_lookup, Hk. simpl.
    assert (id_is i d = true) as -> by (apply id_is_true; assumption).
    eexists; split; reflexivity.
  - intros [] n; [left|right]; reflexivity.
Qed.

Lemma updateDeviceStatus_writes_any_status_witness :
  (db_fault lab_env (ops lab_world) = None ∧
   table lab_world !! 1 = Some lab_B ∧
   devices.id lab_B = "b") ∧
  ∃ d', table (run lab_env (storage.updateDeviceStatus "b" "rebooting" None)
                   lab_world).2 !! 1 = Some d' ∧
        devices.status d' = "rebooting".
Proof.
  split; [repeat split|].
  apply (updateDeviceStatus_writes_any_status lab_env lab_world "b" "rebooting" None
           1 lab_B eq_refl eq_refl eq_refl).
Defined.

(** C6.  A write-back to an identifier that no row has is a miss and not an
    error: when the database accepts the query, [updateDeviceStatus] returns
    [undefined], the table is as it was, and the loop of the pass goes on to
    the remaining devices, nothing thrown and nothing logged. *)
Theorem write_back_to_deleted_device_is_a_miss
    (E : Env) (w : World) (d : Device) (rest : list Device)
    (status : string) (lastSeenAt : option Z) :
  devices.id d ∉ devices.id <$> table w →
  db_fault E (ops w) = None →
  (let r := run E (storage.updateDeviceStatus (devices.id d) status lastSeenAt) w in
   r.1 = Resolved None ∧ table r.2 = table w) ∧
  ∃ w1, table w1 = table w ∧ console w1 = console w ∧
        run E (for_of (d :: rest) check_device) w = run E (for_of rest check_device) w1.
Proof.
  intros Hmiss Hok. split.
  - cbv zeta. rewrite run_updateDeviceStatus, Hok. cbn [fst snd table].
    rewrite update_where_absent by assumption.
    rewrite filter_id_absent by assumption. split; reflexivity.
  - rewrite run_for_of_cons, run_check_device, Hok. cbv zeta.
    rewrite update_where_absent by assumption.
    eexists; split; [|split; [|reflexivity]]; reflexivity.
Qed.

Lemma write_back_to_deleted_device_is_a_miss_witness :
  ((devices.id lab_A ∉ devices.id <$> [lab_B]) ∧
   db_fault lab_env 1 = None) ∧
  ∃ w1, table w1 = [lab_B] ∧ console w1 = [] ∧
        run lab_env (for_of [lab_A; lab_B] check_device) (mkWorld [lab_B] [] [] 0 1)
        = run lab_env (for_of [lab_B] check_device) w1.
Proof.
  assert (devices.id lab_A ∉ devices.id <$> [lab_B]) as Hmiss.
  { intros Hin. apply list_elem_of_singleton in Hin. discriminate Hin. }
  split; [split; [exact Hmiss|reflexivity]|].
  apply (write_back_to_deleted_device_is_a_miss lab_env (mkWorld [lab_B] [] [] 0 1)
           lab_A [lab_B] "online" None Hmiss eq_refl).
Defined.

(** ** A pass *)
Section Pass.
Context (E : Env).

Lemma run_checkAllDevices (w : World) :
  run E checkAllDevices w =
  match db_fault E (ops w) with
  | Some e => (Resolved tt, logged e (fetched w))
  | None =>
      match run E (for_of (table w) check_device) (fetched w) with
      | (Resolved _, w') => (Resolved tt, w')
      | (Rejected e, w') => (Resolved tt, logged e w')
      end
  end.
Proof.
  unfold checkAllDevices, storage.getAllDevices.
  rewrite run_try_catch, run_bind, run_await. unfold settle. simpl db_exec.
  destruct (db_fault E (ops w)) as [e|]; [reflexivity|].
  fold (fetched w).
  destruct (run E (for_of (table w) check_device) (fetched w)) as [[[]|e] w'];
    reflexivity.
Qed.

(** The handler of the pass only adds a line to the console. *)
Lemma checkAllDevices_loop (w : World) :
  db_fault E (ops w) = None →
  let w' := (run E checkAllDevices w).2 in
  let l := (run E (for_of (table w) check_device) (fetched w)).2 in
  table w' = table l ∧ execs w' = execs l ∧ reads w' = reads l ∧ ops w' = ops l.
Proof.
  intros Hok. cbv zeta. rewrite run_checkAllDevices, Hok.
  destruct (run E (for_of (table w) check_device) (fetched w)) as [[[]|e] w'];
    repeat split; reflexivity.
Qed.

Lemma writes_gt (op k : nat) (ds : list Device) :
  k < length ds →
  (∀ i, i ≤ k → db_fault E (op + i) = None) →
  k < writes E op ds.
Proof.
  revert op k; induction ds as [|d ds IH]; intros op k Hk Hok; simpl in *; [lia|].
  pose proof (Hok 0 ltac:(lia)) as H0. rewrite Nat.add_0_r in H0. rewrite H0.
  destruct k as [|k]; [lia|].
  apply ->Nat.succ_lt_mono. apply IH; [lia|].
  intros i Hi. replace (S op + i) with (op + S i) by lia. apply Hok. lia.
Qed.

Lemma writes_le_iterations (op : nat) (ds : list Device) :
  writes E op ds ≤ iterations E op ds.
Proof. unfold iterations. destruct (first_fault E op ds); lia. Qed.
End Pass.

(** C1.  In a pass over a table whose identifiers are all different, a
    device whose write-back, and those before it, the database accepts is
    probed once, and afterwards its row holds: its user columns as before;
    [lastCheckedAt], a reading of the clock made during the pass; when the
    probe reported reachable, [status] "online" and [lastSeenAt] the reading
    just before that one; when it reported unreachable, [status] "offline"
    and [lastSeenAt] what it was before the pass. *)
Theorem pass_writes_back_probe_outcome (E : Env) (w : World) (k : nat) (d0 : Device) :
  NoDup (devices.id <$> table w) →
  (∀ i, i ≤ S k → db_fault E (ops w + i) = None) →
  table w !! k = Some d0 →
  let w' := (run E checkAllDevices w).2 in
  let b := reachable E (length (execs w) + k) (devices.ipAddress d0) in
  execs w' !! (length (execs w) + k) = Some (probe_of d0) ∧
  ∃ d1 n, table w' !! k = Some d1 ∧
    reads w ≤ n < reads w' ∧
    user_columns d1 = user_columns d0 ∧
    devices.lastCheckedAt d1 = Some (clock E n) ∧
    if b
    then devices.status d1 = "online" ∧ reads w < n ∧
         devices.lastSeenAt d1 = Some (clock E (n - 1))
    else devices.status d1 = "offline" ∧
         devices.lastSeenAt d1 = devices.lastSeenAt d0.
Proof.
  intros Hnd Hok Hk. cbv zeta.
  pose proof (Hok 0 ltac:(lia)) as H0. rewrite Nat.add_0_r in H0.
  destruct (checkAllDevices_loop E w H0) as (Ht & Hx & Hr & _).
  rewrite Ht, Hx, Hr. clear Ht Hx Hr.
  assert (k < length (table w)) as Hlen by (eapply lookup_lt_Some; eassumption).
  assert (k < writes E (S (ops w)) (table w)) as Hw.
  { apply writes_gt; [assumption|]. intros i Hi.
    replace (S (ops w) + i) with (ops w + S i) by lia. apply Hok. lia. }
  split.
  - destruct (for_of_world E (table w) (fetched w)) as (_ & -> & _).
    cbn [execs ops fetched].
    rewrite lookup_app_r by lia.
    replace (length (execs w) + k - length (execs w)) with k by lia.
    rewrite list_lookup_fmap, lookup_take_lt, Hk; [reflexivity|].
    pose proof (writes_le_iterations E (S (ops w)) (table w)). lia.
  - destruct (for_of_rows E (table w) [] (fetched w) eq_refl Hnd) as [_ Hrows].
    specialize (Hrows k d0 Hk). cbn [ops execs reads fetched] in Hrows.
    rewrite decide_True in Hrows by assumption.
    destruct Hrows as (n & Hn & Hn' & Hrow). simpl in Hrow.
    unfold reads_after in Hn'. unfold write_back in Hrow.
    destruct (reachable E (length (execs w) + k) (devices.ipAddress d0)).
    + exists (set_status_columns
                (mkStatusUpdate "online" (clock E (S n)) (Some (clock E n))) d0), (S n).
      split; [exact Hrow|]. split; [lia|]. split; [reflexivity|].
      split; [reflexivity|]. split; [reflexivity|]. split; [lia|].
      simpl. rewrite Nat.sub_0_r. reflexivity.
    + exists (set_status_columns (mkStatusUpdate "offline" (clock E n) None) d0), n.
      split; [exact Hrow|]. split; [lia|]. repeat split; reflexivity.
Qed.

Lemma lab_ids_NoDup : NoDup (devices.id <$> table lab_world).
Proof.
  apply NoDup_cons. split; [|apply NoDup_singleton].
  intros Hin. apply list_elem_of_singleton in Hin. discriminate Hin.
Defined.

Lemma pass_writes_back_probe_outcome_witness :
  (NoDup (devices.id <$> table lab_world) ∧
   (∀ i, i ≤ 2 → db_fault lab_env (ops lab_world + i) = None) ∧
   table lab_world !! 1 = Some lab_B) ∧
  (execs (run lab_env checkAllDevices lab_world).2 !! (length (execs lab_world) + 1)
     = Some (probe_of lab_B) ∧
   ∃ d1 n, table (run lab_env checkAllDevices lab_world).2 !! 1 = Some d1 ∧
     reads lab_world ≤ n < reads (run lab_env checkAllDevices lab_world).2 ∧
     user_columns d1 = user_columns lab_B ∧
     devices.lastCheckedAt d1 = Some (clock lab_env n) ∧
     if reachable lab_env (length (execs lab_world) + 1) (devices.ipAddress lab_B)
     then devices.status d1 = "online" ∧ reads lab_world < n ∧
          devices.lastSeenAt d1 = Some (clock lab_env (n - 1))
     else devices.status d1 = "offline" ∧
          devices.lastSeenAt d1 = devices.lastSeenAt lab_B).
Proof.
  split; [split; [exact lab_ids_NoDup|split; [intros; reflexivity|reflexivity]]|].
  apply (pass_writes_back_probe_outcome lab_env lab_world 1 lab_B lab_ids_NoDup
           (fun _ _ => eq_refl) eq_refl).
Defined.

Lemma never_throws_try_catch {A : Type} (p : Async A) (h : JsError -> Async A) :
  (∀ e, never_throws (h e)) → never_throws (try_catch p h).
Proof.
  intros Hh. induction p as [a|e|k IH|c o k IH|m k IH|m e k IH|q k IH]; simpl; auto.
Qed.




(** C2, as the specification states it, fails: the [try] of [checkAllDevices]
    is around the whole loop.  In the scenario, when the database rejects
    the write-back of device A, the pass ends there: one error is logged,
    only A has been probed, and device B is neither probed nor written. *)
Lemma write_failure_is_not_isolated :
  db_fault (lab_env_rejecting 1) 1 = Some (DbError "connection terminated") ∧
  table lab_world = [lab_A; lab_B] ∧
  (run (lab_env_rejecting 1) checkAllDevices lab_world).1 = Resolved tt ∧
  execs (run (lab_env_rejecting 1) checkAllDevices lab_world).2 = [probe_of lab_A] ∧
  table (run (lab_env_rejecting 1) checkAllDevices lab_world).2 = [lab_A; lab_B] ∧
  console (run (lab_env_rejecting 1) checkAllDevices lab_world).2
    = [Error "Device monitor error:" (DbError "connection terminated")].
Proof. repeat split; reflexivity. Qed.

(** C2, amended.  The pass never throws.  When the list is fetched and the
    write-back of the device at position [j] is the first that the database
    rejects, the error is caught by the handler of the pass and logged, and
    the pass ends: the devices up to position [j] have been probed, those
    before [j] are written back as online or offline by the outcome of their
    probe, and the rows from position [j] on are as they were before the
    pass, their devices after [j] not probed. *)
Theorem write_failure_ends_pass (E : Env) (w : World) (j : nat) (e : JsError) :
  NoDup (devices.id <$> table w) →
  db_fault E (ops w) = None →
  j < length (table w) →
  (∀ i, i < j → db_fault E (S (ops w) + i) = None) →
  db_fault E (S (ops w) + j) = Some e →
  let r := run E checkAllDevices w in
  r.1 = Resolved tt ∧
  console r.2 = console w ++ [Error "Device monitor error:" e] ∧
  execs r.2 = execs w ++ (probe_of <$> take (S j) (table w)) ∧
  (∀ k, j ≤ k → table r.2 !! k = table w !! k) ∧
  (∀ k d0, k < j → table w !! k = Some d0 →
     ∃ d1, table r.2 !! k = Some d1 ∧
       user_columns d1 = user_columns d0 ∧
       devices.status d1 =
         if reachable E (length (execs w) + k) (devices.ipAddress d0)
         then "online" else "offline").
Proof.
  intros Hnd H0 Hj Hok He. cbv zeta.
  destruct (writes_until E (S (ops w)) j e (table w) Hj Hok He) as [Hw Hf].
  destruct (for_of_world E (table w) (fetched w)) as (Hr & Hx & _ & Hc & _ & Hid).
  destruct (for_of_rows E (table w) [] (fetched w) eq_refl Hnd) as [_ Hrows].
  cbn [ops execs console table fetched] in Hr, Hx, Hc, Hid, Hrows.
  unfold iterations in Hx. rewrite Hf in Hr. rewrite Hf, Hw in Hx. rewrite Hw in Hrows.
  rewrite run_checkAllDevices, H0.
  destruct (run E (for_of (table w) check_device) (fetched w)) as [[[]|e'] w'];
    [discriminate Hr|].
  cbn [fst snd] in *. injection Hr as ->.
  cbn [logged table console execs].
  split; [reflexivity|]. split; [rewrite Hc; reflexivity|]. split; [exact Hx|].
  split.
  - intros k Hk. destruct (table w !! k) as [d0|] eqn:Hd.
    + specialize (Hrows k d0 Hd). rewrite decide_False in Hrows by lia. exact Hrows.
    + apply lookup_ge_None. apply lookup_ge_None in Hd.
      apply (f_equal length) in Hid. rewrite !length_fmap in Hid. lia.
  - intros k d0 Hk Hd. specialize (Hrows k d0 Hd).
    rewrite decide_True in Hrows by lia.
    destruct Hrows as (n & _ & _ & Hrow). simpl in Hrow.
    eexists. split; [exact Hrow|]. split; [reflexivity|].
    unfold write_back. destruct (reachable E _ _); reflexivity.
Qed.

Lemma write_failure_ends_pass_witness :
  (NoDup (devices.id <$> table lab_world) ∧
   db_fault (lab_env_rejecting 2) (ops lab_world) = None ∧
   1 < length (table lab_world) ∧
   (∀ i, i < 1 → db_fault (lab_env_rejecting 2) (S (ops lab_world) + i) = None) ∧
   db_fault (lab_env_rejecting 2) (S (ops lab_world) + 1)
     = Some (DbError "connection terminated")) ∧
  (run (lab_env_rejecting 2) checkAllDevices lab_world).1 = Resolved tt ∧
  console (run (lab_env_rejecting 2) checkAllDevices lab_world).2
    = console lab_world ++ [Error "Device monitor error:" (DbError "connection terminated")].
Proof.
  assert (∀ i, i < 1 → db_fault (lab_env_rejecting 2) (S (ops lab_world) + i) = None)
    as Hok.
  { intros i Hi. assert (i = 0) as -> by lia. reflexivity. }
  split.
  - split; [exact lab_ids_NoDup|]. split; [reflexivity|]. split; [simpl; lia|].
    split; [exact Hok|reflexivity].
  - destruct (write_failure_ends_pass (lab_env_rejecting 2) lab_world 1
                (DbError "connection terminated") lab_ids_NoDup eq_refl
                ltac:(simpl; lia) Hok eq_refl) as (H1 & H2 & _).
    split; [exact H1|exact H2].
Defined.

(** ** The event loop *)
Section LoopLemmas.
Context (E : Env).

Lemma advance_never_throws {A : Type} (p : Async A) (w : World) :
  never_throws p → never_throws (advance E p w).1.
Proof.
  revert w; induction p as [a|e|k IH|c o k IH|m k IH|m e k IH|q k IH];
    intros w Hp; simpl in *; auto.
Qed.

Lemma never_throws_checkAllDevices : never_throws checkAllDevices.
Proof. apply never_throws_try_catch. intros e. exact I. Qed.

(** [checkAllDevices] called and not awaited: it is suspended at once, at
    the query that fetches the list. *)
Lemma call_async_checkAllDevices (s : Loop) :
  ∃ k, Await SelectDevices k = checkAllDevices ∧
       call_async E checkAllDevices s =
       mkLoop (world s) (monitorInterval s) (timers s) (next_handle s)
              (inflight s ++ [(SelectDevices, k)]) (unhandled s).
Proof. eexists. split; reflexivity. Qed.

(** A task alone on the loop, each of its queries settled as its next
    event, leaves the world that [run] computes. *)
Lemma alone_on_the_loop (p : Async unit) (s : Loop) :
  inflight s = [] →
  ∃ n, world (steps E (call_async E p s) (replicate n (Reply 0)))
       = (run E p (world s)).2 ∧
       inflight (steps E (call_async E p s) (replicate n (Reply 0))) = [].
Proof.
  revert s; induction p as [a|e|k IH|c o k IH|m k IH|m e k IH|q k IH]; intros s Hs.
  - exists 0. split; [reflexivity|exact Hs].
  - exists 0. split; [reflexivity|exact Hs].
  - destruct (IH (clock E (reads (world s)))
                 (with_world (mkWorld (table (world s)) (console (world s))
                                      (execs (world s)) (S (reads (world s)))
                                      (ops (world s))) s) Hs) as (n & Hw & Hi).
    exists n. split; [exact Hw|exact Hi].
  - destruct (IH (child_process E (length (execs (world s))) c o)
                 (with_world (mkWorld (table (world s)) (console (world s))
                                      (execs (world s) ++ [(c, o)]) (reads (world s))
                                      (ops (world s))) s) Hs) as (n & Hw & Hi).
    exists n. split; [exact Hw|exact Hi].
  - destruct (IH (with_world (mkWorld (table (world s)) (console (world s) ++ [Log m])
                                      (execs (world s)) (reads (world s))
                                      (ops (world s))) s) Hs) as (n & Hw & Hi).
    exists n. split; [exact Hw|exact Hi].
  - destruct (IH (with_world (mkWorld (table (world s)) (console (world s) ++ [Error m e])
                                      (execs (world s)) (reads (world s))
                                      (ops (world s))) s) Hs) as (n & Hw & Hi).
    exists n. split; [exact Hw|exact Hi].
  - destruct (settle E q (world s)) as [r w'] eqn:Hq.
    destruct (IH r (mkLoop w' (monitorInterval s) (timers s) (next_handle s) []
                           (unhandled s)) eq_refl) as (n & Hw & Hi).
    exists (S n).
    assert (step E (call_async E (Await q k) s) (Reply 0)
            = call_async E (k r) (mkLoop w' (monitorInterval s) (timers s)
                                         (next_handle s) [] (unhandled s))) as Hstep.
    { unfold call_async at 1. cbn [advance park with_world step inflight world
        monitorInterval timers next_handle unhandled].
      rewrite Hs. cbn [app lookup list_lookup]. rewrite Hq. reflexivity. }
    cbn [replicate]. unfold steps in *. cbn [foldl]. rewrite Hstep.
    split; [|exact Hi]. rewrite Hw. cbn [world run]. rewrite Hq. reflexivity.
Qed.

Lemma call_async_frame (p : Async unit) (s : Loop) :
  monitorInterval (call_async E p s) = monitorInterval s ∧
  timers (call_async E p s) = timers s ∧
  next_handle (call_async E p s) = next_handle s.
Proof.
  unfold call_async. destruct (advance E p (world s)) as [p' w'].
  destruct p'; repeat split; reflexivity.
Qed.

Lemma startDeviceMonitor_stopped (s : Loop) :
  monitorInterval s = None →
  ∃ k, Await SelectDevices k = checkAllDevices ∧
       startDeviceMonitor E s =
       mkLoop (world (loop_log "Starting device monitor (checking every 60 seconds)..." s))
              (Some (next_handle s))
              (timers s ++ [mkTimer (next_handle s) checkAllDevices MONITOR_INTERVAL])
              (S (next_handle s))
              (inflight s ++ [(SelectDevices, k)])
              (unhandled s).
Proof.
  intros Hm. unfold startDeviceMonitor. rewrite Hm. eexists. split; reflexivity.
Qed.

Lemma step_one_interval (s : Loop) (ev : Event) :
  one_interval s → one_interval (step E s ev).
Proof.
  unfold one_interval. intros Hs. destruct ev as [| |h|i|q]; cbn [step].
  - destruct (monitorInterval s) as [h|] eqn:Hm.
    + unfold startDeviceMonitor. rewrite Hm, Hm. exact Hs.
    + destruct (startDeviceMonitor_stopped s Hm) as (k & _ & ->).
      cbn [timers monitorInterval]. rewrite Hs. reflexivity.
  - unfold stopDeviceMonitor. destruct (monitorInterval s) as [h|] eqn:Hm.
    + cbn. rewrite Hs. rewrite filter_cons, decide_False by (simpl; tauto). reflexivity.
    + rewrite Hm. exact Hs.
  - destruct (list_find _ (timers s)) as [[n t]|]; [|exact Hs].
    destruct (call_async_frame (callback t) s) as (-> & -> & _). exact Hs.
  - destruct (inflight s !! i) as [[q k]|]; [|exact Hs].
    destruct (settle E q (world s)) as [r w'].
    match goal with |- context [call_async E ?p ?s'] =>
      destruct (call_async_frame p s') as (-> & -> & _) end.
    exact Hs.
  - exact Hs.
Qed.

Lemma steps_one_interval (w : World) (evs : list Event) :
  one_interval (steps E (boot w) evs).
Proof.
  unfold steps. induction evs as [|ev evs IH] using rev_ind; [reflexivity|].
  rewrite foldl_app. simpl. apply step_one_interval. exact IH.
Qed.

Lemma call_async_all_handled (p : Async unit) (s : Loop) :
  never_throws p → all_handled s → all_handled (call_async E p s).
Proof.
  intros Hp (Hu & Hi & Ht). unfold call_async.
  pose proof (advance_never_throws p (world s) Hp) as Hp'.
  destruct (advance E p (world s)) as [p' w']. simpl in Hp'.
  destruct p'; simpl in *; try (repeat split; assumption); [contradiction|].
  repeat split; try assumption.
  apply Forall_app. split; [assumption|]. apply Forall_singleton. exact Hp'.
Qed.

Lemma step_all_handled (s : Loop) (ev : Event) :
  all_handled s → all_handled (step E s ev).
Proof.
  intros Hs. destruct ev as [| |h|i|q]; cbn [step].
  - destruct (monitorInterval s) as [h|] eqn:Hm.
    + unfold startDeviceMonitor. rewrite Hm. exact Hs.
    + destruct (startDeviceMonitor_stopped s Hm) as (k & Hk & ->).
      destruct Hs as (Hu & Hi & Ht).
      pose proof never_throws_checkAllDevices as Hc.
      repeat split; cbn [unhandled inflight timers]; try assumption.
      * apply Forall_app. split; [assumption|]. apply Forall_singleton.
        rewrite <- Hk in Hc. exact Hc.
      * apply Forall_app. split; [assumption|]. apply Forall_singleton. exact Hc.
  - unfold stopDeviceMonitor. destruct (monitorInterval s); [|exact Hs].
    destruct Hs as (Hu & Hi & Ht). repeat split; cbn; try assumption.
    apply Forall_forall. intros t Hin. apply list_elem_of_filter in Hin as [_ Hin].
    rewrite Forall_forall in Ht. apply Ht. assumption.
  - destruct (list_find _ (timers s)) as [[n t]|] eqn:Hf; [|exact Hs].
    apply call_async_all_handled; [|exact Hs].
    apply list_find_Some in Hf as (Hn & _ & _).
    destruct Hs as (_ & _ & Ht). rewrite Forall_lookup in Ht. exact (Ht n t Hn).
  - destruct (inflight s !! i) as [[q k]|] eqn:Hi; [|exact Hs].
    destruct (settle E q (world s)) as [r w'].
    destruct Hs as (Hu & Hin & Ht).
    apply call_async_all_handled.
    + rewrite Forall_lookup in Hin. exact (Hin i (q, k) Hi r).
    + repeat split; cbn; try assumption. apply Forall_delete. assumption.
  - exact Hs.
Qed.

Lemma steps_all_handled (w : World) (evs : list Event) :
  all_handled (steps E (boot w) evs).
Proof.
  unfold steps. induction evs as [|ev evs IH] using rev_ind.
  - repeat split; constructor.
  - rewrite foldl_app. simpl. apply step_all_handled. exact IH.
Qed.
End LoopLemmas.

(** C3, as the specification states it, fails: [setInterval] calls
    [checkAllDevices] at every tick and nothing records that a pass is in
    flight.  In the scenario the first pass has fetched the list, probed
    device A and is suspended at A's write-back when the interval fires: the
    tick starts a second pass, and two passes are in flight. *)
Lemma passes_overlap :
  fst <$> inflight (steps lab_env (boot lab_world) [CallStart; Reply 0; Tick 0])
  = [UpdateSetStatus "a" (mkStatusUpdate "online" 1001%Z (Some 1000%Z)); SelectDevices].
Proof. reflexivity. Qed.

(** A tick of the interval of the monitor calls [checkAllDevices]. *)
Lemma tick_of_interval (E : Env) (s : Loop) (h : nat) :
  one_interval s →
  monitorInterval s = Some h →
  ∃ k, Await SelectDevices k = checkAllDevices ∧
       step E s (Tick h) =
       mkLoop (world s) (monitorInterval s) (timers s) (next_handle s)
              (inflight s ++ [(SelectDevices, k)]) (unhandled s).
Proof.
  intros Hone Hm. unfold one_interval in Hone. rewrite Hm in Hone.
  assert (list_find (fun t => handle t = h) (timers s)
          = Some (0, mkTimer h checkAllDevices MONITOR_INTERVAL)) as Hfind.
  { rewrite Hone. cbn [list_find handle]. rewrite decide_True by reflexivity.
    reflexivity. }
  cbn [step]. rewrite Hfind. cbn [callback].
  apply call_async_checkAllDevices.
Qed.

(** C3, amended.  The monitor has no re-entrancy guard: in every state the
    started monitor can reach, a tick of its interval starts one new pass,
    suspended at the query that fetches the list, next to the passes that
    are in flight, which it leaves as they are. *)
Theorem tick_starts_a_pass (E : Env) (w : World) (evs : list Event) (h : nat) :
  monitorInterval (steps E (boot w) evs) = Some h →
  ∃ k, Await SelectDevices k = checkAllDevices ∧
       step E (steps E (boot w) evs) (Tick h) =
       mkLoop (world (steps E (boot w) evs))
              (monitorInterval (steps E (boot w) evs))
              (timers (steps E (boot w) evs))
              (next_handle (steps E (boot w) evs))
              (inflight (steps E (boot w) evs) ++ [(SelectDevices, k)])
              (unhandled (steps E (boot w) evs)).
Proof.
  intros Hm. apply tick_of_interval; [apply steps_one_interval|exact Hm].
Qed.

Lemma tick_starts_a_pass_witness :
  monitorInterval (steps lab_env (boot lab_world) [CallStart; Reply 0]) = Some 0 ∧
  ∃ k, Await SelectDevices k = checkAllDevices ∧
       step lab_env (steps lab_env (boot lab_world) [CallStart; Reply 0]) (Tick 0) =
       mkLoop (world (steps lab_env (boot lab_world) [CallStart; Reply 0]))
              (monitorInterval (steps lab_env (boot lab_world) [CallStart; Reply 0]))
              (timers (steps lab_env (boot lab_world) [CallStart; Reply 0]))
              (next_handle (steps lab_env (boot lab_world) [CallStart; Reply 0]))
              (inflight (steps lab_env (boot lab_world) [CallStart; Reply 0])
                 ++ [(SelectDevices, k)])
              (unhandled (steps lab_env (boot lab_world) [CallStart; Reply 0])).
Proof.
  split; [reflexivity|].
  apply (tick_starts_a_pass lab_env lab_world [CallStart; Reply 0] 0 eq_refl).
Defined.

(** C7.  In every state the process can reach, the interval of the monitor
    is the only timer there is, and it calls [checkAllDevices] every 60000
    ms.  When the monitor is stopped, [stopDeviceMonitor] changes nothing and
    [startDeviceMonitor] makes it running: it starts a pass at once and
    registers the interval.  When the monitor is running, a tick of the
    interval starts a pass, [startDeviceMonitor] changes nothing and
    [stopDeviceMonitor] makes it stopped: it clears the interval, so that no
    tick does anything any more, and leaves the passes in flight as they
    are. *)
Theorem monitor_lifecycle (E : Env) (w : World) (evs : list Event) :
  one_interval (steps E (boot w) evs) ∧
  MONITOR_INTERVAL = 60000%Z ∧
  match lifecycle (steps E (boot w) evs) with
  | Stopped =>
      stopDeviceMonitor (steps E (boot w) evs) = steps E (boot w) evs ∧
      lifecycle (startDeviceMonitor E (steps E (boot w) evs)) = Running ∧
      timers (startDeviceMonitor E (steps E (boot w) evs))
        = [mkTimer (next_handle (steps E (boot w) evs)) checkAllDevices 60000%Z] ∧
      ∃ k, Await SelectDevices k = checkAllDevices ∧
           inflight (startDeviceMonitor E (steps E (boot w) evs))
           = inflight (steps E (boot w) evs) ++ [(SelectDevices, k)]
  | Running =>
      startDeviceMonitor E (steps E (boot w) evs) = steps E (boot w) evs ∧
      lifecycle (stopDeviceMonitor (steps E (boot w) evs)) = Stopped ∧
      timers (stopDeviceMonitor (steps E (boot w) evs)) = [] ∧
      (∀ h, step E (stopDeviceMonitor (steps E (boot w) evs)) (Tick h)
            = stopDeviceMonitor (steps E (boot w) evs)) ∧
      inflight (stopDeviceMonitor (steps E (boot w) evs))
        = inflight (steps E (boot w) evs) ∧
      ∃ h k, monitorInterval (steps E (boot w) evs) = Some h ∧
             Await SelectDevices k = checkAllDevices ∧
             inflight (step E (steps E (boot w) evs) (Tick h))
             = inflight (steps E (boot w) evs) ++ [(SelectDevices, k)]
  end.
Proof.
  pose proof (steps_one_interval E w evs) as Hone.
  set (s := steps E (boot w) evs) in *.
  split; [exact Hone|]. split; [reflexivity|].
  unfold one_interval in Hone. unfold lifecycle.
  destruct (monitorInterval s) as [h|] eqn:Hm.
  - assert (timers (stopDeviceMonitor s) = []) as Hstop.
    { unfold stopDeviceMonitor. rewrite Hm. cbn. rewrite Hone.
      rewrite filter_cons, decide_False by (simpl; tauto). reflexivity. }
    split; [unfold startDeviceMonitor; rewrite Hm; reflexivity|].
    split; [unfold stopDeviceMonitor; rewrite Hm; reflexivity|].
    split; [exact Hstop|].
    split; [intros h'; cbn [step]; rewrite Hstop; reflexivity|].
    split; [unfold stopDeviceMonitor; rewrite Hm; reflexivity|].
    destruct (tick_of_interval E s h) as (k & Hk & Htick);
      [unfold one_interval; rewrite Hm; exact Hone|exact Hm|].
    exists h, k. split; [reflexivity|]. split; [exact Hk|].
    rewrite Htick. reflexivity.
  - split; [unfold stopDeviceMonitor; rewrite Hm; reflexivity|].
    destruct (startDeviceMonitor_stopped E s Hm) as (k & Hk & ->).
    cbn [monitorInterval timers inflight]. rewrite Hone.
    split; [reflexivity|]. split; [reflexivity|].
    exists k. split; [exact Hk|reflexivity].
Qed.

Lemma for_of_first_rejected (E : Env) (ds : list Device) (w : World) :
  is_Some (db_fault E (ops w)) →
  table (run E (for_of ds check_device) w).2 = table w.
Proof.
  intros [e He]. destruct ds as [|d ds]; [reflexivity|].
  rewrite run_for_of_cons, run_check_device. cbv zeta. rewrite He. reflexivity.
Qed.

(** C4.  [checkAllDevices] throws on no path.  A pass run to its end is
    resolved, whatever the clock, the probes and the database do; on the
    event loop no rejection is ever left unhandled.  When the query that
    fetches the list is rejected, no device is probed and no row changes;
    when every later query is rejected, no row changes. *)
Theorem pass_never_raises (E : Env) (w : World) (evs : list Event) :
  never_throws checkAllDevices ∧
  (run E checkAllDevices w).1 = Resolved tt ∧
  unhandled (steps E (boot w) evs) = [] ∧
  (is_Some (db_fault E (ops w)) →
   table (run E checkAllDevices w).2 = table w ∧
   execs (run E checkAllDevices w).2 = execs w) ∧
  ((∀ n, ops w < n → is_Some (db_fault E n)) →
   table (run E checkAllDevices w).2 = table w).
Proof.
  split; [apply never_throws_checkAllDevices|].
  split; [|split; [apply steps_all_handled|split]].
  - rewrite run_checkAllDevices. destruct (db_fault E (ops w)); [reflexivity|].
    destruct (run E (for_of (table w) check_device) (fetched w)) as [[[]|e] w'];
      reflexivity.
  - intros [e He]. rewrite run_checkAllDevices, He. split; reflexivity.
  - intros Hall. rewrite run_checkAllDevices.
    destruct (db_fault E (ops w)) as [e|]; [reflexivity|].
    pose proof (for_of_first_rejected E (table w) (fetched w)
                  (Hall (S (ops w)) ltac:(lia))) as Hloop.
    destruct (run E (for_of (table w) check_device) (fetched w)) as [[[]|e] w'];
      exact Hloop.
Qed.

Lemma pass_never_raises_witness :
  (is_Some (db_fault (lab_env_down_from 0) (ops lab_world)) ∧
   (∀ n, ops lab_world < n → is_Some (db_fault (lab_env_down_from 1) n))) ∧
  (table (run (lab_env_down_from 0) checkAllDevices lab_world).2 = table lab_world ∧
   execs (run (lab_env_down_from 0) checkAllDevices lab_world).2 = execs lab_world) ∧
  table (run (lab_env_down_from 1) checkAllDevices lab_world).2 = table lab_world.
Proof.
  assert (is_Some (db_fault (lab_env_down_from 0) (ops lab_world))) as H0
    by (eexists; reflexivity).
  assert (∀ n, ops lab_world < n → is_Some (db_fault (lab_env_down_from 1) n)) as H1.
  { intros n Hn. simpl in *. rewrite bool_decide_eq_true_2 by lia. eexists; reflexivity. }
  split; [split; assumption|].
  destruct (pass_never_raises (lab_env_down_from 0) lab_world []) as (_ & _ & _ & Hf & _).
  destruct (pass_never_raises (lab_env_down_from 1) lab_world []) as (_ & _ & _ & _ & Hw).
  split; [exact (Hf H0)|exact (Hw H1)].
Defined.

(** ** The device API *)

Lemma monitor_columns_kept_refl (t : Table) : monitor_columns_kept t t.
Proof. intros d Hd. left. exists d. auto. Qed.

(** One query that writes no monitor column keeps what holds from [t0] on,
    when the identifier it gives to a new row is not one of [t0]. *)
Lemma db_exec_kept (t0 : Table) (uuid : string) (q : Query) (t : Table) :
  writes_status q = false →
  (∀ v, q = InsertInto v → uuid ∉ devices.id <$> t → uuid ∉ devices.id <$> t0) →
  monitor_columns_kept t0 t → monitor_columns_kept t0 (db_exec uuid q t).2.
Proof.
  intros Hq Hnew Ht. destruct q as [|i|v|i u|i u|i]; simpl in *; try discriminate; auto.
  - case_bool_decide as Hin; simpl; [exact Ht|].
    intros d Hd. apply elem_of_app in Hd as [Hd|Hd]; [auto|].
    apply list_elem_of_singleton in Hd as ->. right. split; [|reflexivity].
    exact (Hnew v eq_refl Hin).
  - intros d' Hd'. unfold update_where in Hd'.
    apply list_elem_of_fmap in Hd' as (d & -> & Hd).
    destruct (id_is i d); [|auto].
    destruct (Ht d Hd) as [(d0 & Hd0 & Hid & Hcols)|[Hid Hcols]].
    + left. exists d0. repeat split; assumption.
    + right. split; assumption.
  - intros d Hd. apply list_elem_of_filter in Hd as [_ Hd]. auto.
Qed.

Lemma awaits_only_bind (P : Query -> Prop) {A B : Type} (p : Async A) (f : A -> Async B) :
  awaits_only P p → (∀ a, awaits_only P (f a)) → awaits_only P (p ≫= f).
Proof.
  intros Hp Hf. unfold mbind, Async_mbind.
  induction p as [a|e|k IH|c o k IH|m k IH|m e k IH|q k IH]; simpl in *; auto.
  destruct Hp as [Hq Hk]. auto.
Qed.

Lemma awaits_only_try_catch (P : Query -> Prop) {A : Type}
    (p : Async A) (h : JsError -> Async A) :
  awaits_only P p → (∀ e, awaits_only P (h e)) → awaits_only P (try_catch p h).
Proof.
  intros Hp Hh.
  induction p as [a|e|k IH|c o k IH|m k IH|m e k IH|q k IH]; simpl in *; auto.
  destruct Hp as [Hq Hk]. auto.
Qed.

Lemma awaits_only_await (P : Query -> Prop) (q : Query) :
  P q → awaits_only P (await q).
Proof. intros Hq. split; [exact Hq|]. intros [rows|e]; exact I. Qed.

(** The routes of the device API: each is a [try] around a few queries that
    are awaited one after the other. *)
Ltac route_shape bind_lemma try_lemma await_lemma :=
  repeat first
    [ exact I
    | progress intros
    | apply try_lemma
    | apply bind_lemma
    | apply await_lemma
    | match goal with
      | |- context [match ?x with _ => _ end] => destruct x
      end ].

Lemma no_status_write_bind {A B : Type} (p : Async A) (f : A -> Async B) :
  no_status_write p → (∀ a, no_status_write (f a)) → no_status_write (p ≫= f).
Proof.
  intros Hp Hf. unfold mbind, Async_mbind.
  induction p as [a|e|k IH|c o k IH|m k IH|m e k IH|q k IH]; simpl in *; auto.
  destruct Hp as [Hq Hk]. auto.
Qed.

Lemma no_status_write_try_catch {A : Type} (p : Async A) (h : JsError -> Async A) :
  no_status_write p → (∀ e, no_status_write (h e)) → no_status_write (try_catch p h).
Proof.
  intros Hp Hh.
  induction p as [a|e|k IH|c o k IH|m k IH|m e k IH|q k IH]; simpl in *; auto.
  destruct Hp as [Hq Hk]. auto.
Qed.

Lemma no_status_write_await (q : Query) :
  writes_status q = false → no_status_write (await q).
Proof. intros Hq. split; [exact Hq|]. intros [rows|e]; exact I. Qed.

Section ApiLemmas.
Context (E : Env).

Lemma run_kept (t0 : Table) (P : Query -> Prop) {A : Type} (p : Async A) (w : World) :
  (∀ q n t, P q → monitor_columns_kept t0 t →
            monitor_columns_kept t0 (db_exec (gen_random_uuid E n) q t).2) →
  awaits_only P p →
  monitor_columns_kept t0 (table w) → monitor_columns_kept t0 (table (run E p w).2).
Proof.
  intros Hstep.
  revert w; induction p as [a|e|k IH|c o k IH|m k IH|m e k IH|q k IH];
    intros w Hp Hw; simpl in *.
  - exact Hw.
  - exact Hw.
  - match goal with |- context [run E _ ?w1] => exact (IH _ w1 (Hp _) Hw) end.
  - match goal with |- context [run E _ ?w1] => exact (IH _ w1 (Hp _) Hw) end.
  - match goal with |- context [run E _ ?w1] => exact (IH w1 Hp Hw) end.
  - match goal with |- context [run E _ ?w1] => exact (IH w1 Hp Hw) end.
  - destruct Hp as [Hq Hk].
    destruct (settle E q w) as [r w'] eqn:Hs.
    apply IH; [apply Hk|].
    unfold settle in Hs. destruct (db_fault E (ops w)).
    + injection Hs as <- <-. exact Hw.
    + pose proof (Hstep q (ops w) (table w) Hq Hw) as Hkept.
      destruct (db_exec (gen_random_uuid E (ops w)) q (table w)) as [r' t'].
      injection Hs as <- <-. exact Hkept.
Qed.

Lemma no_status_write_awaits {A : Type} (p : Async A) :
  no_status_write p → awaits_only (fun q => writes_status q = false) p.
Proof.
  induction p as [a|e|k IH|c o k IH|m k IH|m e k IH|q k IH]; simpl; auto.
  intros [Hq Hk]. auto.
Qed.

Lemma device_api_no_status_write (session : Session) (r : ApiRequest) :
  no_status_write (device_api session r).
Proof.
  destruct r; simpl; unfold requireAuth, requireAdmin,
    get_devices, get_device, post_devices, patch_device, delete_device,
    storage.getAllDevices, storage.getDevice, storage.createDevice,
    storage.updateDevice, storage.deleteDevice, internal_error;
    route_shape @no_status_write_bind @no_status_write_try_catch no_status_write_await;
    reflexivity.
Qed.

Lemma device_api_no_new_row (session : Session) (r : ApiRequest) :
  match r with
  | POST_devices _ => True
  | _ => awaits_only no_new_row (device_api session r)
  end.
Proof.
  destruct r; try exact I; simpl; unfold requireAuth, requireAdmin,
    get_devices, get_device, patch_device, delete_device,
    storage.getAllDevices, storage.getDevice, storage.updateDevice,
    storage.deleteDevice, internal_error;
    route_shape (@awaits_only_bind no_new_row) (@awaits_only_try_catch no_new_row)
                (awaits_only_await no_new_row).
Qed.

(** POST /api/devices leaves the table as it is or adds one row, whose
    identifier no row had. *)
Lemma post_devices_table (session : Session) (body : ReqBody) (w : World) :
  table (run E (device_api session (POST_devices body)) w).2 = table w ∨
  ∃ v, (gen_random_uuid E (ops w) ∉ devices.id <$> table w) ∧
       table (run E (device_api session (POST_devices body)) w).2
       = table w ++ [new_row (gen_random_uuid E (ops w)) v].
Proof.
  unfold device_api, requireAdmin.
  destruct (negb (logged_in session)); [left; reflexivity|].
  destruct (negb (bool_decide (role session = Some "admin"))); [left; reflexivity|].
  unfold post_devices.
  destruct (insertDeviceSchema_safeParse body) as [data|]; [|left; reflexivity].
  simpl. unfold settle. simpl.
  destruct (db_fault E (ops w)) as [e|]; [left; reflexivity|].
  case_bool_decide as Hin; simpl; [left; reflexivity|].
  right. exists data. split; [exact Hin|reflexivity].
Qed.

(** One request, from any table. *)
Lemma device_api_kept (session : Session) (r : ApiRequest) (w : World) :
  monitor_columns_kept (table w) (table (run E (device_api session r) w).2).
Proof.
  pose proof (device_api_no_new_row session r) as Hr.
  destruct r as [|i|body|i body|i];
    try (apply (run_kept (table w) no_new_row);
         [|exact Hr|apply monitor_columns_kept_refl];
         intros q n t Hq Ht; apply db_exec_kept;
         [destruct q; try reflexivity; contradiction
         |intros v ->; contradiction
         |exact Ht]).
  destruct (post_devices_table session body w) as [->|(v & Hnew & ->)];
    [apply monitor_columns_kept_refl|].
  intros d Hd. apply elem_of_app in Hd as [Hd|Hd].
  - left. exists d. auto.
  - apply list_elem_of_singleton in Hd as ->. right. split; [exact Hnew|reflexivity].
Qed.

(** A sequence of requests, when no identifier that is drawn is one of the
    table the sequence starts from. *)
Lemma serve_kept (session : Session) (w : World) (rs : list ApiRequest) :
  (∀ n, gen_random_uuid E n ∉ devices.id <$> table w) →
  monitor_columns_kept (table w) (table (serve E session w rs)).
Proof.
  intros Hfresh. unfold serve. induction rs as [|r rs IH] using rev_ind.
  - apply monitor_columns_kept_refl.
  - rewrite foldl_app. simpl.
    apply (run_kept (table w) (fun q => writes_status q = false));
      [|apply no_status_write_awaits, device_api_no_status_write|exact IH].
    intros q n t Hq Ht. apply db_exec_kept; [exact Hq| |exact Ht].
    intros v _ _. apply Hfresh.
Qed.
End ApiLemmas.

Lemma post_devices_created (E : Env) (session : Session) (w w' : World)
    (body : ReqBody) (resp : Response) (d : Device) :
  run E (device_api session (POST_devices body)) w = (Resolved resp, w') →
  json resp = DeviceJson (Some d) →
  d ∈ table w' ∧ monitor_columns d = ("unknown", None, None).
Proof.
  intros Hrun Hd. unfold device_api, requireAdmin in Hrun.
  destruct (negb (logged_in session));
    [injection Hrun as <- <-; discriminate Hd|].
  destruct (negb (bool_decide (role session = Some "admin")));
    [injection Hrun as <- <-; discriminate Hd|].
  unfold post_devices in Hrun.
  destruct (insertDeviceSchema_safeParse body) as [data|];
    [|injection Hrun as <- <-; discriminate Hd].
  simpl in Hrun. unfold settle in Hrun. simpl in Hrun.
  destruct (db_fault E (ops w)) as [e|];
    [simpl in Hrun; injection Hrun as <- <-; discriminate Hd|].
  case_bool_decide; simpl in Hrun; injection Hrun as <- <-; [discriminate Hd|].
  simpl in Hd. injection Hd as <-. split; [|reflexivity].
  simpl. apply elem_of_app. right. left.
Qed.

(** C9.  No request of the device API awaits the query that writes the
    monitor columns [status], [lastSeenAt] and [lastCheckedAt].  After any
    request, from any table, every row has the monitor columns that the row
    with its identifier had before the request, or is a new row: its
    identifier was not in the table, its [status] is "unknown" and it has
    no timestamp.  The same holds from the start to the end of any sequence
    of requests, when no identifier that [gen_random_uuid()] draws is one of
    the table at the start.  The schemas of the create and edit requests
    ignore the keys [id], [status], [lastSeenAt] and [lastCheckedAt] of a
    body, and a device that a request has created has [status] "unknown"
    and no timestamp. *)
Theorem api_never_sets_monitor_columns
    (E : Env) (session : Session) (w : World) (rs : list ApiRequest) :
  (∀ r, no_status_write (device_api session r)) ∧
  (∀ r w0, monitor_columns_kept (table w0) (table (run E (device_api session r) w0).2)) ∧
  ((∀ n, gen_random_uuid E n ∉ devices.id <$> table w) →
   monitor_columns_kept (table w) (table (serve E session w rs))) ∧
  (∀ (o : gmap string JVal) (key : string) (v : JVal),
     key ∈ ["id"; "status"; "lastSeenAt"; "lastCheckedAt"] →
     insertDeviceSchema_safeParse (BodyObject (<[key := v]> o))
       = insertDeviceSchema_safeParse (BodyObject o) ∧
     partialSchema_safeParse (BodyObject (<[key := v]> o))
       = partialSchema_safeParse (BodyObject o)) ∧
  (∀ body resp w1 d,
     run E (device_api session (POST_devices body)) w = (Resolved resp, w1) →
     json resp = DeviceJson (Some d) →
     d ∈ table w1 ∧ monitor_columns d = ("unknown", None, None)).
Proof.
  split; [apply device_api_no_status_write|].
  split; [intros r w0; apply device_api_kept|].
  split; [apply serve_kept|]. split.
  - intros o key v Hkey.
    assert (key ≠ "name" ∧ key ≠ "ipAddress" ∧ key ≠ "macAddress" ∧
            key ≠ "deviceType" ∧ key ≠ "os" ∧ key ≠ "description")
      as (H1 & H2 & H3 & H4 & H5 & H6).
    { repeat (apply elem_of_cons in Hkey as [->|Hkey]);
        [| | | |apply elem_of_nil in Hkey; contradiction];
        repeat split; discriminate. }
    unfold insertDeviceSchema_safeParse, partialSchema_safeParse.
    rewrite !lookup_insert_ne by assumption. split; reflexivity.
  - intros body resp w1 d. apply post_devices_created.
Qed.

Lemma api_never_sets_monitor_columns_witness :
  (∀ n, gen_random_uuid lab_env n ∉ devices.id <$>
          [devices.mkDevice "nas-1" "nas" "192.168.1.10" None "other" None None
                            "online" (Some 5%Z) (Some 6%Z)]) ∧
  monitor_columns_kept
    [devices.mkDevice "nas-1" "nas" "192.168.1.10" None "other" None None
                      "online" (Some 5%Z) (Some 6%Z)]
    (table (serve lab_env lab_admin
              (mkWorld [devices.mkDevice "nas-1" "nas" "192.168.1.10" None "other" None None
                                         "online" (Some 5%Z) (Some 6%Z)] [] [] 0 0)
              [POST_devices lab_body; DELETE_device "nas-1"; POST_devices lab_body])).
Proof.
  assert (∀ n, gen_random_uuid lab_env n ∉ devices.id <$>
            [devices.mkDevice "nas-1" "nas" "192.168.1.10" None "other" None None
                              "online" (Some 5%Z) (Some 6%Z)]) as Hfresh.
  { intros n Hin. apply list_elem_of_singleton in Hin. discriminate Hin. }
  split; [exact Hfresh|].
  destruct (api_never_sets_monitor_columns lab_env lab_admin
              (mkWorld [devices.mkDevice "nas-1" "nas" "192.168.1.10" None "other" None None
                                         "online" (Some 5%Z) (Some 6%Z)] [] [] 0 0)
              [POST_devices lab_body; DELETE_device "nas-1"; POST_devices lab_body])
    as (_ & _ & Hserve & _).
  exact (Hserve Hfresh).
Defined.

(** * Further properties *)

(** ** What a pass keeps *)

(** A property of the world that the fetch of the list, every run of the
    loop body and the handler of the pass keep is kept by the pass. *)
Lemma pass_preserves (E : Env) (I : World -> Prop) :
  (∀ w, I w → I (fetched w)) →
  (∀ w e, I w → I (logged e w)) →
  (∀ w d, I w → I (run E (check_device d) w).2) →
  ∀ w, I w → I (run E checkAllDevices w).2.
Proof.
  intros Hfetch Hlog Hbody w Hw. rewrite run_checkAllDevices.
  destruct (db_fault E (ops w)) as [e|]; [apply Hlog, Hfetch, Hw|].
  assert (∀ ds w0, I w0 → I (run E (for_of ds check_device) w0).2) as Hloop.
  { induction ds as [|d ds IH]; intros w0 Hw0; [exact Hw0|].
    rewrite run_for_of_cons. specialize (Hbody w0 d Hw0).
    destruct (run E (check_device d) w0) as [[[]|e] w1]; [apply IH|]; exact Hbody. }
  specialize (Hloop (table w) (fetched w) (Hfetch w Hw)).
  destruct (run E (for_of (table w) check_device) (fetched w)) as [[[]|e] w'];
    [exact Hloop|apply Hlog, Hloop].
Qed.

(** The table once the loop body has run for a device: as it was, or with
    the rows of the device written. *)
Lemma check_device_table (E : Env) (d : Device) (w : World) :
  table (run E (check_device d) w).2 = table w ∨
  ∃ b, table (run E (check_device d) w).2
       = update_where (devices.id d) (set_status_columns (write_back E b (reads w)))
                      (table w).
Proof.
  rewrite run_check_device. cbv zeta.
  destruct (db_fault E (ops w)); [left; reflexivity|right; eexists; reflexivity].
Qed.

Lemma check_device_reads (E : Env) (d : Device) (w : World) :
  reads w < reads (run E (check_device d) w).2.
Proof.
  rewrite run_check_device. cbv zeta.
  destruct (db_fault E (ops w)); cbn [snd reads]; apply reads_after_ge.
Qed.

Lemma pass_user_columns (E : Env) (w : World) :
  user_columns <$> table (run E checkAllDevices w).2 = user_columns <$> table w.
Proof.
  apply (pass_preserves E (fun w' => user_columns <$> table w' = user_columns <$> table w));
    auto.
  intros w0 d Hw0. rewrite <- Hw0.
  destruct (check_device_table E d w0) as [->|[b ->]]; [reflexivity|].
  unfold update_where. rewrite <- list_fmap_compose.
  apply list_fmap_ext. intros k d0 _. simpl. destruct (id_is (devices.id d) d0); reflexivity.
Qed.

(** X1.  A pass of the monitor, whatever fails in it, adds no row, removes
    none and changes none of the columns a user edits (id, name, ipAddress,
    macAddress, deviceType, os, description): taken by these columns, the
    rows after the pass are the rows before it, as many of each and whatever
    their order. *)
Theorem pass_keeps_user_columns (E : Env) (w : World) :
  user_columns <$> table (run E checkAllDevices w).2 ≡ₚ user_columns <$> table w.
Proof. rewrite pass_user_columns. reflexivity. Qed.

Lemma no_clock_no_exec_bind {A B : Type} (p : Async A) (f : A -> Async B) :
  no_clock_no_exec p → (∀ a, no_clock_no_exec (f a)) → no_clock_no_exec (p ≫= f).
Proof.
  intros Hp Hf. unfold mbind, Async_mbind.
  induction p as [a|e|k IH|c o k IH|m k IH|m e k IH|q k IH]; simpl in *; auto.
Qed.

Lemma no_clock_no_exec_try_catch {A : Type} (p : Async A) (h : JsError -> Async A) :
  no_clock_no_exec p → (∀ e, no_clock_no_exec (h e)) → no_clock_no_exec (try_catch p h).
Proof.
  intros Hp Hh.
  induction p as [a|e|k IH|c o k IH|m k IH|m e k IH|q k IH]; simpl in *; auto.
Qed.

Lemma no_clock_no_exec_await (q : Query) : no_clock_no_exec (await q).
Proof. intros [rows|e]; exact I. Qed.

Lemma run_no_clock_no_exec (E : Env) {A : Type} (p : Async A) (w : World) :
  no_clock_no_exec p →
  reads (run E p w).2 = reads w ∧ execs (run E p w).2 = execs w.
Proof.
  revert w; induction p as [a|e|k IH|c o k IH|m k IH|m e k IH|q k IH];
    intros w Hp; simpl in *; try contradiction; auto.
  - match goal with |- context [run E _ ?w1] => exact (IH w1 Hp) end.
  - match goal with |- context [run E _ ?w1] => exact (IH w1 Hp) end.
  - destruct (settle E q w) as [r w'] eqn:Hs.
    destruct (IH r w' (Hp r)) as [-> ->].
    unfold settle in Hs. destruct (db_fault E (ops w)).
    + injection Hs as <- <-. split; reflexivity.
    + destruct (db_exec (gen_random_uuid E (ops w)) q (table w)).
      injection Hs as <- <-. split; reflexivity.
Qed.

Lemma device_api_no_clock_no_exec (session : Session) (r : ApiRequest) :
  no_clock_no_exec (device_api session r).
Proof.
  destruct r; simpl; unfold requireAuth, requireAdmin,
    get_devices, get_device, post_devices, patch_device, delete_device,
    storage.getAllDevices, storage.getDevice, storage.createDevice,
    storage.updateDevice, storage.deleteDevice, internal_error;
    route_shape @no_clock_no_exec_bind @no_clock_no_exec_try_catch no_clock_no_exec_await.
Qed.

Lemma api_call_kept (E : Env) (session : Session) (r : ApiRequest) (w : World) :
  monitor_columns_kept (table w) (table (run E (device_api session r) w).2) ∧
  reads (run E (device_api session r) w).2 = reads w.
Proof.
  split; [apply device_api_kept|].
  apply run_no_clock_no_exec, device_api_no_clock_no_exec.
Qed.

Lemma write_back_status (E : Env) (b : bool) (n : nat) :
  set_status (write_back E b n) ∈ ["online"; "offline"; "unknown"].
Proof. destruct b; simpl; [left|right; left]. Qed.

(** X2.  Over any history of monitor passes and requests of the device API,
    whatever fails in them, every [status] of the table stays one of
    "online", "offline" and "unknown". *)
Theorem status_stays_in_domain (E : Env) (w : World) (acts : list Activity) :
  status_domain (table w) → status_domain (table (history E w acts)).
Proof.
  intros Hw. unfold history. induction acts as [|a acts IH] using rev_ind; [exact Hw|].
  rewrite foldl_app. simpl. set (w0 := foldl (perform E) w acts) in *.
  destruct a as [|session r]; simpl.
  - apply (pass_preserves E (fun w' => status_domain (table w'))); auto.
    intros w1 d Hw1 d' Hd'.
    destruct (check_device_table E d w1) as [Ht|[b Ht]]; rewrite Ht in Hd'; [auto|].
    unfold update_where in Hd'. apply list_elem_of_fmap in Hd' as (d0 & -> & Hd0).
    destruct (id_is (devices.id d) d0); [apply write_back_status|auto].
  - destruct (api_call_kept E session r w0) as [Hkept _].
    intros d' Hd'. destruct (Hkept d' Hd') as [(d & Hd & _ & Hcols)|[_ Hcols]].
    + injection Hcols as -> _ _. auto.
    + injection Hcols as -> _ _. right; right; left.
Qed.

Lemma status_stays_in_domain_witness :
  status_domain (table lab_world) ∧
  status_domain (table (history lab_env lab_world
                          [MonitorPass; ApiCall lab_admin (POST_devices lab_body);
                           MonitorPass])).
Proof.
  assert (status_domain (table lab_world)) as Hw.
  { intros d Hd. repeat (apply elem_of_cons in Hd as [->|Hd]);
      [right; right; left|right; right; left|apply elem_of_nil in Hd; contradiction]. }
  split; [exact Hw|]. apply (status_stays_in_domain lab_env lab_world _ Hw).
Defined.

Lemma history_timestamps_sound (E : Env) (w : World) (acts : list Activity) :
  clock_monotone E →
  timestamps_sound E w → timestamps_sound E (history E w acts).
Proof.
  intros Hmono Hw. unfold history.
  induction acts as [|a acts IH] using rev_ind; [exact Hw|].
  rewrite foldl_app. simpl. set (w0 := foldl (perform E) w acts) in *.
  destruct a as [|session r]; simpl.
  - apply (pass_preserves E (timestamps_sound E)); auto.
    intros w1 d Hw1 d' Hd'.
    pose proof (check_device_reads E d w1) as Hreads.
    assert (∀ c, (c ≤ clock E (reads w1))%Z →
                 (c ≤ clock E (reads (run E (check_device d) w1).2))%Z) as Hlater.
    { intros c Hc. etransitivity; [exact Hc|]. apply Hmono. lia. }
    destruct (check_device_table E d w1) as [Ht|[b Ht]]; rewrite Ht in Hd'.
    + destruct (Hw1 d' Hd') as [Hc Hs]. split; [|exact Hs].
      intros c Hc'. apply Hlater, Hc, Hc'.
    + unfold update_where in Hd'. apply list_elem_of_fmap in Hd' as (d0 & -> & Hd0).
      destruct (Hw1 d0 Hd0) as [Hc Hs].
      destruct (id_is (devices.id d) d0).
      * destruct b;
          cbn [write_back set_status_columns devices.lastCheckedAt devices.lastSeenAt
               set_lastCheckedAt set_lastSeenAt]; split.
        -- intros c [= <-]. apply Hmono. lia.
        -- intros s [= <-]. eexists. split; [reflexivity|]. apply Hmono. lia.
        -- intros c [= <-]. apply Hmono. lia.
        -- intros s Hs'. destruct (Hs s Hs') as (c & Hc' & Hsc).
           eexists. split; [reflexivity|]. etransitivity; [exact Hsc|]. exact (Hc c Hc').
      * split; [|exact Hs]. intros c Hc'. apply Hlater, Hc, Hc'.
  - destruct (api_call_kept E session r w0) as [Hkept Hreads].
    intros d' Hd'. rewrite Hreads.
    destruct (Hkept d' Hd') as [(d & Hd & _ & Hcols)|[_ Hcols]].
    + injection Hcols as _ Hseen Hchecked. rewrite Hseen, Hchecked. exact (IH d Hd).
    + injection Hcols as _ Hseen Hchecked. rewrite Hseen, Hchecked.
      split; intros ? [=].
Qed.

(** X3.  When the clock does not go back and the passes of the monitor and
    the requests of the device API run one after the other, each to its end,
    the timestamps stay sound: no row was checked after the present, and a
    row that was seen was checked at that time or later.  With passes that
    overlap this is lost.  In the scenario the address of A misses the probe
    of a first pass and answers the probe of a second pass, which starts
    while the first awaits its write-back; the write-back of the second pass
    is settled first and that of the first pass last: A is left "offline",
    last seen at 1001 and last checked at 1000. *)
Theorem timestamps_stay_sound (E : Env) (w : World) (acts : list Activity) :
  (clock_monotone E →
   timestamps_sound E w → timestamps_sound E (history E w acts)) ∧
  (clock_monotone lab_env_late ∧
   timestamps_sound lab_env_late (mkWorld [lab_A] [] [] 0 0) ∧
   table (world (steps lab_env_late (boot (mkWorld [lab_A] [] [] 0 0))
                   [CallStart; Reply 0; Tick 0; Reply 1; Reply 1; Reply 0]))
   = [devices.mkDevice "a" "nas" "192.168.1.10" None "other" None None
                       "offline" (Some 1001%Z) (Some 1000%Z)] ∧
   ¬ timestamps_sound lab_env_late
       (world (steps lab_env_late (boot (mkWorld [lab_A] [] [] 0 0))
                 [CallStart; Reply 0; Tick 0; Reply 1; Reply 1; Reply 0]))).
Proof.
  split; [apply history_timestamps_sound|].
  assert (table (world (steps lab_env_late (boot (mkWorld [lab_A] [] [] 0 0))
                          [CallStart; Reply 0; Tick 0; Reply 1; Reply 1; Reply 0]))
          = [devices.mkDevice "a" "nas" "192.168.1.10" None "other" None None
                              "offline" (Some 1001%Z) (Some 1000%Z)]) as Htable
    by (vm_compute; reflexivity).
  split; [intros m n Hmn; simpl; lia|].
  split; [intros d Hd; apply list_elem_of_singleton in Hd as ->; split; intros ? [=]|].
  split; [exact Htable|].
  intros Hsound. unfold timestamps_sound in Hsound. rewrite Htable in Hsound.
  destruct (Hsound _ ltac:(left)) as [_ Hseen].
  destruct (Hseen 1001%Z eq_refl) as (c & [= <-] & Hle). lia.
Qed.

Lemma timestamps_stay_sound_witness :
  (clock_monotone lab_env ∧ timestamps_sound lab_env (mkWorld [lab_A] [] [] 0 0)) ∧
  timestamps_sound lab_env
    (history lab_env (mkWorld [lab_A] [] [] 0 0)
       [MonitorPass; ApiCall lab_admin (POST_devices lab_body); MonitorPass]).
Proof.
  assert (clock_monotone lab_env) as Hmono.
  { intros m n Hmn. simpl. lia. }
  assert (timestamps_sound lab_env (mkWorld [lab_A] [] [] 0 0)) as Hw.
  { intros d Hd. apply list_elem_of_singleton in Hd as ->. split; intros ? [=]. }
  split; [split; assumption|].
  apply (proj1 (timestamps_stay_sound lab_env _ _) Hmono Hw).
Defined.

(** ** Stopping the monitor while a pass is in flight *)

Lemma settle_same (E : Env) (q : Query) (w1 w2 : World) :
  same_but_console w1 w2 →
  (settle E q w1).1 = (settle E q w2).1 ∧
  same_but_console (settle E q w1).2 (settle E q w2).2.
Proof.
  intros (Ht & Hx & Hr & Ho). unfold settle. rewrite Ho, Ht.
  destruct (db_fault E (ops w2)).
  - repeat split; simpl; congruence.
  - destruct (db_exec (gen_random_uuid E (ops w2)) q (table w2)).
    repeat split; simpl; congruence.
Qed.

Lemma advance_same (E : Env) {A : Type} (p : Async A) (w1 w2 : World) :
  same_but_console w1 w2 →
  (advance E p w1).1 = (advance E p w2).1 ∧
  same_but_console (advance E p w1).2 (advance E p w2).2.
Proof.
  revert w1 w2; induction p as [a|e|k IH|c o k IH|m k IH|m e k IH|q k IH];
    intros w1 w2 Hw; simpl; auto; destruct Hw as (Ht & Hx & Hr & Ho).
  - rewrite Hr. apply IH. repeat split; simpl; congruence.
  - rewrite Hx. apply IH. repeat split; simpl; congruence.
Qed.

Lemma call_async_same (E : Env) (p : Async unit) (s1 s2 : Loop) :
  same_progress s1 s2 → same_progress (call_async E p s1) (call_async E p s2).
Proof.
  intros (Hi & Hw & Hu). unfold call_async.
  destruct (advance_same E p (world s1) (world s2) Hw) as [Hp Hw'].
  destruct (advance E p (world s1)) as [p1 w1'], (advance E p (world s2)) as [p2 w2'].
  simpl in Hp, Hw'. subst p2.
  destruct p1; repeat split; simpl; try apply Hw'; congruence.
Qed.

Lemma reply_same (E : Env) (i : nat) (s1 s2 : Loop) :
  same_progress s1 s2 →
  same_progress (step E s1 (Reply i)) (step E s2 (Reply i)).
Proof.
  intros (Hi & Hw & Hu). cbn [step]. rewrite Hi.
  destruct (inflight s2 !! i) as [[q k]|]; [|split; [exact Hi|split; assumption]].
  destruct (settle_same E q (world s1) (world s2) Hw) as [Hr Hw'].
  destruct (settle E q (world s1)) as [r1 w1'], (settle E q (world s2)) as [r2 w2'].
  simpl in Hr, Hw'. subst r2.
  apply call_async_same. repeat split; simpl; try apply Hw'; congruence.
Qed.

(** X4.  [stopDeviceMonitor] has nothing that cancels a pass: after it, the
    passes in flight take their turns as they would have without it, query
    after query, over the same table, with the same probes and the same
    readings of the clock; only the console has one line more. *)
Theorem stop_lets_passes_finish (E : Env) (s : Loop) (replies : list nat) :
  same_progress (steps E (stopDeviceMonitor s) (Reply <$> replies))
                (steps E s (Reply <$> replies)).
Proof.
  unfold steps. induction replies as [|i replies IH] using rev_ind.
  - simpl. unfold stopDeviceMonitor. destruct (monitorInterval s);
      repeat split; reflexivity.
  - rewrite fmap_app, !foldl_app. simpl. apply reply_same, IH.
Qed.

(** ** The store methods and the routes of the device API *)

Section StorageRuns.
Context (E : Env).

(** The world once one more query has settled and the table is [t]. *)
Lemma run_getDevice (i : string) (w : World) :
  run E (storage.getDevice i) w =
  match db_fault E (ops w) with
  | Some e => (Rejected e, fetched w)
  | None => (Resolved (head (filter (fun d => id_is i d = true) (table w))), fetched w)
  end.
Proof.
  unfold storage.getDevice. rewrite run_bind, run_await. unfold settle. simpl.
  destruct (db_fault E (ops w)); reflexivity.
Qed.

Lemma run_createDevice (v : InsertDevice) (w : World) :
  run E (storage.createDevice v) w =
  match db_fault E (ops w) with
  | Some e => (Rejected e, fetched w)
  | None =>
      if bool_decide (gen_random_uuid E (ops w) ∈ devices.id <$> table w)
      then (Rejected (DbError "duplicate key value violates unique constraint"),
            fetched w)
      else (Resolved (Some (new_row (gen_random_uuid E (ops w)) v)),
            mkWorld (table w ++ [new_row (gen_random_uuid E (ops w)) v])
                    (console w) (execs w) (reads w) (S (ops w)))
  end.
Proof.
  unfold storage.createDevice. rewrite run_bind, run_await. unfold settle. simpl.
  destruct (db_fault E (ops w)); [reflexivity|]. case_bool_decide; reflexivity.
Qed.

Lemma run_updateDevice (i : string) (u : PartialInsertDevice) (w : World) :
  run E (storage.updateDevice i u) w =
  if no_values u
  then (Rejected (DbError "No values to set"), w)
  else
    match db_fault E (ops w) with
    | Some e => (Rejected e, fetched w)
    | None =>
        (Resolved (head (filter (fun d => id_is i d = true)
                                (update_where i (set_columns u) (table w)))),
         mkWorld (update_where i (set_columns u) (table w))
                 (console w) (execs w) (reads w) (S (ops w)))
    end.
Proof.
  unfold storage.updateDevice. destruct (no_values u); [reflexivity|].
  rewrite run_bind, run_await. unfold settle. simpl.
  destruct (db_fault E (ops w)); reflexivity.
Qed.

Lemma run_deleteDevice (i : string) (w : World) :
  run E (storage.deleteDevice i) w =
  match db_fault E (ops w) with
  | Some e => (Rejected e, fetched w)
  | None =>
      (Resolved (bool_decide (0 < length (filter (fun d => id_is i d = true) (table w)))),
       mkWorld (filter (fun d => id_is i d = false) (table w))
               (console w) (execs w) (reads w) (S (ops w)))
  end.
Proof.
  unfold storage.deleteDevice. rewrite run_bind, run_await. unfold settle. simpl.
  destruct (db_fault E (ops w)); reflexivity.
Qed.
End StorageRuns.

Lemma id_is_false (i : string) (d : Device) : id_is i d = false ↔ devices.id d ≠ i.
Proof. unfold id_is. rewrite bool_decide_eq_false. reflexivity. Qed.

Lemma head_filter_id (i : string) (t : Table) :
  i ∈ devices.id <$> t →
  ∃ d, head (filter (fun d => id_is i d = true) t) = Some d.
Proof.
  intros Hin. destruct (head (filter (fun d => id_is i d = true) t)) eqn:Hd; [eauto|].
  apply filter_id_nil in Hd. contradiction.
Qed.

Lemma run_selects (E : Env) {A : Type} (p : Async A) (w : World) :
  awaits_only is_select p → table (run E p w).2 = table w.
Proof.
  revert w; induction p as [a|e|k IH|c o k IH|m k IH|m e k IH|q k IH];
    intros w Hp; simpl in *; auto.
  - match goal with |- context [run E _ ?w1] => exact (IH _ w1 (Hp _)) end.
  - match goal with |- context [run E _ ?w1] => exact (IH _ w1 (Hp _)) end.
  - match goal with |- context [run E _ ?w1] => exact (IH w1 Hp) end.
  - match goal with |- context [run E _ ?w1] => exact (IH w1 Hp) end.
  - destruct Hp as [Hq Hk]. destruct (settle E q w) as [r w'] eqn:Hs.
    rewrite (IH r w' (Hk r)).
    unfold settle in Hs. destruct (db_fault E (ops w)).
    + injection Hs as <- <-. reflexivity.
    + destruct q; try contradiction; simpl in Hs; injection Hs as <- <-; reflexivity.
Qed.

Lemma get_routes_select (session : Session) (r : ApiRequest) :
  match r with
  | GET_devices | GET_device _ => awaits_only is_select (device_api session r)
  | _ => True
  end.
Proof.
  destruct r; try exact I; simpl; unfold requireAuth, get_devices, get_device,
    storage.getAllDevices, storage.getDevice, internal_error;
    route_shape (@awaits_only_bind is_select) (@awaits_only_try_catch is_select)
                (awaits_only_await is_select).
Qed.

(** X5.  A session that is not logged in, or whose role is not "admin",
    changes no row of the table through the device API, whatever requests it
    sends: its requests to create, edit or delete a device are answered 401
    or 403, and its requests to read only read. *)
Theorem only_admin_changes_devices
    (E : Env) (session : Session) (w : World) (rs : list ApiRequest) :
  logged_in session = false ∨ role session ≠ Some "admin" →
  table (serve E session w rs) = table w ∧
  ∀ r w0,
    match r with
    | GET_devices | GET_device _ => True
    | _ => ∃ code, (code = 401%Z ∨ code = 403%Z) ∧ ∃ msg,
             run E (device_api session r) w0 = (Resolved (mkResponse code (ErrorJson msg)), w0)
    end.
Proof.
  intros Hsession.
  assert (∀ r w0,
    match r with
    | GET_devices | GET_device _ => True
    | _ => ∃ code, (code = 401%Z ∨ code = 403%Z) ∧ ∃ msg,
             run E (device_api session r) w0 = (Resolved (mkResponse code (ErrorJson msg)), w0)
    end) as Hroutes.
  { intros r w0. destruct r; try exact I; simpl; unfold requireAdmin;
      (destruct (logged_in session); simpl;
       [destruct Hsession as [Hs|Hs]; [discriminate Hs|];
        rewrite bool_decide_eq_false_2 by exact Hs; simpl;
        exists 403%Z; split; [right; reflexivity|eexists; reflexivity]
       |exists 401%Z; split; [left; reflexivity|eexists; reflexivity]]). }
  split; [|exact Hroutes].
  unfold serve. induction rs as [|r rs IH] using rev_ind; [reflexivity|].
  rewrite foldl_app. simpl. rewrite <- IH.
  set (w0 := foldl _ w rs). clearbody w0.
  pose proof (get_routes_select session r) as Hget.
  specialize (Hroutes r w0).
  destruct r; try (apply run_selects; exact Hget);
    destruct Hroutes as (code & _ & msg & ->); reflexivity.
Qed.

Lemma only_admin_changes_devices_witness :
  (logged_in (mkSession (Some "2") (Some "user")) = false ∨
   role (mkSession (Some "2") (Some "user")) ≠ Some "admin") ∧
  table (serve lab_env (mkSession (Some "2") (Some "user")) lab_world
               [POST_devices lab_body; DELETE_device "a"; GET_devices])
  = table lab_world.
Proof.
  assert (logged_in (mkSession (Some "2") (Some "user")) = false ∨
          role (mkSession (Some "2") (Some "user")) ≠ Some "admin") as Hs
    by (right; discriminate).
  split; [exact Hs|].
  apply (only_admin_changes_devices lab_env _ lab_world _ Hs).
Defined.

Lemma run_never_throws (E : Env) {A : Type} (p : Async A) (w : World) :
  never_throws p → ∃ a, (run E p w).1 = Resolved a.
Proof.
  revert w; induction p as [a|e|k IH|c o k IH|m k IH|m e k IH|q k IH];
    intros w Hp; simpl in *; try contradiction; eauto.
  destruct (settle E q w) as [r w']. apply IH, Hp.
Qed.

Lemma device_api_never_throws (session : Session) (r : ApiRequest) :
  never_throws (device_api session r).
Proof.
  destruct r; simpl; unfold requireAuth, requireAdmin;
    repeat (match goal with |- context [if ?c then _ else _] => destruct c end);
    try exact I; apply never_throws_try_catch; intros e; exact I.
Qed.

(** X6.  Every route of the device API answers: nothing a route does is
    thrown to the server.  When the database rejects the first query of a
    request, the table is as it was and the answer is 500 "Internal server
    error" with the error logged, unless the request was refused before any
    query (401, 403 or 400), in which case nothing is logged. *)
Theorem device_api_always_answers
    (E : Env) (session : Session) (r : ApiRequest) (w : World) :
  never_throws (device_api session r) ∧
  (∃ resp, (run E (device_api session r) w).1 = Resolved resp) ∧
  ∀ e, db_fault E (ops w) = Some e →
    table (run E (device_api session r) w).2 = table w ∧
    ∃ resp, (run E (device_api session r) w).1 = Resolved resp ∧
      ((statusCode resp = 500%Z ∧ json resp = ErrorJson "Internal server error" ∧
        ∃ m, console (run E (device_api session r) w).2 = console w ++ [Error m e]) ∨
       ((statusCode resp = 400%Z ∨ statusCode resp = 401%Z ∨ statusCode resp = 403%Z) ∧
        console (run E (device_api session r) w).2 = console w)).
Proof.
  split; [apply device_api_never_throws|].
  split; [apply run_never_throws, device_api_never_throws|].
  intros e He.
  destruct r as [|i|body|i body|i]; cbn [device_api]; unfold requireAuth, requireAdmin;
    repeat (match goal with |- context [if negb ?c then _ else _] => destruct (negb c) end);
    try (split; [reflexivity|]; eexists; split; [reflexivity|]; right;
         split; [auto|reflexivity]).
  - unfold get_devices, storage.getAllDevices.
    rewrite run_try_catch, run_bind, run_await. unfold settle. rewrite He. simpl.
    split; [reflexivity|]. eexists; split; [reflexivity|]. left. eauto.
  - unfold get_device. rewrite run_try_catch, run_bind, run_getDevice, He. simpl.
    split; [reflexivity|]. eexists; split; [reflexivity|]. left. eauto.
  - unfold post_devices. destruct (insertDeviceSchema_safeParse body).
    + rewrite run_try_catch, run_bind, run_createDevice, He. simpl.
      split; [reflexivity|]. eexists; split; [reflexivity|]. left. eauto.
    + simpl. split; [reflexivity|]. eexists; split; [reflexivity|]. right. auto.
  - unfold patch_device. destruct (partialSchema_safeParse body).
    + rewrite run_try_catch, run_bind, run_getDevice, He. simpl.
      split; [reflexivity|]. eexists; split; [reflexivity|]. left. eauto.
    + simpl. split; [reflexivity|]. eexists; split; [reflexivity|]. right. auto.
  - unfold delete_device. rewrite run_try_catch, run_bind, run_getDevice, He. simpl.
    split; [reflexivity|]. eexists; split; [reflexivity|]. left. eauto.
Qed.

Lemma device_api_always_answers_witness :
  db_fault (lab_env_down_from 0) (ops lab_world) = Some (DbError "connection terminated") ∧
  table (run (lab_env_down_from 0) (device_api lab_admin (POST_devices lab_body))
             lab_world).2 = table lab_world.
Proof.
  split; [reflexivity|].
  destruct (device_api_always_answers (lab_env_down_from 0) lab_admin
              (POST_devices lab_body) lab_world) as (_ & _ & Hdown).
  exact (proj1 (Hdown _ eq_refl)).
Defined.

Lemma post_devices_inversion (E : Env) (session : Session) (w w1 : World)
    (body : ReqBody) (resp : Response) (d : Device) :
  run E (device_api session (POST_devices body)) w = (Resolved resp, w1) →
  json resp = DeviceJson (Some d) →
  logged_in session = true ∧
  (∃ data, insertDeviceSchema_safeParse body = Some data ∧
           d = new_row (devices.id d) data) ∧
  (devices.id d ∉ devices.id <$> table w) ∧
  w1 = mkWorld (table w ++ [d]) (console w) (execs w) (reads w) (S (ops w)).
Proof.
  intros Hrun Hd. cbn [device_api] in Hrun. unfold requireAdmin in Hrun.
  destruct (logged_in session); cbn [negb] in Hrun;
    [|injection Hrun as <- <-; discriminate Hd].
  destruct (negb (bool_decide (role session = Some "admin")));
    [injection Hrun as <- <-; discriminate Hd|].
  unfold post_devices in Hrun.
  destruct (insertDeviceSchema_safeParse body) as [data|];
    [|injection Hrun as <- <-; discriminate Hd].
  rewrite run_try_catch, run_bind, run_createDevice in Hrun.
  destruct (db_fault E (ops w)) as [e|];
    [simpl in Hrun; injection Hrun as <- <-; discriminate Hd|].
  case_bool_decide as Hfresh; simpl in Hrun; injection Hrun as <- <-;
    [discriminate Hd|].
  simpl in Hd. injection Hd as <-. simpl.
  split; [reflexivity|]. split; [eauto|]. split; [exact Hfresh|reflexivity].
Qed.

(** X7.  A device that a request has created can be read back: when POST
    /api/devices has answered with a device, GET /api/devices/:id with the
    identifier of that device, by the same session and with the query
    accepted, answers 200 with that device, and changes nothing. *)
Theorem created_device_can_be_fetched
    (E : Env) (session : Session) (w w1 : World)
    (body : ReqBody) (resp : Response) (d : Device) :
  run E (device_api session (POST_devices body)) w = (Resolved resp, w1) →
  json resp = DeviceJson (Some d) →
  db_fault E (ops w1) = None →
  run E (device_api session (GET_device (devices.id d))) w1
  = (Resolved (mkResponse 200 (RowJson d)), fetched w1).
Proof.
  intros Hrun Hd Hok.
  destruct (post_devices_inversion E session w w1 body resp d Hrun Hd)
    as (Hin & _ & Hfresh & Hw1).
  cbn [device_api]. unfold requireAuth. rewrite Hin. cbn [negb].
  unfold get_device. rewrite run_try_catch, run_bind, run_getDevice, Hok.
  assert (head (filter (fun d' => id_is (devices.id d) d' = true) (table w1)) = Some d)
    as ->.
  { rewrite Hw1. cbn [table]. rewrite filter_app, filter_id_absent by exact Hfresh.
    rewrite filter_cons, decide_True by (apply id_is_true; reflexivity). reflexivity. }
  reflexivity.
Qed.

Lemma created_device_can_be_fetched_witness :
  (run lab_env (device_api lab_admin (POST_devices lab_body)) lab_world
   = (Resolved (mkResponse 200 (DeviceJson (Some
        (devices.mkDevice "c" "router" "192.168.1.1" None "other" None None
                          "unknown" None None)))),
      mkWorld [lab_A; lab_B;
               devices.mkDevice "c" "router" "192.168.1.1" None "other" None None
                                "unknown" None None] [] [] 0 1)) ∧
  run lab_env (device_api lab_admin (GET_device "c"))
      (mkWorld [lab_A; lab_B;
                devices.mkDevice "c" "router" "192.168.1.1" None "other" None None
                                 "unknown" None None] [] [] 0 1)
  = (Resolved (mkResponse 200 (RowJson
       (devices.mkDevice "c" "router" "192.168.1.1" None "other" None None
                         "unknown" None None))),
     fetched (mkWorld [lab_A; lab_B;
                       devices.mkDevice "c" "router" "192.168.1.1" None "other" None None
                                        "unknown" None None] [] [] 0 1)).
Proof.
  assert (run lab_env (device_api lab_admin (POST_devices lab_body)) lab_world
   = (Resolved (mkResponse 200 (DeviceJson (Some
        (devices.mkDevice "c" "router" "192.168.1.1" None "other" None None
                          "unknown" None None)))),
      mkWorld [lab_A; lab_B;
               devices.mkDevice "c" "router" "192.168.1.1" None "other" None None
                                "unknown" None None] [] [] 0 1)) as Hrun
    by (vm_compute; reflexivity).
  split; [exact Hrun|].
  exact (created_device_can_be_fetched lab_env lab_admin _ _ _ _ _ Hrun eq_refl eq_refl).
Defined.

(** X8.  DELETE /api/devices/:id by an administrator, with its two queries
    accepted: when a row has the identifier, the answer is 200, no row has
    the identifier afterwards and the rows with another identifier are all
    kept; when no row has it, the answer is 404 and the table is as it
    was. *)
Theorem delete_removes_the_device
    (E : Env) (session : Session) (w : World) (i : string) :
  logged_in session = true →
  role session = Some "admin" →
  db_fault E (ops w) = None →
  db_fault E (S (ops w)) = None →
  if bool_decide (i ∈ devices.id <$> table w)
  then (run E (device_api session (DELETE_device i)) w).1
         = Resolved (mkResponse 200 SuccessJson) ∧
       (i ∉ devices.id <$> table (run E (device_api session (DELETE_device i)) w).2) ∧
       ∀ d, d ∈ table (run E (device_api session (DELETE_device i)) w).2
            ↔ d ∈ table w ∧ devices.id d ≠ i
  else (run E (device_api session (DELETE_device i)) w).1
         = Resolved (mkResponse 404 (ErrorJson "Device not found")) ∧
       table (run E (device_api session (DELETE_device i)) w).2 = table w.
Proof.
  intros Hin Hadmin Hok0 Hok1.
  cbn [device_api]. unfold requireAdmin. rewrite Hin, Hadmin.
  rewrite (bool_decide_eq_true_2 (Some "admin" = Some "admin")) by reflexivity.
  cbn [negb]. unfold delete_device. rewrite run_try_catch, run_bind, run_getDevice, Hok0.
  case_bool_decide as Hi.
  - destruct (head_filter_id i (table w) Hi) as [d0 Hd0]. rewrite Hd0.
    rewrite run_bind, run_deleteDevice. cbn [ops fetched table]. rewrite Hok1.
    assert (0 < length (filter (fun d => id_is i d = true) (table w))) as Hlen.
    { apply head_Some in Hd0 as [l ->]. simpl. lia. }
    rewrite bool_decide_eq_true_2 by exact Hlen. cbn.
    split; [reflexivity|]. split.
    + intros Hin'. apply list_elem_of_fmap in Hin' as (d & -> & Hd).
      apply list_elem_of_filter in Hd as [Hd _]. apply id_is_false in Hd. congruence.
    + intros d. rewrite list_elem_of_filter, id_is_false. tauto.
  - rewrite (proj2 (head_None _) (filter_id_absent i (table w) Hi)). split; reflexivity.
Qed.

Lemma delete_removes_the_device_witness :
  (logged_in lab_admin = true ∧ role lab_admin = Some "admin" ∧
   db_fault lab_env (ops lab_world) = None ∧
   db_fault lab_env (S (ops lab_world)) = None) ∧
  (run lab_env (device_api lab_admin (DELETE_device "a")) lab_world).1
    = Resolved (mkResponse 200 SuccessJson) ∧
  ("a" ∉ devices.id <$> table (run lab_env (device_api lab_admin (DELETE_device "a"))
                                   lab_world).2).
Proof.
  split; [repeat split|].
  pose proof (delete_removes_the_device lab_env lab_admin lab_world "a"
                eq_refl eq_refl eq_refl eq_refl) as H.
  rewrite bool_decide_eq_true_2 in H by (left).
  destruct H as (H1 & H2 & _). split; assumption.
Defined.

(** What the schema of an edit gives for each key is what its validator
    gives for the value under the key. *)
Lemma partialSchema_fields (o : gmap string JVal) (data : PartialInsertDevice) :
  partialSchema_safeParse (BodyObject o) = Some data →
  z_optional z_string (o !! "name") = Some (upd_name data) ∧
  z_optional (z_regex ip_regex) (o !! "ipAddress") = Some (upd_ipAddress data) ∧
  z_macAddress (o !! "macAddress") = Some (upd_macAddress data) ∧
  z_optional z_string (o !! "deviceType") = Some (upd_deviceType data) ∧
  z_optional (z_nullable z_string) (o !! "os") = Some (upd_os data) ∧
  z_optional (z_nullable z_string) (o !! "description") = Some (upd_description data).
Proof.
  unfold partialSchema_safeParse. intros H.
  destruct (z_optional z_string (o !! "name")); [|discriminate H].
  destruct (z_optional (z_regex ip_regex) (o !! "ipAddress")); [|discriminate H].
  destruct (z_macAddress (o !! "macAddress")); [|discriminate H].
  destruct (z_optional z_string (o !! "deviceType")); [|discriminate H].
  destruct (z_optional (z_nullable z_string) (o !! "os")); [|discriminate H].
  destruct (z_optional (z_nullable z_string) (o !! "description")); [|discriminate H].
  simpl in H. injection H as <-. repeat split; reflexivity.
Qed.

Lemma patch_device_table (E : Env) (session : Session) (i : string) (body : ReqBody)
    (w : World) :
  table (run E (device_api session (PATCH_device i body)) w).2 = table w ∨
  ∃ data, partialSchema_safeParse body = Some data ∧
          (run E (device_api session (PATCH_device i body)) w).1
            = Resolved (mkResponse 200 (DeviceJson
                (head (filter (fun d => id_is i d = true)
                              (update_where i (set_columns data) (table w)))))) ∧
          table (run E (device_api session (PATCH_device i body)) w).2
            = update_where i (set_columns data) (table w).
Proof.
  cbn [device_api]. unfold requireAdmin.
  destruct (negb (logged_in session)); [left; reflexivity|].
  destruct (negb (bool_decide (role session = Some "admin"))); [left; reflexivity|].
  unfold patch_device.
  destruct (partialSchema_safeParse body) as [data|]; [|left; reflexivity].
  rewrite run_try_catch, run_bind, run_getDevice.
  destruct (db_fault E (ops w)); [left; reflexivity|].
  destruct (head (filter (fun d => id_is i d = true) (table w)));
    [|left; reflexivity].
  rewrite run_bind, run_updateDevice. cbn [ops fetched table].
  destruct (no_values data); [left; reflexivity|].
  destruct (db_fault E (S (ops w))); [left; reflexivity|].
  right. exists data. repeat split; reflexivity.
Qed.

(** X9.  PATCH /api/devices/:id changes, at most, the rows with the
    identifier, and in them the columns whose keys the body holds.  The rows
    after the request are, whatever their order, the rows before it, each
    one kept or rewritten: a row keeps its identifier and the columns of the
    monitor, a row with another identifier is as it was, and a column whose
    key is missing from the body is as it was. *)
Theorem patch_changes_only_given_columns
    (E : Env) (session : Session) (w : World) (i : string) (o : gmap string JVal) :
  ∃ f : Device -> Device,
    table (run E (device_api session (PATCH_device i (BodyObject o))) w).2
      ≡ₚ f <$> table w ∧
    ∀ d,
      devices.id (f d) = devices.id d ∧
      monitor_columns (f d) = monitor_columns d ∧
      (devices.id d ≠ i → f d = d) ∧
      (o !! "name" = None → devices.name (f d) = devices.name d) ∧
      (o !! "ipAddress" = None → devices.ipAddress (f d) = devices.ipAddress d) ∧
      (o !! "macAddress" = None → devices.macAddress (f d) = devices.macAddress d) ∧
      (o !! "deviceType" = None → devices.deviceType (f d) = devices.deviceType d) ∧
      (o !! "os" = None → devices.os (f d) = devices.os d) ∧
      (o !! "description" = None → devices.description (f d) = devices.description d).
Proof.
  destruct (patch_device_table E session i (BodyObject o) w) as [->|(data & Hp & _ & ->)].
  - exists (fun d => d). rewrite list_fmap_id. split; [reflexivity|].
    intros d. repeat split; auto.
  - exists (fun d => if id_is i d then set_columns data d else d).
    split; [reflexivity|]. intros d.
    destruct (id_is i d) eqn:Hid; [|repeat split; auto].
    destruct (partialSchema_fields o data Hp) as (H1 & H2 & H3 & H4 & H5 & H6).
    split; [reflexivity|]. split; [reflexivity|].
    split; [intros Hne; apply id_is_true in Hid; congruence|].
    repeat split; intros Hnone.
    + rewrite Hnone in H1. injection H1 as H1. unfold set_columns.
      cbn [devices.name]. rewrite <- H1. reflexivity.
    + rewrite Hnone in H2. injection H2 as H2. unfold set_columns.
      cbn [devices.ipAddress]. rewrite <- H2. reflexivity.
    + rewrite Hnone in H3. injection H3 as H3. unfold set_columns.
      cbn [devices.macAddress]. rewrite <- H3. reflexivity.
    + rewrite Hnone in H4. injection H4 as H4. unfold set_columns.
      cbn [devices.deviceType]. rewrite <- H4. reflexivity.
    + rewrite Hnone in H5. injection H5 as H5. unfold set_columns.
      cbn [devices.os]. rewrite <- H5. reflexivity.
    + rewrite Hnone in H6. injection H6 as H6. unfold set_columns.
      cbn [devices.description]. rewrite <- H6. reflexivity.
Qed.

Lemma patch_device_200 (E : Env) (session : Session) (i : string) (body : ReqBody)
    (w : World) (resp : Response) :
  (run E (device_api session (PATCH_device i body)) w).1 = Resolved resp →
  statusCode resp = 200%Z →
  ∃ data, partialSchema_safeParse body = Some data ∧
          table (run E (device_api session (PATCH_device i body)) w).2
            = update_where i (set_columns data) (table w).
Proof.
  intros Hresp Hcode. revert Hresp. cbn [device_api]. unfold requireAdmin.
  destruct (negb (logged_in session)); [intros [= <-]; discriminate Hcode|].
  destruct (negb (bool_decide (role session = Some "admin")));
    [intros [= <-]; discriminate Hcode|].
  unfold patch_device.
  destruct (partialSchema_safeParse body) as [data|];
    [|intros [= <-]; discriminate Hcode].
  rewrite run_try_catch, run_bind, run_getDevice.
  destruct (db_fault E (ops w)); [intros [= <-]; discriminate Hcode|].
  destruct (head (filter (fun d => id_is i d = true) (table w)));
    [|intros [= <-]; discriminate Hcode].
  rewrite run_bind, run_updateDevice. cbn [ops fetched table].
  destruct (no_values data); [intros [= <-]; discriminate Hcode|].
  destruct (db_fault E (S (ops w))); [intros [= <-]; discriminate Hcode|].
  intros _. exists data. split; reflexivity.
Qed.

(** X10.  When PATCH /api/devices/:id answers 200, every row with the
    identifier holds what the body gave: the strings under "name",
    "ipAddress", "macAddress" and "deviceType", and under "os" and
    "description" the string, or nothing when the body gave [null]; an
    "ipAddress" that was written has the form of the schema. *)
Theorem patch_writes_given_columns
    (E : Env) (session : Session) (w : World) (i : string) (o : gmap string JVal)
    (resp : Response) (k : nat) (d : Device) :
  (run E (device_api session (PATCH_device i (BodyObject o))) w).1 = Resolved resp →
  statusCode resp = 200%Z →
  table w !! k = Some d →
  devices.id d = i →
  ∃ d', table (run E (device_api session (PATCH_device i (BodyObject o))) w).2 !! k
          = Some d' ∧
    (∀ s, o !! "name" = Some (JString s) → devices.name d' = s) ∧
    (∀ s, o !! "ipAddress" = Some (JString s) →
          devices.ipAddress d' = s ∧ ip_regex s = true) ∧
    (∀ s, o !! "macAddress" = Some (JString s) → devices.macAddress d' = Some s) ∧
    (∀ s, o !! "deviceType" = Some (JString s) → devices.deviceType d' = s) ∧
    (∀ s, o !! "os" = Some (JString s) → devices.os d' = Some s) ∧
    (o !! "os" = Some JNull → devices.os d' = None) ∧
    (∀ s, o !! "description" = Some (JString s) → devices.description d' = Some s) ∧
    (o !! "description" = Some JNull → devices.description d' = None).
Proof.
  intros Hresp Hcode Hk Hid.
  destruct (patch_device_200 E session i (BodyObject o) w resp Hresp Hcode)
    as (data & Hp & ->).
  destruct (partialSchema_fields o data Hp) as (H1 & H2 & H3 & H4 & H5 & H6).
  rewrite update_where_lookup, Hk. cbn [fmap option_fmap option_map].
  assert (id_is i d = true) as -> by (apply id_is_true; exact Hid).
  exists (set_columns data d). split; [reflexivity|].
  unfold set_columns.
  cbn [devices.name devices.ipAddress devices.macAddress devices.deviceType
       devices.os devices.description].
  repeat match goal with |- _ ∧ _ => split end.
  - intros s Hs. rewrite Hs in H1. injection H1 as <-. reflexivity.
  - intros s Hs. rewrite Hs in H2. cbn in H2.
    destruct (ip_regex s); [|discriminate H2].
    injection H2 as <-. split; reflexivity.
  - intros s Hs. rewrite Hs in H3. unfold z_macAddress, z_optional, z_regex in H3.
    cbn in H3. destruct (mac_regex s).
    + injection H3 as <-. reflexivity.
    + destruct s; [injection H3 as <-; reflexivity|discriminate H3].
  - intros s Hs. rewrite Hs in H4. injection H4 as <-. reflexivity.
  - intros s Hs. rewrite Hs in H5. injection H5 as <-. reflexivity.
  - intros Hs. rewrite Hs in H5. injection H5 as <-. reflexivity.
  - intros s Hs. rewrite Hs in H6. injection H6 as <-. reflexivity.
  - intros Hs. rewrite Hs in H6. injection H6 as <-. reflexivity.
Qed.

Lemma patch_writes_given_columns_witness :
  ((run lab_env (device_api lab_admin
        (PATCH_device "a" (BodyObject (<["name" := JString "vault"]> ∅)))) lab_world).1
     = Resolved (mkResponse 200 (DeviceJson (Some
         (devices.mkDevice "a" "vault" "192.168.1.10" None "other" None None
                           "unknown" None None)))) ∧
   table lab_world !! 0 = Some lab_A ∧ devices.id lab_A = "a") ∧
  ∃ d', table (run lab_env (device_api lab_admin
                 (PATCH_device "a" (BodyObject (<["name" := JString "vault"]> ∅))))
                 lab_world).2 !! 0 = Some d' ∧
        ∀ s, (<["name" := JString "vault"]> ∅ : gmap string JVal) !! "name"
               = Some (JString s) → devices.name d' = s.
Proof.
  assert ((run lab_env (device_api lab_admin
        (PATCH_device "a" (BodyObject (<["name" := JString "vault"]> ∅)))) lab_world).1
     = Resolved (mkResponse 200 (DeviceJson (Some
         (devices.mkDevice "a" "vault" "192.168.1.10" None "other" None None
                           "unknown" None None))))) as Hrun
    by (vm_compute; reflexivity).
  split; [repeat split; exact Hrun|].
  destruct (patch_writes_given_columns lab_env lab_admin lab_world "a"
              (<["name" := JString "vault"]> ∅) _ 0 lab_A Hrun eq_refl eq_refl eq_refl)
    as (d' & H1 & H2 & _).
  exists d'. split; assumption.
Defined.

(** ** The schema of a device *)

Lemma re_matches_nil (s : string) :
  re_matches [] s = true ↔ s = "".
Proof. unfold re_matches. simpl. destruct s; split; congruence. Qed.

Lemma re_matches_cons (p : string -> option string) (ps : list (string -> option string))
    (s : string) :
  re_matches (p :: ps) s =
  match p s with
  | Some r => re_matches ps r
  | None => false
  end.
Proof.
  unfold re_matches. simpl. destruct (p s) as [r|]; [reflexivity|].
  assert (foldl (fun r p => r ≫= p) None ps = (None : option string)) as ->;
    [|reflexivity].
  induction ps as [|p' ps IH]; [reflexivity|exact IH].
Qed.

Lemma re_dot_spec (s r : string) : re_dot s = Some r ↔ s = "." +:+ r.
Proof.
  change ("." +:+ r) with (String "."%char r).
  unfold re_dot. destruct s as [|c s]; [split; discriminate|].
  case_bool_decide as Hc.
  - subst c. split; congruence.
  - split; [discriminate|]. intros [= -> _]. contradiction.
Qed.

Lemma append_empty_r (s : string) : s +:+ "" = s.
Proof.
  induction s as [|c s IH]; [reflexivity|].
  change (String c s +:+ "") with (String c (s +:+ "")). rewrite IH. reflexivity.
Qed.

Lemma re_digits_sound (s r : string) :
  re_digits_1_3 s = Some r → ∃ g, digit_group g ∧ s = g +:+ r.
Proof.
  unfold re_digits_1_3, digit_group.
  destruct s as [|c1 s]; [discriminate|]. simpl.
  destruct (is_digit c1) eqn:H1; [|discriminate].
  destruct s as [|c2 s]; simpl.
  { intros [= <-]. exists (String c1 ""). simpl. rewrite H1. repeat split; lia. }
  destruct (is_digit c2) eqn:H2; simpl;
    [|intros [= <-]; exists (String c1 ""); simpl; rewrite H1; repeat split; lia].
  destruct s as [|c3 s]; simpl.
  { intros [= <-]. exists (String c1 (String c2 "")). simpl. rewrite H1, H2.
    repeat split; lia. }
  destruct (is_digit c3) eqn:H3; simpl; intros [= <-].
  - exists (String c1 (String c2 (String c3 ""))). simpl. rewrite H1, H2, H3.
    repeat split; lia.
  - exists (String c1 (String c2 "")). simpl. rewrite H1, H2. repeat split; lia.
Qed.

(** A group is matched whole when what follows it is not a digit. *)
Lemma re_digits_complete (g r : string) :
  digit_group g →
  match r with
  | EmptyString => True
  | String c _ => is_digit c = false
  end →
  re_digits_1_3 (g +:+ r) = Some r.
Proof.
  unfold digit_group, re_digits_1_3. intros [Hlen Hdig] Hr.
  destruct g as [|c1 [|c2 [|c3 [|c4 g]]]]; simpl in *; try lia;
    repeat (match goal with
            | H : _ && _ = true |- _ => apply andb_true_iff in H as [? ?]
            end);
    repeat (match goal with H : is_digit _ = true |- _ => rewrite H; clear H end);
    simpl; destruct r as [|c r]; simpl; try rewrite Hr; reflexivity.
Qed.

Lemma ip_regex_dotted_quad_iff (s : string) :
  ip_regex s = true ↔ dotted_quad s.
Proof.
  unfold ip_regex, dotted_quad. split.
  - rewrite re_matches_cons.
    destruct (re_digits_1_3 s) as [r1|] eqn:Ha; [|discriminate].
    rewrite re_matches_cons. destruct (re_dot r1) as [r2|] eqn:Hd1; [|discriminate].
    rewrite re_matches_cons. destruct (re_digits_1_3 r2) as [r3|] eqn:Hb; [|discriminate].
    rewrite re_matches_cons. destruct (re_dot r3) as [r4|] eqn:Hd2; [|discriminate].
    rewrite re_matches_cons. destruct (re_digits_1_3 r4) as [r5|] eqn:Hc; [|discriminate].
    rewrite re_matches_cons. destruct (re_dot r5) as [r6|] eqn:Hd3; [|discriminate].
    rewrite re_matches_cons. destruct (re_digits_1_3 r6) as [r7|] eqn:Hd; [|discriminate].
    rewrite re_matches_nil. intros ->.
    apply re_digits_sound in Ha as (a & Hga & ->).
    apply re_digits_sound in Hb as (b & Hgb & ->).
    apply re_digits_sound in Hc as (c & Hgc & ->).
    apply re_digits_sound in Hd as (d & Hgd & ->).
    apply re_dot_spec in Hd1 as ->. apply re_dot_spec in Hd2 as ->.
    apply re_dot_spec in Hd3 as ->.
    exists a, b, c, d. rewrite append_empty_r.
    repeat (split; [assumption|]). reflexivity.
  - intros (a & b & c & d & Ha & Hb & Hc & Hd & ->).
    rewrite re_matches_cons, (re_digits_complete a) by (assumption || reflexivity).
    rewrite re_matches_cons, (proj2 (re_dot_spec _ _) eq_refl).
    rewrite re_matches_cons, (re_digits_complete b) by (assumption || reflexivity).
    rewrite re_matches_cons, (proj2 (re_dot_spec _ _) eq_refl).
    rewrite re_matches_cons, (re_digits_complete c) by (assumption || reflexivity).
    rewrite re_matches_cons, (proj2 (re_dot_spec _ _) eq_refl).
    rewrite re_matches_cons, <- (append_empty_r d).
    rewrite (re_digits_complete d "") by (assumption || exact I).
    apply re_matches_nil. reflexivity.
Qed.

(** X11.  The pattern of [ipAddress] accepts exactly the strings made of
    four groups of one to three digits with a dot between them; it puts no
    bound on the number a group stands for, so that "999.999.999.999" is as
    good as "10.0.0.2". *)
Theorem ip_regex_dotted_quad (s : string) :
  (ip_regex s = true ↔ dotted_quad s) ∧
  ip_regex "999.999.999.999" = true.
Proof. split; [apply ip_regex_dotted_quad_iff|reflexivity]. Qed.

Lemma length_append (a b : string) :
  String.length (a +:+ b) = String.length a + String.length b.
Proof.
  induction a as [|c a IH]; [reflexivity|].
  change (String c a +:+ b) with (String c (a +:+ b)). simpl. rewrite IH. reflexivity.
Qed.

Lemma dotted_quad_length (s : string) :
  dotted_quad s → 7 ≤ String.length s ≤ 15.
Proof.
  intros (a & b & c & d & [Ha _] & [Hb _] & [Hc _] & [Hd _] & ->).
  rewrite !length_append. simpl. lia.
Qed.

Lemma re_hex_2_length (s r : string) :
  re_hex_2 s = Some r → String.length s = 2 + String.length r.
Proof.
  unfold re_hex_2. destruct s as [|a [|b s]]; try discriminate.
  destruct (is_hex a && is_hex b); [|discriminate]. intros [= <-]. reflexivity.
Qed.

Lemma re_colon_or_dash_length (s r : string) :
  re_colon_or_dash s = Some r → String.length s = 1 + String.length r.
Proof.
  unfold re_colon_or_dash. destruct s as [|c s]; [discriminate|].
  destruct (_ || _); [|discriminate]. intros [= <-]. reflexivity.
Qed.

Lemma mac_regex_length (s : string) : mac_regex s = true → String.length s = 17.
Proof.
  unfold mac_regex.
  repeat (rewrite re_matches_cons;
          match goal with
          | |- context [re_hex_2 ?x] =>
              let H := fresh in
              destruct (re_hex_2 x) eqn:H; [apply re_hex_2_length in H|discriminate]
          | |- context [re_colon_or_dash ?x] =>
              let H := fresh in
              destruct (re_colon_or_dash x) eqn:H;
                [apply re_colon_or_dash_length in H|discriminate]
          end).
  rewrite re_matches_nil. intros ->. simpl in *. lia.
Qed.

Lemma z_regex_Some (re : string -> bool) (v : option JVal) (s : string) :
  z_regex re v = Some s → v = Some (JString s) ∧ re s = true.
Proof.
  unfold z_regex, z_string. destruct v as [[| | |s'|]|]; simpl; try discriminate.
  destruct (re s') eqn:Hre; [|discriminate]. intros [= <-]. auto.
Qed.

Lemma z_macAddress_Some (v : option JVal) (m : string) :
  z_macAddress v = Some (Some m) → m = "" ∨ mac_regex m = true.
Proof.
  unfold z_macAddress, z_optional, z_regex, z_string.
  destruct v as [[| | |s|]|]; simpl; try discriminate.
  destruct (mac_regex s) eqn:Hre; simpl.
  - intros [= <-]. auto.
  - destruct s; [intros [= <-]; auto|discriminate].
Qed.

Lemma insertDeviceSchema_fields (o : gmap string JVal) (v : InsertDevice) :
  insertDeviceSchema_safeParse (BodyObject o) = Some v →
  z_string (o !! "name") = Some (ins_name v) ∧
  z_regex ip_regex (o !! "ipAddress") = Some (ins_ipAddress v) ∧
  z_macAddress (o !! "macAddress") = Some (ins_macAddress v) ∧
  z_optional z_string (o !! "deviceType") = Some (ins_deviceType v) ∧
  z_optional (z_nullable z_string) (o !! "os") = Some (ins_os v) ∧
  z_optional (z_nullable z_string) (o !! "description") = Some (ins_description v).
Proof.
  unfold insertDeviceSchema_safeParse. intros H.
  destruct (z_string (o !! "name")); [|discriminate H].
  destruct (z_regex ip_regex (o !! "ipAddress")); [|discriminate H].
  destruct (z_macAddress (o !! "macAddress")); [|discriminate H].
  destruct (z_optional z_string (o !! "deviceType")); [|discriminate H].
  destruct (z_optional (z_nullable z_string) (o !! "os")); [|discriminate H].
  destruct (z_optional (z_nullable z_string) (o !! "description")); [|discriminate H].
  simpl in H. injection H as <-. repeat split; reflexivity.
Qed.

Lemma fits_columns_parsed (ip mac : option string) :
  (∀ i, ip = Some i → ip_regex i = true) →
  (∀ m, mac = Some m → m = "" ∨ mac_regex m = true) →
  fits_columns ip mac.
Proof.
  intros Hip Hmac. split.
  - intros i Hi. apply Hip, ip_regex_dotted_quad_iff, dotted_quad_length in Hi.
    unfold ip_address_length. lia.
  - intros m Hm. unfold mac_address_length.
    destruct (Hmac m Hm) as [->|Hre]; [simpl; lia|].
    apply mac_regex_length in Hre. lia.
Qed.

(** X12.  Every address that the schema of a creation or of an edit accepts
    fits the column it is written to: an [ipAddress] has 7 to 15 characters,
    within the 45 of [ip_address], and a [macAddress] is empty or has 17
    characters, the width of [mac_address]. *)
Theorem accepted_addresses_fit_columns (body : ReqBody) :
  (∀ v, insertDeviceSchema_safeParse body = Some v →
        fits_columns (Some (ins_ipAddress v)) (ins_macAddress v)) ∧
  (∀ u, partialSchema_safeParse body = Some u →
        fits_columns (upd_ipAddress u) (upd_macAddress u)).
Proof.
  destruct body as [o|]; [|split; intros ? [=]]. split.
  - intros v Hv. destruct (insertDeviceSchema_fields o v Hv) as (_ & Hip & Hmac & _).
    apply fits_columns_parsed.
    + intros i [= <-]. apply z_regex_Some in Hip. tauto.
    + intros m Hm. rewrite Hm in Hmac. apply z_macAddress_Some in Hmac. exact Hmac.
  - intros u Hu. destruct (partialSchema_fields o u Hu) as (_ & Hip & Hmac & _).
    apply fits_columns_parsed.
    + intros i Hi. rewrite Hi in Hip. unfold z_optional in Hip.
      destruct (o !! "ipAddress") as [j|] eqn:Hj; [|discriminate Hip].
      destruct (z_regex ip_regex (Some j)) as [i'|] eqn:Hre; [|discriminate Hip].
      injection Hip as ->. apply z_regex_Some in Hre. tauto.
    + intros m Hm. rewrite Hm in Hmac. apply z_macAddress_Some in Hmac. exact Hmac.
Qed.

Lemma accepted_addresses_fit_columns_witness :
  insertDeviceSchema_safeParse lab_body
    = Some (mkInsertDevice "router" "192.168.1.1" None None None None) ∧
  fits_columns (Some "192.168.1.1") None.
Proof.
  assert (insertDeviceSchema_safeParse lab_body
          = Some (mkInsertDevice "router" "192.168.1.1" None None None None)) as Hp
    by (vm_compute; reflexivity).
  split; [exact Hp|].
  exact (proj1 (accepted_addresses_fit_columns lab_body) _ Hp).
Defined.

Ltac lookup_keys :=
  repeat first
    [ rewrite lookup_insert_eq
    | rewrite lookup_insert_ne by discriminate
    | rewrite lookup_empty ].

(** X13.  The schema of a creation takes every well-formed device as it is:
    the body that holds the keys of an [InsertDevice] whose [ipAddress] has
    the form of the pattern, and whose [macAddress], if any, is empty or has
    the form of its pattern, is parsed to that [InsertDevice], nothing
    dropped and nothing rewritten. *)
Theorem insertDeviceSchema_round_trip (v : InsertDevice) :
  ip_regex (ins_ipAddress v) = true →
  (∀ m, ins_macAddress v = Some m → m = "" ∨ mac_regex m = true) →
  insertDeviceSchema_safeParse (to_body v) = Some v.
Proof.
  destruct v as [name ip mac type os desc]. cbn [ins_ipAddress ins_macAddress].
  intros Hip Hmac. unfold to_body, insertDeviceSchema_safeParse.
  cbn [ins_name ins_ipAddress ins_macAddress ins_deviceType ins_os ins_description].
  assert (∀ m, mac = Some m → z_macAddress (Some (JString m)) = Some (Some m)) as Hm.
  { intros m Hm. unfold z_macAddress, z_optional, z_regex, z_string. simpl.
    destruct (mac_regex m) eqn:Hre; [reflexivity|].
    destruct (Hmac m Hm) as [->|Hre']; [reflexivity|congruence]. }
  destruct mac as [mac|], type as [type|], os as [[os|]|], desc as [[desc|]|];
    cbn [put_key fmap option_fmap option_map json_nullable];
    lookup_keys; cbn [z_string mbind option_bind];
    unfold z_regex; cbn [z_string mbind option_bind]; rewrite Hip;
    try rewrite (Hm mac eq_refl); reflexivity.
Qed.

Lemma insertDeviceSchema_round_trip_witness :
  (ip_regex (ins_ipAddress (mkInsertDevice "nas" "10.0.0.2" (Some "00:1A:2b:3C:4d:5E")
                                            None (Some None) None)) = true ∧
   ∀ m, ins_macAddress (mkInsertDevice "nas" "10.0.0.2" (Some "00:1A:2b:3C:4d:5E")
                                       None (Some None) None) = Some m →
        m = "" ∨ mac_regex m = true) ∧
  insertDeviceSchema_safeParse
    (to_body (mkInsertDevice "nas" "10.0.0.2" (Some "00:1A:2b:3C:4d:5E")
                             None (Some None) None))
  = Some (mkInsertDevice "nas" "10.0.0.2" (Some "00:1A:2b:3C:4d:5E")
                         None (Some None) None).
Proof.
  assert (∀ m, ins_macAddress (mkInsertDevice "nas" "10.0.0.2" (Some "00:1A:2b:3C:4d:5E")
                                              None (Some None) None) = Some m →
               m = "" ∨ mac_regex m = true) as Hmac.
  { intros m [= <-]. right. reflexivity. }
  split; [split; [reflexivity|exact Hmac]|].
  exact (insertDeviceSchema_round_trip
           (mkInsertDevice "nas" "10.0.0.2" (Some "00:1A:2b:3C:4d:5E")
                           None (Some None) None) eq_refl Hmac).
Defined.

Lemma z_string_Some (v : option JVal) (s : string) :
  z_string v = Some s → v = Some (JString s).
Proof. destruct v as [[| | |s'|]|]; simpl; congruence. Qed.

(** X14.  Whatever body the schema of a creation accepts, the schema of an
    edit accepts, with the same value under every key. *)
Theorem edit_accepts_what_creation_accepts (body : ReqBody) (v : InsertDevice) :
  insertDeviceSchema_safeParse body = Some v →
  partialSchema_safeParse body = Some (as_partial v).
Proof.
  destruct body as [o|]; [|discriminate]. intros Hv.
  destruct (insertDeviceSchema_fields o v Hv) as (Hn & Hip & Hmac & Ht & Hos & Hd).
  unfold partialSchema_safeParse. rewrite Hmac, Ht, Hos, Hd.
  apply z_string_Some in Hn as Hn'. rewrite Hn'.
  pose proof (z_regex_Some _ _ _ Hip) as [Hip' _]. rewrite Hip'.
  rewrite Hip' in Hip. unfold z_optional. rewrite Hip. reflexivity.
Qed.

Lemma edit_accepts_what_creation_accepts_witness :
  insertDeviceSchema_safeParse lab_body
    = Some (mkInsertDevice "router" "192.168.1.1" None None None None) ∧
  partialSchema_safeParse lab_body
    = Some (as_partial (mkInsertDevice "router" "192.168.1.1" None None None None)).
Proof.
  assert (insertDeviceSchema_safeParse lab_body
          = Some (mkInsertDevice "router" "192.168.1.1" None None None None)) as Hp
    by (vm_compute; reflexivity).
  split; [exact Hp|]. exact (edit_accepts_what_creation_accepts _ _ Hp).
Defined.

(** ** Passes one after the other *)

Lemma pass_statuses (E : Env) (up : string -> bool) (w : World) :
  NoDup (devices.id <$> table w) →
  (∀ n, db_fault E n = None) →
  (∀ n ip, reachable E n ip = up ip) →
  devices.status <$> table (run E checkAllDevices w).2 = status_of up <$> table w.
Proof.
  intros Hnd Hok Hup.
  destruct (checkAllDevices_loop E w (Hok _)) as (-> & _).
  destruct (for_of_world E (table w) (fetched w)) as (_ & _ & _ & _ & _ & Hid).
  destruct (for_of_rows E (table w) [] (fetched w) eq_refl Hnd) as [_ Hrows].
  destruct (writes_all E (ops (fetched w)) (table w)) as [Hw _]; [intros; apply Hok|].
  rewrite Hw in Hrows. cbn [table fetched] in Hid.
  apply (f_equal length) in Hid. rewrite !length_fmap in Hid.
  apply list_eq. intros k. rewrite !list_lookup_fmap.
  destruct (table w !! k) as [d0|] eqn:Hk.
  - specialize (Hrows k d0 Hk).
    rewrite decide_True in Hrows by (eapply lookup_lt_Some; eassumption).
    destruct Hrows as (n & _ & _ & Hrow). simpl in Hrow. rewrite Hrow, Hup.
    unfold status_of, write_back. simpl. destruct (up (devices.ipAddress d0)); reflexivity.
  - apply lookup_ge_None in Hk.
    rewrite (proj2 (lookup_ge_None _ _)) by lia. reflexivity.
Qed.

(** X15.  When the identifiers are all different, the database accepts every
    query and the same addresses answer throughout, a pass gives every
    device the status of its address, "online" when it answers and "offline"
    when it does not, and a second pass leaves every status as the first
    one set it. *)
Theorem second_pass_keeps_statuses (E : Env) (up : string -> bool) (w : World) :
  NoDup (devices.id <$> table w) →
  (∀ n, db_fault E n = None) →
  (∀ n ip, reachable E n ip = up ip) →
  devices.status <$> table (run E checkAllDevices w).2 = status_of up <$> table w ∧
  devices.status <$> table (run E checkAllDevices (run E checkAllDevices w).2).2
  = devices.status <$> table (run E checkAllDevices w).2.
Proof.
  intros Hnd Hok Hup. split; [apply pass_statuses; assumption|].
  pose proof (pass_user_columns E w) as Hcols.
  assert (NoDup (devices.id <$> table (run E checkAllDevices w).2)) as Hnd1.
  { replace (devices.id <$> table (run E checkAllDevices w).2)
      with (devices.id <$> table w); [exact Hnd|].
    apply (f_equal (fmap (fun u : string * string * string * option string * string
                                  * option string * option string => u.1.1.1.1.1.1)))
      in Hcols.
    rewrite <- !list_fmap_compose in Hcols. symmetry. exact Hcols. }
  rewrite (pass_statuses E up _ Hnd1 Hok Hup), (pass_statuses E up w Hnd Hok Hup).
  apply (f_equal (fmap (fun u : string * string * string * option string * string
                                * option string * option string =>
                          if up u.1.1.1.1.2 then "online" else "offline")))
    in Hcols.
  rewrite <- !list_fmap_compose in Hcols. exact Hcols.
Qed.

Lemma second_pass_keeps_statuses_witness :
  (NoDup (devices.id <$> table lab_world) ∧
   (∀ n, db_fault lab_env n = None) ∧
   (∀ n ip, reachable lab_env n ip = bool_decide (ip = "192.168.1.10"))) ∧
  devices.status <$> table (run lab_env checkAllDevices lab_world).2
  = status_of (fun ip => bool_decide (ip = "192.168.1.10")) <$> table lab_world.
Proof.
  assert (∀ n ip, reachable lab_env n ip = bool_decide (ip = "192.168.1.10")) as Hup.
  { intros n ip. unfold reachable. cbn [lab_env child_process].
    unfold lab_ping, ping_command.
    destruct (decide (ip = "192.168.1.10")) as [->|Hne].
    - rewrite !bool_decide_eq_true_2 by reflexivity. reflexivity.
    - rewrite (bool_decide_eq_false_2 (ip = "192.168.1.10")) by exact Hne.
      rewrite bool_decide_eq_false_2; [reflexivity|].
      intros Heq. apply Hne.
      change ("ping -c 1 -W 2 " +:+ ip = "ping -c 1 -W 2 " +:+ "192.168.1.10") in Heq.
      exact (String.app_inj _ _ _ Heq). }
  split; [split; [exact lab_ids_NoDup|split; [reflexivity|exact Hup]]|].
  exact (proj1 (second_pass_keeps_statuses lab_env _ lab_world lab_ids_NoDup
                  (fun _ => eq_refl) Hup)).
Defined.

(** ** Sessions and users *)

Ltac handler_unfold :=
  unfold accounts.api, accounts.login, accounts.logout, accounts.auth_status,
    accounts.get_users, accounts.post_users, accounts.patch_password,
    accounts.delete_user, accounts.requireAdmin, accounts.internal_error,
    accounts.create_default_admin,
    accounts.getUser, accounts.getUserByUsername, accounts.getAllUsers,
    accounts.createUser, accounts.createUserWithRole, accounts.updateUserPassword,
    accounts.deleteUser, accounts.hash, accounts.compare,
    accounts.get_session, accounts.set_session, accounts.console_log,
    accounts.console_error, accounts.try_catch,
    mbind, accounts.Handler_mbind, accounts.bind,
    mret, accounts.Handler_mret, accounts.ret in *.

(** X16.  A session that is not logged in, or whose role is not "admin",
    gets 401 or 403 from every route that lists, creates, changes or deletes
    users, and the server is left exactly as it was: no query is sent and no
    hash is computed. *)
Theorem only_admin_manages_users
    (E : Env) (H : accounts.Host) (s : accounts.Server) (r : accounts.Request) :
  accounts.logged_in (accounts.session s) = false ∨
  accounts.role_of (accounts.session s) ≠ Some "admin" →
  match r with
  | accounts.POST_login _ | accounts.POST_logout | accounts.GET_status => True
  | _ =>
      accounts.api E H r s
        = (Resolved (accounts.mkResponse 401 (accounts.Failure "Authentication required")), s)
      ∨ accounts.api E H r s
        = (Resolved (accounts.mkResponse 403 (accounts.Failure "Admin access required")), s)
  end.
Proof.
  intros Hs. destruct r; try exact I; handler_unfold;
    (destruct (accounts.logged_in (accounts.session s)); cbn [negb];
     [right; destruct Hs as [Hs|Hs]; [discriminate Hs|];
      rewrite bool_decide_eq_false_2 by exact Hs; reflexivity
     |left; reflexivity]).
Qed.

Lemma only_admin_manages_users_witness :
  (accounts.logged_in (accounts.session (office (session_of office_user))) = false ∨
   accounts.role_of (accounts.session (office (session_of office_user))) ≠ Some "admin") ∧
  (accounts.api lab_env office_host (accounts.DELETE_user "1")
                (office (session_of office_user))
     = (Resolved (accounts.mkResponse 401 (accounts.Failure "Authentication required")),
        office (session_of office_user))
   ∨ accounts.api lab_env office_host (accounts.DELETE_user "1")
                  (office (session_of office_user))
     = (Resolved (accounts.mkResponse 403 (accounts.Failure "Admin access required")),
        office (session_of office_user))).
Proof.
  assert (accounts.logged_in (accounts.session (office (session_of office_user))) = false ∨
          accounts.role_of (accounts.session (office (session_of office_user)))
            ≠ Some "admin") as Hs by (right; discriminate).
  split; [exact Hs|].
  exact (only_admin_manages_users lab_env office_host _ (accounts.DELETE_user "1") Hs).
Defined.

Lemma parse_credentials (username password : string) :
  accounts.insertUserSchema_safeParse (credentials username password)
  = Some (accounts.mkInsertUser username password).
Proof.
  unfold accounts.insertUserSchema_safeParse, credentials. lookup_keys. reflexivity.
Qed.

Lemma head_filter_elem {A : Type} (P : A -> Prop) `{∀ x, Decision (P x)}
    (l : list A) (x : A) :
  head (filter P l) = Some x → x ∈ l ∧ P x.
Proof.
  intros Hx. apply head_Some in Hx as [l' Hl'].
  assert (x ∈ filter P l) as Hin by (rewrite Hl'; left).
  apply list_elem_of_filter in Hin. tauto.
Qed.

(** X17.  A login with a name that no user has and a login with a wrong
    password are answered alike, 401 "Invalid credentials", and leave the
    same state behind: the session and the table are as they were. *)
Theorem login_rejections_look_alike
    (E : Env) (H : accounts.Host) (s : accounts.Server) (username password : string) :
  db_fault E (accounts.queries s) = None →
  (∀ u, head (filter (fun u => accounts.has_username username u = true)
                     (accounts.table s)) = Some u →
        accounts.bcrypt_compare H password (accounts.password u) = false) →
  accounts.api E H (accounts.POST_login (credentials username password)) s
  = (Resolved (accounts.mkResponse 401 (accounts.Failure "Invalid credentials")),
     queried s).
Proof.
  intros Hok Hwrong. cbn [accounts.api]. unfold accounts.login.
  rewrite parse_credentials. handler_unfold. unfold accounts.await. rewrite Hok.
  cbn [accounts.users_exec accounts.new_username accounts.new_password].
  destruct (head (filter _ (accounts.table s))) as [u|] eqn:Hu; [|reflexivity].
  rewrite (Hwrong u eq_refl). reflexivity.
Qed.

Lemma login_rejections_look_alike_witness :
  (db_fault lab_env (accounts.queries (office accounts.no_session)) = None ∧
   (∀ u, head (filter (fun u => accounts.has_username "nobody" u = true)
                      (accounts.table (office accounts.no_session))) = Some u →
         accounts.bcrypt_compare office_host "guess" (accounts.password u) = false) ∧
   (∀ u, head (filter (fun u => accounts.has_username "admin" u = true)
                      (accounts.table (office accounts.no_session))) = Some u →
         accounts.bcrypt_compare office_host "guess" (accounts.password u) = false)) ∧
  accounts.api lab_env office_host (accounts.POST_login (credentials "nobody" "guess"))
               (office accounts.no_session)
  = accounts.api lab_env office_host (accounts.POST_login (credentials "admin" "guess"))
                 (office accounts.no_session).
Proof.
  assert (∀ u, head (filter (fun u => accounts.has_username "nobody" u = true)
                      (accounts.table (office accounts.no_session))) = Some u →
         accounts.bcrypt_compare office_host "guess" (accounts.password u) = false) as H1.
  { intros u Hu. vm_compute in Hu. discriminate Hu. }
  assert (∀ u, head (filter (fun u => accounts.has_username "admin" u = true)
                      (accounts.table (office accounts.no_session))) = Some u →
         accounts.bcrypt_compare office_host "guess" (accounts.password u) = false) as H2.
  { intros u Hu. vm_compute in Hu. injection Hu as <-. reflexivity. }
  split; [split; [reflexivity|split; assumption]|].
  rewrite (login_rejections_look_alike lab_env office_host _ "nobody" "guess" eq_refl H1).
  rewrite (login_rejections_look_alike lab_env office_host _ "admin" "guess" eq_refl H2).
  reflexivity.
Defined.

Lemma login_succeeds
    (E : Env) (H : accounts.Host) (s : accounts.Server)
    (username password : string) (u : accounts.User) :
  db_fault E (accounts.queries s) = None →
  head (filter (fun u => accounts.has_username username u = true) (accounts.table s))
    = Some u →
  accounts.bcrypt_compare H password (accounts.password u) = true →
  accounts.api E H (accounts.POST_login (credentials username password)) s
  = (Resolved (accounts.mkResponse 200
                 (accounts.LoggedIn (accounts.id u) (accounts.username u)
                                    (accounts.role u))),
     accounts.mkServer (accounts.table s) (session_of u) (accounts.console s)
                       (S (accounts.queries s)) (accounts.hashes s)).
Proof.
  intros Hok Hu Hc. cbn [accounts.api]. unfold accounts.login.
  rewrite parse_credentials. handler_unfold. unfold accounts.await. rewrite Hok.
  cbn [accounts.users_exec accounts.new_username accounts.new_password].
  rewrite Hu, Hc. reflexivity.
Qed.

Lemma login_effect (E : Env) (H : accounts.Host) (s : accounts.Server) (body : ReqBody) :
  accounts.table (accounts.api E H (accounts.POST_login body) s).2 = accounts.table s ∧
  (accounts.session (accounts.api E H (accounts.POST_login body) s).2 = accounts.session s
   ∨ ∃ data u,
       accounts.insertUserSchema_safeParse body = Some data ∧
       u ∈ accounts.table s ∧
       accounts.username u = accounts.new_username data ∧
       accounts.bcrypt_compare H (accounts.new_password data) (accounts.password u) = true ∧
       accounts.session (accounts.api E H (accounts.POST_login body) s).2 = session_of u).
Proof.
  split.
  - cbn [accounts.api]. unfold accounts.login.
    destruct (accounts.insertUserSchema_safeParse body) as [data|];
      handler_unfold; [|reflexivity].
    unfold accounts.await. destruct (db_fault E (accounts.queries s)); [reflexivity|].
    cbn [accounts.users_exec]. destruct (head _) as [u|]; [|reflexivity].
    destruct (accounts.bcrypt_compare H _ _); reflexivity.
  - cbn [accounts.api]. unfold accounts.login.
    destruct (accounts.insertUserSchema_safeParse body) as [data|] eqn:Hp;
      handler_unfold; [|left; reflexivity].
    unfold accounts.await. destruct (db_fault E (accounts.queries s)); [left; reflexivity|].
    cbn [accounts.users_exec].
    destruct (head _) as [u|] eqn:Hu; [|left; reflexivity].
    destruct (accounts.bcrypt_compare H _ _) eqn:Hc; [|left; reflexivity].
    right. exists data, u. apply head_filter_elem in Hu as [Hin Hname].
    apply bool_decide_eq_true in Hname.
    repeat split; auto.
Qed.

(** X18.  A login never changes the table, and it changes the session only
    to the session of a user of the table who has the given name and whose
    stored hash bcrypt matches with the given password.  When the query is
    accepted and the first user with the name has such a hash, the login is
    answered 200 and the session is that user's. *)
Theorem login_needs_matching_password
    (E : Env) (H : accounts.Host) (s : accounts.Server) (body : ReqBody) :
  accounts.table (accounts.api E H (accounts.POST_login body) s).2 = accounts.table s ∧
  (accounts.session (accounts.api E H (accounts.POST_login body) s).2 = accounts.session s
   ∨ ∃ data u,
       accounts.insertUserSchema_safeParse body = Some data ∧
       u ∈ accounts.table s ∧
       accounts.username u = accounts.new_username data ∧
       accounts.bcrypt_compare H (accounts.new_password data) (accounts.password u) = true ∧
       accounts.session (accounts.api E H (accounts.POST_login body) s).2 = session_of u) ∧
  ∀ username password u,
    body = credentials username password →
    db_fault E (accounts.queries s) = None →
    head (filter (fun u => accounts.has_username username u = true) (accounts.table s))
      = Some u →
    accounts.bcrypt_compare H password (accounts.password u) = true →
    accounts.api E H (accounts.POST_login body) s
    = (Resolved (accounts.mkResponse 200
                   (accounts.LoggedIn (accounts.id u) (accounts.username u)
                                      (accounts.role u))),
       accounts.mkServer (accounts.table s) (session_of u) (accounts.console s)
                         (S (accounts.queries s)) (accounts.hashes s)).
Proof.
  destruct (login_effect E H s body) as [Ht Hs].
  split; [exact Ht|]. split; [exact Hs|].
  intros username password u -> Hok Hu Hc. apply login_succeeds; assumption.
Qed.

Lemma login_needs_matching_password_witness :
  (db_fault lab_env (accounts.queries (office accounts.no_session)) = None ∧
   head (filter (fun u => accounts.has_username "admin" u = true)
                (accounts.table (office accounts.no_session))) = Some office_admin ∧
   accounts.bcrypt_compare office_host "admin123" (accounts.password office_admin) = true) ∧
  accounts.api lab_env office_host (accounts.POST_login (credentials "admin" "admin123"))
               (office accounts.no_session)
  = (Resolved (accounts.mkResponse 200 (accounts.LoggedIn "1" "admin" "admin")),
     accounts.mkServer [office_admin; office_user] (session_of office_admin) [] 1 0).
Proof.
  split; [repeat split|].
  destruct (login_needs_matching_password lab_env office_host
              (office accounts.no_session) (credentials "admin" "admin123"))
    as (_ & _ & Hlogin).
  exact (Hlogin "admin" "admin123" office_admin eq_refl eq_refl eq_refl eq_refl).
Defined.

(** What one request can do to the table and to the session. *)
Lemma api_effect (E : Env) (H : accounts.Host) (r : accounts.Request) (s : accounts.Server) :
  (accounts.table (accounts.api E H r s).2 = accounts.table s ∧
   (accounts.session (accounts.api E H r s).2 = accounts.session s ∨
    accounts.session (accounts.api E H r s).2 = accounts.no_session ∨
    ∃ u, u ∈ accounts.table s ∧
         accounts.session (accounts.api E H r s).2 = session_of u)) ∨
  (accounts.session (accounts.api E H r s).2 = accounts.session s ∧
   ((∃ row, accounts.role row = "user" ∧
            accounts.table (accounts.api E H r s).2 = accounts.table s ++ [row]) ∨
    (∃ i p, accounts.table (accounts.api E H r s).2
            = (fun u => if accounts.has_id i u then accounts.set_password p u else u)
                <$> accounts.table s) ∨
    (∃ i, Some i ≠ accounts.userId (accounts.session s) ∧
          accounts.table (accounts.api E H r s).2
          = filter (fun u => accounts.has_id i u = false) (accounts.table s)))).
Proof.
  destruct r as [body| | | |body|i body|i].
  - left.
    destruct (login_effect E H s body) as (Ht & [Hs|Hs]).
    + split; [exact Ht|left; exact Hs].
    + destruct Hs as (data & u & _ & Hin & _ & _ & Hs).
      split; [exact Ht|right; right; eauto].
  - left. handler_unfold. destruct (accounts.destroy_fails H); simpl; auto.
  - left. handler_unfold.
    destruct (accounts.userId (accounts.session s)) as [u|]; [|simpl; auto].
    destruct (bool_decide (u = "")); simpl; auto.
  - left. handler_unfold. unfold accounts.await.
    destruct (negb (accounts.logged_in (accounts.session s))); [simpl; auto|].
    destruct (negb (bool_decide _)); [simpl; auto|].
    destruct (db_fault E (accounts.queries s)); simpl; auto.
  - handler_unfold. unfold accounts.await.
    destruct (negb (accounts.logged_in (accounts.session s))); [left; simpl; auto|].
    destruct (negb (bool_decide _)); [left; simpl; auto|].
    destruct (accounts.createUserSchema_safeParse body) as [data|]; [|left; simpl; auto].
    destruct (db_fault E (accounts.queries s)); [left; simpl; auto|].
    cbn [accounts.users_exec]. destruct (head _); [left; simpl; auto|].
    cbn [accounts.queries accounts.table accounts.hashes].
    destruct (db_fault E (S (accounts.queries s))); [left; simpl; auto|].
    cbn [accounts.users_exec].
    destruct (_ || _); [left; simpl; auto|].
    right. split; [reflexivity|]. left. eexists. split; [|reflexivity]. reflexivity.
  - handler_unfold. unfold accounts.await.
    destruct (negb (accounts.logged_in (accounts.session s))); [left; simpl; auto|].
    destruct (negb (bool_decide _)); [left; simpl; auto|].
    destruct (accounts.updatePasswordSchema_safeParse body) as [p|]; [|left; simpl; auto].
    destruct (db_fault E (accounts.queries s)); [left; simpl; auto|].
    cbn [accounts.users_exec]. destruct (head _); [|left; simpl; auto].
    cbn [accounts.queries accounts.table accounts.hashes].
    destruct (db_fault E (S (accounts.queries s))); [left; simpl; auto|].
    cbn [accounts.users_exec].
    right. split; [destruct (head _); reflexivity|].
    right; left. eexists _, _. destruct (head _); reflexivity.
  - handler_unfold. unfold accounts.await.
    destruct (negb (accounts.logged_in (accounts.session s))); [left; simpl; auto|].
    destruct (negb (bool_decide _)); [left; simpl; auto|].
    case_bool_decide as Hown; [left; simpl; auto|].
    destruct (db_fault E (accounts.queries s)); [left; simpl; auto|].
    cbn [accounts.users_exec]. destruct (head _); [|left; simpl; auto].
    cbn [accounts.queries accounts.table accounts.hashes].
    destruct (db_fault E (S (accounts.queries s))); [left; simpl; auto|].
    cbn [accounts.users_exec].
    right. split; [destruct (negb _); reflexivity|].
    right; right. exists i. split; [exact Hown|]. destruct (negb _); reflexivity.
Qed.

Lemma roles_kept_refl (t : list accounts.User) : roles_kept t t.
Proof. intros u Hu. left. exists u. auto. Qed.

Lemma roles_kept_trans (t1 t2 t3 : list accounts.User) :
  roles_kept t1 t2 → roles_kept t2 t3 → roles_kept t1 t3.
Proof.
  intros H12 H23 u3 Hu3.
  destruct (H23 u3 Hu3) as [(u2 & Hu2 & Hi & Hn & Hr)|Hnew]; [|right; exact Hnew].
  destruct (H12 u2 Hu2) as [(u1 & Hu1 & Hi' & Hn' & Hr')|Hnew].
  - left. exists u1. repeat split; congruence.
  - right. congruence.
Qed.

(** X19.  No request makes an administrator: after any sequence of requests
    of a client, every user of the table has the identifier, the name and
    the role of a user that was there before, or has the role "user". *)
Theorem api_makes_no_administrator
    (E : Env) (H : accounts.Host) (s : accounts.Server) (rs : list accounts.Request) :
  roles_kept (accounts.table s) (accounts.table (accounts.serve E H s rs)).
Proof.
  unfold accounts.serve. induction rs as [|r rs IH] using rev_ind;
    [apply roles_kept_refl|].
  rewrite foldl_app. simpl. eapply roles_kept_trans; [exact IH|].
  set (s0 := foldl _ s rs). clearbody s0. clear IH.
  destruct (api_effect E H r s0)
    as [[-> _]|[_ [(row & Hrole & ->)|[(i & p & ->)|(i & _ & ->)]]]].
  - apply roles_kept_refl.
  - intros u Hu. apply elem_of_app in Hu as [Hu|Hu].
    + left. exists u. auto.
    + apply list_elem_of_singleton in Hu as ->. right. exact Hrole.
  - intros u' Hu'. apply list_elem_of_fmap in Hu' as (u & -> & Hu).
    left. exists u. destruct (accounts.has_id i u); auto.
  - intros u Hu. apply list_elem_of_filter in Hu as [_ Hu]. left. exists u. auto.
Qed.

(** X20.  The user of a session stays in the table whatever that session
    asks for: a request to delete one's own account is refused, and no other
    request of the session removes the row. *)
Theorem session_user_is_never_removed
    (E : Env) (H : accounts.Host) (s : accounts.Server) (rs : list accounts.Request) :
  session_user_exists s → session_user_exists (accounts.serve E H s rs).
Proof.
  intros Hs. unfold accounts.serve. induction rs as [|r rs IH] using rev_ind; [exact Hs|].
  rewrite foldl_app. simpl.
  set (s0 := foldl _ s rs) in *. clearbody s0. clear Hs.
  unfold session_user_exists in *.
  destruct (api_effect E H r s0)
    as [[-> [->| [->|(u & Hu & ->)]]]
       |[-> [(row & _ & ->)|[(i & p & ->)|(i & Hown & ->)]]]].
  - exact IH.
  - intros u [=].
  - intros u' [= <-]. apply list_elem_of_fmap_2. exact Hu.
  - intros u Hu. rewrite fmap_app. apply elem_of_app. left. exact (IH u Hu).
  - intros u Hu. specialize (IH u Hu).
    replace (accounts.id <$> ((fun u0 => if accounts.has_id i u0
                                          then accounts.set_password p u0 else u0)
                                <$> accounts.table s0))
      with (accounts.id <$> accounts.table s0); [exact IH|].
    rewrite <- list_fmap_compose. apply list_fmap_ext. intros k u0 _. simpl.
    destruct (accounts.has_id i u0); reflexivity.
  - intros u Hu. specialize (IH u Hu).
    apply list_elem_of_fmap in IH as (row & -> & Hrow).
    apply list_elem_of_fmap_2. apply list_elem_of_filter. split; [|exact Hrow].
    unfold accounts.has_id. apply bool_decide_eq_false. congruence.
Qed.

Lemma session_user_is_never_removed_witness :
  session_user_exists (office (session_of office_admin)) ∧
  session_user_exists
    (accounts.serve lab_env office_host (office (session_of office_admin))
       [accounts.DELETE_user "1"; accounts.DELETE_user "2"; accounts.GET_users]).
Proof.
  assert (session_user_exists (office (session_of office_admin))) as Hs.
  { intros u [= <-]. left. }
  split; [exact Hs|].
  exact (session_user_is_never_removed lab_env office_host _ _ Hs).
Defined.

Lemma requireAdmin_admin (s : accounts.Server) (next : accounts.Handler accounts.Response) :
  is_admin s → accounts.requireAdmin next s = next s.
Proof.
  intros [Hin Hrole]. handler_unfold. rewrite Hin, Hrole.
  rewrite bool_decide_eq_true_2 by reflexivity. reflexivity.
Qed.

Lemma z_min_string (n : nat) (s : string) :
  accounts.z_min n (Some (JString s)) = if (n <=? String.length s)%nat then Some s else None.
Proof. reflexivity. Qed.

Lemma parse_new_user (username password : string) :
  3 ≤ String.length username → 6 ≤ String.length password →
  accounts.createUserSchema_safeParse (credentials username password)
  = Some (accounts.mkInsertUser username password).
Proof.
  intros Hu Hp. unfold accounts.createUserSchema_safeParse, credentials. lookup_keys.
  rewrite !z_min_string.
  rewrite (proj2 (Nat.leb_le _ _) Hu), (proj2 (Nat.leb_le _ _) Hp). reflexivity.
Qed.

Lemma head_filter_username (n : string) (t : list accounts.User) :
  n ∉ accounts.username <$> t →
  head (filter (fun u => accounts.has_username n u = true) t) = None.
Proof.
  intros Hn. destruct (head _) as [u|] eqn:Hu; [|reflexivity].
  apply head_filter_elem in Hu as [Hin Hname].
  apply bool_decide_eq_true in Hname. exfalso. apply Hn. rewrite <- Hname.
  apply list_elem_of_fmap_2. exact Hin.
Qed.

Lemma head_filter_username_taken (n : string) (t : list accounts.User) :
  n ∈ accounts.username <$> t →
  ∃ u, head (filter (fun u => accounts.has_username n u = true) t) = Some u.
Proof.
  intros Hn. apply list_elem_of_fmap in Hn as (u & -> & Hu).
  destruct (head _) as [u'|] eqn:Hhead; [eauto|].
  apply head_None in Hhead.
  assert (u ∈ filter (fun u0 => accounts.has_username (accounts.username u) u0 = true) t)
    as Hin.
  { apply list_elem_of_filter. split; [|exact Hu].
    apply bool_decide_eq_true. reflexivity. }
  rewrite Hhead in Hin. apply elem_of_nil in Hin. contradiction.
Qed.

(** X21.  POST /api/users by an administrator, with a name of 3 characters
    or more and a password of 6 or more, and the queries accepted.  When a
    user has the name, the answer is 400 "Username already exists" and
    nothing is hashed or written.  Otherwise one row is added: it has the
    given name, the role "user", and as its password the bcrypt hash of the
    given one. *)
Theorem created_user_is_an_ordinary_user
    (E : Env) (H : accounts.Host) (s : accounts.Server) (username password : string) :
  is_admin s →
  3 ≤ String.length username →
  6 ≤ String.length password →
  db_fault E (accounts.queries s) = None →
  (username ∈ accounts.username <$> accounts.table s →
   accounts.api E H (accounts.POST_users (credentials username password)) s
   = (Resolved (accounts.mkResponse 400 (accounts.Failure "Username already exists")),
      queried s)) ∧
  (username ∉ accounts.username <$> accounts.table s →
   db_fault E (S (accounts.queries s)) = None →
   gen_random_uuid E (S (accounts.queries s)) ∉ accounts.id <$> accounts.table s →
   accounts.api E H (accounts.POST_users (credentials username password)) s
   = (Resolved (accounts.mkResponse 200
        (accounts.UserDone (Some (gen_random_uuid E (S (accounts.queries s)), username)))),
      accounts.mkServer
        (accounts.table s ++
         [accounts.mkUser (gen_random_uuid E (S (accounts.queries s))) username
                          (accounts.bcrypt_hash H (accounts.hashes s) password
                                                accounts.SALT_ROUNDS)
                          "user"])
        (accounts.session s) (accounts.console s)
        (S (S (accounts.queries s))) (S (accounts.hashes s)))).
Proof.
  intros Hadmin Hu Hp Hok. cbn [accounts.api]. rewrite requireAdmin_admin by exact Hadmin.
  unfold accounts.post_users. rewrite parse_new_user by assumption.
  handler_unfold. unfold accounts.await. rewrite Hok.
  cbn [accounts.users_exec accounts.new_username accounts.new_password]. split.
  - intros Htaken. destruct (head_filter_username_taken _ _ Htaken) as [u ->]. reflexivity.
  - intros Hfree Hok1 Hfresh. rewrite (head_filter_username _ _ Hfree).
    cbn [accounts.queries accounts.table accounts.hashes accounts.session accounts.console].
    rewrite Hok1. cbn [accounts.users_exec accounts.new_username accounts.new_password].
    rewrite (bool_decide_eq_false_2 _ Hfresh), (bool_decide_eq_false_2 _ Hfree).
    reflexivity.
Qed.

Lemma created_user_is_an_ordinary_user_witness :
  (is_admin (office (session_of office_admin)) ∧
   3 ≤ String.length "guest" ∧ 6 ≤ String.length "welcome" ∧
   db_fault lab_env (accounts.queries (office (session_of office_admin))) = None) ∧
  accounts.table
    (accounts.api lab_env office_host (accounts.POST_users (credentials "guest" "welcome"))
                  (office (session_of office_admin))).2
  = [office_admin; office_user; accounts.mkUser "d" "guest" "$2b$a$welcome" "user"].
Proof.
  assert (is_admin (office (session_of office_admin))) as Hadmin by (split; reflexivity).
  split; [repeat split; simpl; lia|].
  destruct (created_user_is_an_ordinary_user lab_env office_host
              (office (session_of office_admin)) "guest" "welcome"
              Hadmin ltac:(simpl; lia) ltac:(simpl; lia) eq_refl) as [_ Hnew].
  rewrite Hnew; [reflexivity| | |].
  - intros Hin. repeat (apply elem_of_cons in Hin as [Hin|Hin]; [discriminate Hin|]).
    apply elem_of_nil in Hin. exact Hin.
  - reflexivity.
  - intros Hin. repeat (apply elem_of_cons in Hin as [Hin|Hin]; [discriminate Hin|]).
    apply elem_of_nil in Hin. exact Hin.
Defined.

(** X22.  The bounds of the schemas: an administrator who asks for a user
    with a name shorter than 3 characters or a password shorter than 6, or
    for a new password shorter than 6, is answered 400 "Invalid input", and
    the server is left exactly as it was. *)
Theorem short_names_and_passwords_are_refused
    (E : Env) (H : accounts.Host) (s : accounts.Server) (o : gmap string JVal)
    (i : string) :
  is_admin s →
  ((∃ u, o !! "username" = Some (JString u) ∧ String.length u < 3) ∨
   (∃ p, o !! "password" = Some (JString p) ∧ String.length p < 6) →
   accounts.api E H (accounts.POST_users (BodyObject o)) s
   = (Resolved (accounts.mkResponse 400 (accounts.Failure "Invalid input")), s)) ∧
  ((∃ p, o !! "password" = Some (JString p) ∧ String.length p < 6) →
   accounts.api E H (accounts.PATCH_password i (BodyObject o)) s
   = (Resolved (accounts.mkResponse 400 (accounts.Failure "Invalid input")), s)).
Proof.
  intros Hadmin. cbn [accounts.api]. rewrite !requireAdmin_admin by exact Hadmin.
  split.
  - intros Hshort. unfold accounts.post_users.
    assert (accounts.createUserSchema_safeParse (BodyObject o) = None) as ->;
      [|reflexivity].
    unfold accounts.createUserSchema_safeParse.
    destruct Hshort as [(u & -> & Hu)|(p & -> & Hp)].
    + rewrite z_min_string, (proj2 (Nat.leb_gt _ _) Hu). reflexivity.
    + destruct (accounts.z_min 3 (o !! "username")); [|reflexivity].
      cbn [mbind option_bind]. rewrite z_min_string, (proj2 (Nat.leb_gt _ _) Hp).
      reflexivity.
  - intros (p & Hp & Hlen). unfold accounts.patch_password.
    assert (accounts.updatePasswordSchema_safeParse (BodyObject o) = None) as ->;
      [|reflexivity].
    unfold accounts.updatePasswordSchema_safeParse.
    rewrite Hp, z_min_string, (proj2 (Nat.leb_gt _ _) Hlen). reflexivity.
Qed.

Lemma short_names_and_passwords_are_refused_witness :
  (is_admin (office (session_of office_admin)) ∧
   ∃ p, (<["password" := JString "abc"]> (<["username" := JString "guest"]> ∅)
          : gmap string JVal) !! "password" = Some (JString p) ∧ String.length p < 6) ∧
  accounts.api lab_env office_host (accounts.POST_users (credentials "guest" "abc"))
               (office (session_of office_admin))
  = (Resolved (accounts.mkResponse 400 (accounts.Failure "Invalid input")),
     office (session_of office_admin)).
Proof.
  assert (is_admin (office (session_of office_admin))) as Hadmin by (split; reflexivity).
  assert (∃ p, (<["password" := JString "abc"]> (<["username" := JString "guest"]> ∅)
                 : gmap string JVal) !! "password" = Some (JString p) ∧
               String.length p < 6) as Hshort.
  { exists "abc". split; [reflexivity|simpl; lia]. }
  split; [split; assumption|].
  destruct (short_names_and_passwords_are_refused lab_env office_host
              (office (session_of office_admin))
              (<["password" := JString "abc"]> (<["username" := JString "guest"]> ∅))
              "1" Hadmin) as [Hpost _].
  apply Hpost. right. exact Hshort.
Defined.

(** X23.  The start of the server.  On a table with users, it reads the
    table and changes nothing.  On an empty table, with the queries
    accepted, it creates one user, "admin" with the role "admin" and the
    hash of the password "admin123", and logs that it did; when bcrypt
    recognises what it has hashed, a login as "admin" with "admin123" is
    then answered 200 and opens the session of that administrator.  When
    the first query is rejected, the error is thrown to the caller. *)
Theorem default_administrator (E : Env) (H : accounts.Host) (s : accounts.Server) :
  (∀ e, db_fault E (accounts.queries s) = Some e →
        accounts.create_default_admin E H s = (Rejected e, queried s)) ∧
  (db_fault E (accounts.queries s) = None →
   accounts.table s ≠ [] →
   accounts.create_default_admin E H s = (Resolved tt, queried s)) ∧
  (db_fault E (accounts.queries s) = None →
   db_fault E (S (accounts.queries s)) = None →
   accounts.table s = [] →
   accounts.create_default_admin E H s
   = (Resolved tt,
      accounts.mkServer
        [accounts.mkUser (gen_random_uuid E (S (accounts.queries s))) "admin"
                         (accounts.bcrypt_hash H (accounts.hashes s) "admin123"
                                               accounts.SALT_ROUNDS)
                         "admin"]
        (accounts.session s)
        (accounts.console s ++
         [Log "Default admin user created. IMPORTANT: Change password in production!"])
        (S (S (accounts.queries s))) (S (accounts.hashes s))) ∧
   (bcrypt_sound H →
    db_fault E (S (S (accounts.queries s))) = None →
    (accounts.api E H (accounts.POST_login (credentials "admin" "admin123"))
                  (accounts.create_default_admin E H s).2).1
    = Resolved (accounts.mkResponse 200
        (accounts.LoggedIn (gen_random_uuid E (S (accounts.queries s))) "admin" "admin")))).
Proof.
  split; [|split].
  - intros e He. handler_unfold. unfold accounts.await. rewrite He. reflexivity.
  - intros Hok Hne. handler_unfold. unfold accounts.await. rewrite Hok.
    cbn [accounts.users_exec].
    rewrite bool_decide_eq_false_2; [reflexivity|].
    intros Hlen. apply Hne. destruct (accounts.table s); [reflexivity|discriminate Hlen].
  - intros Hok Hok1 Hempty.
    assert (accounts.create_default_admin E H s
            = (Resolved tt,
               accounts.mkServer
                 [accounts.mkUser (gen_random_uuid E (S (accounts.queries s))) "admin"
                    (accounts.bcrypt_hash H (accounts.hashes s) "admin123"
                                          accounts.SALT_ROUNDS) "admin"]
                 (accounts.session s)
                 (accounts.console s ++
                  [Log "Default admin user created. IMPORTANT: Change password in production!"])
                 (S (S (accounts.queries s))) (S (accounts.hashes s)))) as Hrun.
    { handler_unfold. unfold accounts.await. rewrite Hok.
      cbn [accounts.users_exec]. rewrite Hempty.
      cbn [length bool_decide decide_rel accounts.queries accounts.table accounts.hashes
           accounts.session accounts.console].
      rewrite bool_decide_eq_true_2 by reflexivity.
      cbn [accounts.queries accounts.table accounts.hashes
           accounts.session accounts.console].
      rewrite Hok1. reflexivity. }
    rewrite Hrun. cbn [snd]. split; [reflexivity|].
    intros Hsound Hok2.
    rewrite (login_succeeds E H _ "admin" "admin123"
               (accounts.mkUser (gen_random_uuid E (S (accounts.queries s))) "admin"
                  (accounts.bcrypt_hash H (accounts.hashes s) "admin123"
                                        accounts.SALT_ROUNDS) "admin"));
      [reflexivity|exact Hok2|reflexivity|apply Hsound].
Qed.


Lemma head_filter_user_id (i : string) (t : list accounts.User) (u : accounts.User) :
  u ∈ t → accounts.id u = i →
  ∃ u0, head (filter (fun u => accounts.has_id i u = true) t) = Some u0.
Proof.
  intros Hu Hi. destruct (head _) as [u0|] eqn:Hhead; [eauto|].
  apply head_None in Hhead.
  assert (u ∈ filter (fun u0 => accounts.has_id i u0 = true) t) as Hin.
  { apply list_elem_of_filter. split; [|exact Hu].
    apply bool_decide_eq_true. exact Hi. }
  rewrite Hhead in Hin. apply elem_of_nil in Hin. contradiction.
Qed.

Lemma set_password_found (i p : string) (t : list accounts.User) (u0 : accounts.User) :
  head (filter (fun u => accounts.has_id i u = true) t) = Some u0 →
  head (filter (fun u => accounts.has_id i u = true)
          ((fun u => if accounts.has_id i u then accounts.set_password p u else u) <$> t))
  = Some (accounts.set_password p u0).
Proof.
  induction t as [|u t IH]; [discriminate|].
  rewrite fmap_cons, !filter_cons.
  destruct (accounts.has_id i u) eqn:Hi.
  - assert (accounts.has_id i (accounts.set_password p u) = true) as Hi' by exact Hi.
    rewrite decide_True by reflexivity. rewrite decide_True by exact Hi'.
    intros [= ->]. reflexivity.
  - rewrite decide_False by discriminate. rewrite decide_False by (rewrite Hi; discriminate).
    exact IH.
Qed.

(** X24.  Every route of sessions and users answers: a query that is
    rejected inside a route is caught there, and the status of the answer
    is one of 200, 400, 401, 403, 404 and 500. *)
Theorem accounts_api_always_answers
    (E : Env) (H : accounts.Host) (r : accounts.Request) (s : accounts.Server) :
  ∃ resp, (accounts.api E H r s).1 = Resolved resp ∧
          accounts.statusCode resp ∈ [200; 400; 401; 403; 404; 500]%Z.
Proof.
  assert (∀ resp : accounts.Response,
            accounts.statusCode resp = 200%Z ∨ accounts.statusCode resp = 400%Z ∨
            accounts.statusCode resp = 401%Z ∨ accounts.statusCode resp = 403%Z ∨
            accounts.statusCode resp = 404%Z ∨ accounts.statusCode resp = 500%Z →
            accounts.statusCode resp ∈ [200; 400; 401; 403; 404; 500]%Z) as Hin.
  { intros resp Hc. repeat (destruct Hc as [->|Hc]; [set_solver|]). rewrite Hc. set_solver. }
  assert (∀ o : Outcome accounts.Response * accounts.Server,
            (∃ c j st, o = (Resolved (accounts.mkResponse c j), st) ∧
                       (c = 200 ∨ c = 400 ∨ c = 401 ∨ c = 403 ∨ c = 404 ∨ c = 500)%Z) →
            ∃ resp, o.1 = Resolved resp ∧
                    accounts.statusCode resp ∈ [200; 400; 401; 403; 404; 500]%Z) as Hshape.
  { intros o (c & j & st & -> & Hc). eexists. split; [reflexivity|]. apply Hin. exact Hc. }
  apply Hshape. clear Hshape Hin.
  destruct r as [body| | | |body|i body|i]; handler_unfold; unfold accounts.await.
  - destruct (accounts.insertUserSchema_safeParse body) as [data|]; [|eexists _, _, _; eauto 10].
    destruct (db_fault E (accounts.queries s)); [eexists _, _, _; eauto 10|].
    cbn [accounts.users_exec]. destruct (head _) as [u|]; [|eexists _, _, _; eauto 10].
    destruct (accounts.bcrypt_compare H _ _); eexists _, _, _; eauto 10.
  - destruct (accounts.destroy_fails H); eexists _, _, _; eauto 10.
  - destruct (accounts.userId (accounts.session s)) as [u|]; [|eexists _, _, _; eauto 10].
    destruct (bool_decide (u = "")); eexists _, _, _; eauto 10.
  - destruct (negb (accounts.logged_in (accounts.session s))); [eexists _, _, _; eauto 10|].
    destruct (negb (bool_decide _)); [eexists _, _, _; eauto 10|].
    destruct (db_fault E (accounts.queries s)); eexists _, _, _; eauto 10.
  - destruct (negb (accounts.logged_in (accounts.session s))); [eexists _, _, _; eauto 10|].
    destruct (negb (bool_decide _)); [eexists _, _, _; eauto 10|].
    destruct (accounts.createUserSchema_safeParse body) as [data|];
      [|eexists _, _, _; eauto 10].
    destruct (db_fault E (accounts.queries s)); [eexists _, _, _; eauto 10|].
    cbn [accounts.users_exec]. destruct (head _); [eexists _, _, _; eauto 10|].
    cbn [accounts.queries accounts.table accounts.hashes].
    destruct (db_fault E (S (accounts.queries s))); [eexists _, _, _; eauto 10|].
    cbn [accounts.users_exec].
    destruct (_ || _); eexists _, _, _; eauto 10.
  - destruct (negb (accounts.logged_in (accounts.session s))); [eexists _, _, _; eauto 10|].
    destruct (negb (bool_decide _)); [eexists _, _, _; eauto 10|].
    destruct (accounts.updatePasswordSchema_safeParse body) as [p|];
      [|eexists _, _, _; eauto 10].
    destruct (db_fault E (accounts.queries s)); [eexists _, _, _; eauto 10|].
    cbn [accounts.users_exec]. destruct (head _); [|eexists _, _, _; eauto 10].
    cbn [accounts.queries accounts.table accounts.hashes].
    destruct (db_fault E (S (accounts.queries s))); [eexists _, _, _; eauto 10|].
    cbn [accounts.users_exec].
    destruct (head _); eexists _, _, _; eauto 10.
  - destruct (negb (accounts.logged_in (accounts.session s))); [eexists _, _, _; eauto 10|].
    destruct (negb (bool_decide _)); [eexists _, _, _; eauto 10|].
    case_bool_decide as Hown; [eexists _, _, _; eauto 10|].
    destruct (db_fault E (accounts.queries s)); [eexists _, _, _; eauto 10|].
    cbn [accounts.users_exec]. destruct (head _); [|eexists _, _, _; eauto 10].
    cbn [accounts.queries accounts.table accounts.hashes].
    destruct (db_fault E (S (accounts.queries s))); [eexists _, _, _; eauto 10|].
    cbn [accounts.users_exec].
    destruct (negb _); eexists _, _, _; eauto 10.
Qed.


Lemma parse_password_only (password : string) :
  6 ≤ String.length password →
  accounts.updatePasswordSchema_safeParse (password_only password) = Some password.
Proof.
  intros Hp. unfold accounts.updatePasswordSchema_safeParse, password_only. lookup_keys.
  rewrite z_min_string, (proj2 (Nat.leb_le _ _) Hp). reflexivity.
Qed.

Lemma head_filter_unique_username
    (f : accounts.User -> accounts.User) (t : list accounts.User) (u : accounts.User) :
  (∀ v, accounts.username (f v) = accounts.username v) →
  NoDup (accounts.username <$> t) → u ∈ t →
  head (filter (fun v => accounts.has_username (accounts.username u) v = true) (f <$> t))
  = Some (f u).
Proof.
  intros Hf. induction t as [|u1 t IH]; intros Hnd Hu.
  - apply elem_of_nil in Hu. contradiction.
  - rewrite fmap_cons in Hnd. apply NoDup_cons in Hnd as [Hfresh Hnd].
    rewrite fmap_cons, filter_cons. apply elem_of_cons in Hu as [<-|Hu].
    + rewrite decide_True; [reflexivity|].
      apply bool_decide_eq_true. apply Hf.
    + rewrite decide_False; [exact (IH Hnd Hu)|].
      intros Heq. apply bool_decide_eq_true in Heq. rewrite Hf in Heq.
      apply Hfresh. rewrite Heq. apply list_elem_of_fmap_2. exact Hu.
Qed.

(** X25.  An administrator gives a user a new password of 6 characters or
    more, and the queries are accepted.  When the names of the table are all
    different and bcrypt recognises what it has hashed, the request is
    answered 200, a login with the name of that user and the new password
    is then answered 200 and opens the session of that user, and the rows
    with another identifier are as they were. *)
Theorem new_password_logs_in
    (E : Env) (H : accounts.Host) (s : accounts.Server) (u : accounts.User)
    (password : string) :
  bcrypt_sound H →
  is_admin s →
  6 ≤ String.length password →
  u ∈ accounts.table s →
  NoDup (accounts.username <$> accounts.table s) →
  db_fault E (accounts.queries s) = None →
  db_fault E (S (accounts.queries s)) = None →
  db_fault E (S (S (accounts.queries s))) = None →
  (∃ resp,
     (accounts.api E H (accounts.PATCH_password (accounts.id u) (password_only password)) s).1
     = Resolved resp ∧ accounts.statusCode resp = 200%Z) ∧
  (accounts.api E H (accounts.POST_login (credentials (accounts.username u) password))
     (accounts.api E H (accounts.PATCH_password (accounts.id u) (password_only password)) s).2).1
  = Resolved (accounts.mkResponse 200
                (accounts.LoggedIn (accounts.id u) (accounts.username u) (accounts.role u))) ∧
  accounts.session
    (accounts.api E H (accounts.POST_login (credentials (accounts.username u) password))
       (accounts.api E H (accounts.PATCH_password (accounts.id u) (password_only password)) s).2).2
  = session_of u ∧
  ∀ v, v ∈ accounts.table s → accounts.id v ≠ accounts.id u →
       v ∈ accounts.table
             (accounts.api E H (accounts.PATCH_password (accounts.id u)
                                  (password_only password)) s).2.
Proof.
  intros Hsound Hadmin Hp Hu Hnd Hok Hok1 Hok2.
  set (h := accounts.bcrypt_hash H (accounts.hashes s) password accounts.SALT_ROUNDS).
  set (f := fun v : accounts.User =>
              if accounts.has_id (accounts.id u) v then accounts.set_password h v else v).
  destruct (head_filter_user_id (accounts.id u) (accounts.table s) u Hu eq_refl)
    as [u0 Hu0].
  assert (accounts.api E H (accounts.PATCH_password (accounts.id u) (password_only password)) s
          = (Resolved (accounts.mkResponse 200
                         (accounts.UserDone (Some (accounts.id u0, accounts.username u0)))),
             accounts.mkServer (f <$> accounts.table s) (accounts.session s)
                               (accounts.console s) (S (S (accounts.queries s)))
                               (S (accounts.hashes s)))) as Hpatch.
  { cbn [accounts.api]. rewrite requireAdmin_admin by exact Hadmin.
    unfold accounts.patch_password. rewrite parse_password_only by exact Hp.
    handler_unfold. unfold accounts.await. rewrite Hok.
    cbn [accounts.users_exec]. rewrite Hu0.
    cbn [accounts.queries accounts.table accounts.hashes accounts.session accounts.console].
    rewrite Hok1. cbn [accounts.users_exec].
    rewrite (set_password_found _ _ _ _ Hu0). reflexivity. }
  rewrite Hpatch. cbn [fst snd].
  assert (f u = accounts.set_password h u) as Hfu.
  { unfold f, accounts.has_id. rewrite bool_decide_eq_true_2 by reflexivity. reflexivity. }
  assert (∀ v, accounts.username (f v) = accounts.username v) as Hname.
  { intros v. unfold f. destruct (accounts.has_id _ v); reflexivity. }
  pose proof (head_filter_unique_username f _ u Hname Hnd Hu) as Hhead.
  rewrite Hfu in Hhead.
  rewrite (login_succeeds E H
             (accounts.mkServer (f <$> accounts.table s) (accounts.session s)
                                (accounts.console s) (S (S (accounts.queries s)))
                                (S (accounts.hashes s)))
             (accounts.username u) password
             (accounts.set_password h u) Hok2 Hhead (Hsound _ _ _)).
  cbn [fst snd accounts.session accounts.table].
  split; [eexists; split; reflexivity|]. split; [reflexivity|]. split; [reflexivity|].
  intros v Hv Hne. apply list_elem_of_fmap. exists v. split; [|exact Hv].
  unfold f, accounts.has_id. rewrite bool_decide_eq_false_2 by exact Hne. reflexivity.
Qed.

Lemma new_password_logs_in_witness :
  (bcrypt_sound office_host ∧
   is_admin (office (session_of office_admin)) ∧
   6 ≤ String.length "opensesame" ∧
   office_user ∈ accounts.table (office (session_of office_admin)) ∧
   NoDup (accounts.username <$> accounts.table (office (session_of office_admin)))) ∧
  (accounts.api lab_env office_host (accounts.POST_login (credentials "visitor" "opensesame"))
     (accounts.api lab_env office_host (accounts.PATCH_password "2" (password_only "opensesame"))
        (office (session_of office_admin))).2).1
  = Resolved (accounts.mkResponse 200 (accounts.LoggedIn "2" "visitor" "user")).
Proof.
  assert (bcrypt_sound office_host) as Hsound.
  { intros n data rounds. unfold office_host. cbn [accounts.bcrypt_compare accounts.bcrypt_hash].
    change ("$2b$" +:+ String (ascii_of_nat (97 + n)) "" +:+ "$" +:+ data)
      with (String "$" (String "2" (String "b" (String "$"
              (String (ascii_of_nat (97 + n)) (String "$" data)))))).
    apply bool_decide_eq_true. reflexivity. }
  assert (is_admin (office (session_of office_admin))) as Hadmin by (split; reflexivity).
  assert (office_user ∈ accounts.table (office (session_of office_admin))) as Hu
    by (right; left).
  assert (NoDup (accounts.username <$> accounts.table (office (session_of office_admin))))
    as Hnd.
  { apply (bool_decide_unpack _). vm_compute. exact I. }
  split; [repeat (split; [first [assumption|simpl; lia]|]); exact Hnd|].
  exact (proj1 (proj2 (new_password_logs_in lab_env office_host
                         (office (session_of office_admin)) office_user "opensesame"
                         Hsound Hadmin ltac:(simpl; lia) Hu Hnd eq_refl eq_refl eq_refl))).
Defined.

Lemma head_filter_username_free (n : string) (t : list accounts.User) :
  head (filter (fun u => accounts.has_username n u = true) t) = None →
  n ∉ accounts.username <$> t.
Proof.
  intros Hhead Hn. destruct (head_filter_username_taken n t Hn) as [u Hu]. congruence.
Qed.

(** X26.  When no query is rejected, the store of the sessions does not
    fail and the identifier drawn for a new row is not taken, no request is
    answered 500 and nothing is written to the console: with one request at
    a time, "Failed to update password" and "Failed to delete user" cannot
    come. *)
Theorem no_failure_without_fault
    (E : Env) (H : accounts.Host) (r : accounts.Request) (s : accounts.Server) :
  (∀ n, db_fault E n = None) →
  accounts.destroy_fails H = false →
  gen_random_uuid E (S (accounts.queries s)) ∉ accounts.id <$> accounts.table s →
  ∃ resp, (accounts.api E H r s).1 = Resolved resp ∧
          accounts.statusCode resp ≠ 500%Z ∧
          accounts.console (accounts.api E H r s).2 = accounts.console s.
Proof.
  intros Hok Hdestroy Hfresh.
  destruct r as [body| | | |body|i body|i]; handler_unfold; unfold accounts.await.
  - destruct (accounts.insertUserSchema_safeParse body) as [data|];
      [|eexists; repeat split; discriminate].
    rewrite Hok. cbn [accounts.users_exec].
    destruct (head _) as [u|]; [|eexists; repeat split; discriminate].
    destruct (accounts.bcrypt_compare H _ _); eexists; repeat split; discriminate.
  - rewrite Hdestroy. eexists; repeat split; discriminate.
  - destruct (accounts.userId (accounts.session s)) as [u|];
      [|eexists; repeat split; discriminate].
    destruct (bool_decide (u = "")); eexists; repeat split; discriminate.
  - destruct (negb (accounts.logged_in (accounts.session s)));
      [eexists; repeat split; discriminate|].
    destruct (negb (bool_decide _)); [eexists; repeat split; discriminate|].
    rewrite Hok. eexists; repeat split; discriminate.
  - destruct (negb (accounts.logged_in (accounts.session s)));
      [eexists; repeat split; discriminate|].
    destruct (negb (bool_decide _)); [eexists; repeat split; discriminate|].
    destruct (accounts.createUserSchema_safeParse body) as [data|];
      [|eexists; repeat split; discriminate].
    rewrite Hok. cbn [accounts.users_exec].
    destruct (head _) eqn:Hhead; [eexists; repeat split; discriminate|].
    cbn [accounts.queries accounts.table accounts.hashes].
    rewrite Hok. cbn [accounts.users_exec accounts.new_username].
    rewrite (bool_decide_eq_false_2 _ Hfresh).
    rewrite (bool_decide_eq_false_2 _ (head_filter_username_free _ _ Hhead)).
    eexists; repeat split; discriminate.
  - destruct (negb (accounts.logged_in (accounts.session s)));
      [eexists; repeat split; discriminate|].
    destruct (negb (bool_decide _)); [eexists; repeat split; discriminate|].
    destruct (accounts.updatePasswordSchema_safeParse body) as [p|];
      [|eexists; repeat split; discriminate].
    rewrite Hok. cbn [accounts.users_exec].
    destruct (head _) eqn:Hhead; [|eexists; repeat split; discriminate].
    cbn [accounts.queries accounts.table accounts.hashes].
    rewrite Hok. cbn [accounts.users_exec].
    rewrite (set_password_found _ _ _ _ Hhead).
    eexists; repeat split; discriminate.
  - destruct (negb (accounts.logged_in (accounts.session s)));
      [eexists; repeat split; discriminate|].
    destruct (negb (bool_decide _)); [eexists; repeat split; discriminate|].
    case_bool_decide as Hown; [eexists; repeat split; discriminate|].
    rewrite Hok. cbn [accounts.users_exec].
    destruct (head _) eqn:Hhead; [|eexists; repeat split; discriminate].
    cbn [accounts.queries accounts.table accounts.hashes].
    rewrite Hok. cbn [accounts.users_exec].
    apply head_Some in Hhead as [l' ->].
    eexists; repeat split; discriminate.
Qed.

Lemma no_failure_without_fault_witness :
  ((∀ n, db_fault lab_env n = None) ∧
   accounts.destroy_fails office_host = false ∧
   gen_random_uuid lab_env (S (accounts.queries (office (session_of office_admin))))
     ∉ accounts.id <$> accounts.table (office (session_of office_admin))) ∧
  ∃ resp,
    (accounts.api lab_env office_host (accounts.DELETE_user "2")
                  (office (session_of office_admin))).1 = Resolved resp ∧
    accounts.statusCode resp ≠ 500%Z ∧
    accounts.console (accounts.api lab_env office_host (accounts.DELETE_user "2")
                        (office (session_of office_admin))).2
    = accounts.console (office (session_of office_admin)).
Proof.
  assert (gen_random_uuid lab_env (S (accounts.queries (office (session_of office_admin))))
            ∉ accounts.id <$> accounts.table (office (session_of office_admin))) as Hfresh.
  { intros Hin. repeat (apply elem_of_cons in Hin as [Hin|Hin]; [discriminate Hin|]).
    apply elem_of_nil in Hin. exact Hin. }
  split; [split; [reflexivity|split; [reflexivity|exact Hfresh]]|].
  exact (no_failure_without_fault lab_env office_host (accounts.DELETE_user "2")
           (office (session_of office_admin)) (fun _ => eq_refl) eq_refl Hfresh).
Defined.


(** ** An edit that gives no column *)

(** X27.  PATCH /api/devices/:id by an administrator with a body that holds
    none of the keys of a device (an empty object, or only keys the schema
    drops, such as [status]), the first query accepted.  When a row has the
    identifier, [.set] of [updateDevice] throws "No values to set": the
    answer is 500, the error is logged, no second query is sent, and the
    table is as it was.  When no row has it the answer is 404. *)
Theorem patch_without_columns_is_an_error
    (E : Env) (session : Session) (w : World) (i : string) (o : gmap string JVal) :
  logged_in session = true →
  role session = Some "admin" →
  o !! "name" = None → o !! "ipAddress" = None → o !! "macAddress" = None →
  o !! "deviceType" = None → o !! "os" = None → o !! "description" = None →
  db_fault E (ops w) = None →
  run E (device_api session (PATCH_device i (BodyObject o))) w =
  if bool_decide (i ∈ devices.id <$> table w)
  then (Resolved (mkResponse 500 (ErrorJson "Internal server error")),
        mkWorld (table w)
                (console w ++ [Error "Update device error:" (DbError "No values to set")])
                (execs w) (reads w) (S (ops w)))
  else (Resolved (mkResponse 404 (ErrorJson "Device not found")), fetched w).
Proof.
  intros Hin Hadmin H1 H2 H3 H4 H5 H6 Hok.
  cbn [device_api]. unfold requireAdmin. rewrite Hin, Hadmin.
  rewrite (bool_decide_eq_true_2 (Some "admin" = Some "admin")) by reflexivity.
  cbn [negb]. unfold patch_device, partialSchema_safeParse.
  rewrite H1, H2, H3, H4, H5, H6.
  cbn [z_optional z_macAddress mbind option_bind].
  rewrite run_try_catch, run_bind, run_getDevice, Hok.
  case_bool_decide as Hi.
  - destruct (head_filter_id i (table w) Hi) as [d0 Hd0]. rewrite Hd0.
    rewrite run_bind, run_updateDevice. reflexivity.
  - rewrite (proj2 (head_None _) (filter_id_absent i (table w) Hi)). reflexivity.
Qed.

Lemma patch_without_columns_is_an_error_witness :
  (logged_in lab_admin = true ∧ role lab_admin = Some "admin" ∧
   db_fault lab_env (ops lab_world) = None) ∧
  run lab_env
      (device_api lab_admin
         (PATCH_device "a" (BodyObject (<["status" := JString "online"]> ∅)))) lab_world
  = (Resolved (mkResponse 500 (ErrorJson "Internal server error")),
     mkWorld [lab_A; lab_B]
             [Error "Update device error:" (DbError "No values to set")] [] 0 1).
Proof.
  split; [repeat split|].
  pose proof (patch_without_columns_is_an_error lab_env lab_admin lab_world "a"
                (<["status" := JString "online"]> ∅)
                eq_refl eq_refl eq_refl eq_refl eq_refl eq_refl eq_refl eq_refl eq_refl)
    as H.
  rewrite bool_decide_eq_true_2 in H by (left). exact H.
Defined.
